(** * Fleet analytics data processing: a shallow embedding

    Embedding of [services/analytics/utils/dataProcessing.py]:
    [process_location_data], [calculate_fleet_metrics],
    [analyze_delivery_efficiency], [detect_anomalies] and their helpers,
    with the library calls they make read as the versions named in the
    module's docstring behave (numpy 1.24.0, pandas 2.0.0, scipy 1.10.0).

    Number model.  A pandas/numpy [float64] cell is a value of [float64]
    below: a real number, or one of the IEEE special values NaN, +inf,
    -inf.  Arithmetic on finite values is exact (binary rounding, and the
    final narrowing to float32, are abstracted away); the special values
    follow IEEE 754, so that [0/0] is NaN, [x/0] is an infinity and every
    comparison with NaN is false.  There is no signed zero: a zero divisor
    counts as [+0].

    Frames.  A DataFrame is modelled by the columns a function reads, over
    the default row index [0 .. n-1].  Assigning a column of [n > 0]
    values to a frame that has no row left does not fail: pandas rebuilds
    the index from the values and fills every other column with NaN.
    [sort_values] is modelled by a stable sort; the sort pandas uses keeps
    tied rows in their input order on short frames only, and nothing
    below rests on the order of tied rows of a longer frame. *)

From Stdlib Require Import Reals Lra Lia String Ascii ZArith Bool Arith List.
From Stdlib Require Import Permutation.
Import ListNotations.
Open Scope R_scope.

(** ** float64 *)

Module F64.

Inductive float64 : Type :=
| NaN
| PInf
| NInf
| Fin (r : R).

Definition Rltb (a b : R) : bool := if Rlt_dec a b then true else false.
Definition Rleb (a b : R) : bool := if Rle_dec a b then true else false.
Definition Reqb (a b : R) : bool := if Req_dec_T a b then true else false.

Definition isnan (x : float64) : bool :=
  match x with NaN => true | _ => false end.

Definition fneg (x : float64) : float64 :=
  match x with
  | NaN => NaN
  | PInf => NInf
  | NInf => PInf
  | Fin a => Fin (- a)
  end.

Definition fabs (x : float64) : float64 :=
  match x with
  | NaN => NaN
  | PInf | NInf => PInf
  | Fin a => Fin (Rabs a)
  end.

Definition fadd (x y : float64) : float64 :=
  match x, y with
  | NaN, _ | _, NaN => NaN
  | PInf, NInf | NInf, PInf => NaN
  | PInf, _ | _, PInf => PInf
  | NInf, _ | _, NInf => NInf
  | Fin a, Fin b => Fin (a + b)
  end.

Definition fsub (x y : float64) : float64 := fadd x (fneg y).

(** Sign-directed infinity: the result of [inf * b] for finite [b]. *)
Definition inf_times (positive : bool) (b : R) : float64 :=
  if Reqb b 0 then NaN
  else if Rltb 0 b then (if positive then PInf else NInf)
       else (if positive then NInf else PInf).

Definition fmul (x y : float64) : float64 :=
  match x, y with
  | NaN, _ | _, NaN => NaN
  | Fin a, Fin b => Fin (a * b)
  | PInf, Fin b | Fin b, PInf => inf_times true b
  | NInf, Fin b | Fin b, NInf => inf_times false b
  | PInf, PInf | NInf, NInf => PInf
  | PInf, NInf | NInf, PInf => NInf
  end.

Definition fdiv (x y : float64) : float64 :=
  match x, y with
  | NaN, _ | _, NaN => NaN
  | Fin a, Fin b =>
      if Reqb b 0 then
        (if Reqb a 0 then NaN
         else if Rltb 0 a then PInf else NInf)
      else Fin (a / b)
  | Fin _, PInf | Fin _, NInf => Fin 0
  | PInf, Fin b => if Rltb b 0 then NInf else PInf
  | NInf, Fin b => if Rltb b 0 then PInf else NInf
  | PInf, PInf | PInf, NInf | NInf, PInf | NInf, NInf => NaN
  end.

Definition fsqrt (x : float64) : float64 :=
  match x with
  | NaN | NInf => NaN
  | PInf => PInf
  | Fin a => if Rltb a 0 then NaN else Fin (sqrt a)
  end.

(** Comparisons: false as soon as one side is NaN. *)
Definition fltb (x y : float64) : bool :=
  match x, y with
  | NaN, _ | _, NaN => false
  | Fin a, Fin b => Rltb a b
  | NInf, NInf | PInf, _ | _, NInf => false
  | NInf, _ | _, PInf => true
  end.

Definition fleb (x y : float64) : bool :=
  match x, y with
  | NaN, _ | _, NaN => false
  | Fin a, Fin b => Rleb a b
  | NInf, _ | _, PInf => true
  | PInf, _ | _, NInf => false
  end.

Definition fgtb (x y : float64) : bool := fltb y x.

Definition feqb (x y : float64) : bool :=
  match x, y with
  | Fin a, Fin b => Reqb a b
  | PInf, PInf | NInf, NInf => true
  | _, _ => false
  end.

(** [np.round(x, 2)]: scale by 100, round half to even, scale back. *)
Definition rint (y : R) : Z :=
  let f := Zfloor y in
  let d := y - IZR f in
  if Rltb d (1 / 2) then f
  else if Rltb (1 / 2) d then (f + 1)%Z
       else if Z.even f then f else (f + 1)%Z.

Definition round2 (x : float64) : float64 :=
  match x with
  | Fin a => Fin (IZR (rint (a * 100)) / 100)
  | other => other
  end.

End F64.
Import F64.

(** ** Column reductions (numpy and pandas) *)

Module Series.

Definition Rsum (xs : list R) : R := fold_right Rplus 0 xs.

(** numpy reductions propagate NaN. *)
Definition np_sum (xs : list float64) : float64 :=
  fold_left fadd xs (Fin 0).

Definition np_mean (xs : list float64) : float64 :=
  fdiv (np_sum xs) (Fin (INR (length xs))).

(** [a.std(ddof=0)]: [sqrt(mean(abs(a - a.mean())**2))]. *)
Definition np_std (xs : list float64) : float64 :=
  let m := np_mean xs in
  fsqrt (np_mean (map (fun x => let d := fabs (fsub x m) in fmul d d) xs)).

(** pandas reductions skip NaN cells first. *)
Definition dropna (xs : list float64) : list float64 :=
  filter (fun x => negb (isnan x)) xs.

Definition pd_count (xs : list float64) : nat := length (dropna xs).

Definition pd_mean (xs : list float64) : float64 := np_mean (dropna xs).

(** [Series.std()] and [GroupBy.std()]: [ddof=1]; NaN unless at least two
    values are present. *)
Definition pd_std (xs : list float64) : float64 :=
  let ys := dropna xs in
  let n := length ys in
  if (n <=? 1)%nat then NaN
  else
    let m := np_mean ys in
    fsqrt (fdiv (np_sum (map (fun y => let d := fsub y m in fmul d d) ys))
                (Fin (INR (n - 1)))).

Definition fmin (x y : float64) : float64 := if fltb y x then y else x.
Definition fmax (x y : float64) : float64 := if fltb x y then y else x.

Definition pd_min (xs : list float64) : float64 :=
  match dropna xs with
  | [] => NaN
  | y :: ys => fold_left fmin ys y
  end.

Definition pd_max (xs : list float64) : float64 :=
  match dropna xs with
  | [] => NaN
  | y :: ys => fold_left fmax ys y
  end.

Fixpoint insert_sorted (x : float64) (l : list float64) : list float64 :=
  match l with
  | [] => [x]
  | y :: l' => if fleb x y then x :: l else y :: insert_sorted x l'
  end.

Definition sort_values (l : list float64) : list float64 :=
  fold_right insert_sorted [] l.

Definition pd_median (xs : list float64) : float64 :=
  let s := sort_values (dropna xs) in
  let n := length s in
  match n with
  | O => NaN
  | _ =>
      if Nat.odd n then nth (n / 2) s NaN
      else fdiv (fadd (nth (n / 2 - 1) s NaN) (nth (n / 2) s NaN)) (Fin 2)
  end.

(** [scipy.stats.zscore(a)] ([ddof=0], NaN propagated): a constant input is
    detected by comparing every entry with the first one, its deviation is
    replaced by 1 and its scores are set to NaN. *)
Definition isconst (a : list float64) : bool :=
  match a with
  | [] => true
  | x0 :: _ => forallb (fun x => feqb x0 x) a
  end.

Definition zscore (a : list float64) : list float64 :=
  let mn := np_mean a in
  let std := if isconst a then Fin 1 else np_std a in
  let z := map (fun x => fdiv (fsub x mn) std) a in
  if isconst a then map (fun _ => NaN) z else z.

End Series.
Import Series.

(** ** Errors

    Every public function wraps its body in [try ... except Exception as e:
    raise ValueError(f"Error ...: {str(e)}")]; a failure is the wrapped
    cause. *)

Inductive cause : Type :=
| InvalidMetricType (metric_type : string)
| InvalidAggregationPeriod (aggregation_period : string)
| KeyError (column : string)
| BooleanAssignMismatch (n_values n_true : nat)
| LengthMismatch (n_values n_index : nat)
| UnalignableBooleanIndexer
| InhomogeneousShape.

Inductive result (A : Type) : Type :=
| Ok (a : A)
| ValueError (where_ : string) (e : cause).
Arguments Ok {A} a.
Arguments ValueError {A} where_ e.

Definition is_ok {A} (r : result A) : bool :=
  match r with Ok _ => true | ValueError _ _ => false end.

(** ** detect_anomalies *)

Module Anomaly.

(** The numeric columns of [operational_data], in column order, over the
    default index [0 .. n_rows-1]. *)
Record DataFrame : Type := {
  n_rows : nat;
  numeric_cols : list (string * list float64)
}.

Record AnomalyRecord : Type := {
  row_index : nat;
  original_sample : list float64;
  confidence_score : float64;
  anomaly_type : string
}.

Definition cell (i : nat) (col : list float64) : float64 := nth i col NaN.

(** [z_scores[col] = np.abs(stats.zscore(operational_data[col]))] *)
Definition z_scores (df : DataFrame) : list (string * list float64) :=
  map (fun c => (fst c, map fabs (zscore (snd c)))) (numeric_cols df).

Definition z_row (zs : list (string * list float64)) (i : nat)
  : list (string * float64) :=
  map (fun c => (fst c, cell i (snd c))) zs.

(** [row[row > threshold].index.tolist()] *)
Definition affected_metrics (row : list (string * float64))
  (threshold : float64) : list string :=
  map fst (filter (fun c => fgtb (snd c) threshold) row).

(** [(row > threshold).any()] *)
Definition any_above (row : list (string * float64)) (threshold : float64)
  : bool :=
  existsb (fun c => fgtb (snd c) threshold) row.

Definition categorize_row (row : list (string * float64))
  (threshold : float64) : string :=
  if any_above row threshold
  then ("Anomaly in: " ++ String.concat ", " (affected_metrics row threshold))%string
  else "Normal"%string.

(** [_categorize_anomalies]: one label per row of [z_scores], returned as
    a Series over a fresh index [0 .. n-1]. *)
Definition _categorize_anomalies (zs : list (string * list float64))
  (n : nat) (threshold : float64) : list string :=
  map (fun i => categorize_row (z_row zs i) threshold) (seq 0 n).

(** The record of a selected row. *)
Definition anomaly_record (operational_data : DataFrame)
  (zs : list (string * list float64)) (categories : list string) (i : nat)
  : AnomalyRecord :=
  {| row_index := i;
     original_sample :=
       map (fun c => cell i (snd c)) (numeric_cols operational_data);
     confidence_score := pd_max (map snd (z_row zs i));
     (* assignment of a Series aligns on the row label *)
     anomaly_type := nth i categories ""%string |}.

(** The record of a row of the rebuilt frame: when no row is selected,
    [anomalies] has no index left, [confidence_score] is set to an empty
    column, and assigning the [n] categories rebuilds the index
    [0 .. n-1], with NaN in every other cell. *)
Definition rebuilt_record (operational_data : DataFrame)
  (categories : list string) (i : nat) : AnomalyRecord :=
  {| row_index := i;
     original_sample := map (fun _ => NaN) (numeric_cols operational_data);
     confidence_score := NaN;
     anomaly_type := nth i categories ""%string |}.

Definition detect_anomalies (operational_data : DataFrame)
  (threshold : float64) : result (list AnomalyRecord) :=
  let n := n_rows operational_data in
  let zs := z_scores operational_data in
  match zs, n with
  | [], S _ =>
      (* the empty score frame has no index to align with the data *)
      ValueError "Error detecting anomalies" UnalignableBooleanIndexer
  | _, _ =>
      let mask := fun i => any_above (z_row zs i) threshold in
      let categories := _categorize_anomalies zs n threshold in
      match filter mask (seq 0 n) with
      | [] => Ok (map (rebuilt_record operational_data categories) (seq 0 n))
      | selected =>
          Ok (map (anomaly_record operational_data zs categories) selected)
      end
  end.

End Anomaly.

(** ** process_location_data *)

Module Kinematics.

(** One row of [location_data]; [timestamp] counts nanoseconds, as a pandas
    [datetime64[ns]] does. *)
Record LocationSample : Type := {
  vehicle_id : string;
  timestamp : Z;
  latitude : float64;
  longitude : float64
}.

(** [calculation_options]: a mapping in which either key may be absent. *)
Record CalcOptions : Type := {
  remove_outliers : option bool;
  outlier_z_threshold : option float64
}.

(** One row of the result; a [vehicle_id] cell may hold NaN and a
    [timestamp] cell NaT, read here as [None]. *)
Record DerivedSample : Type := {
  d_vehicle_id : option string;
  d_timestamp : option Z;
  d_speed : float64;
  d_distance : float64;
  d_acceleration : float64
}.

(** [sort_values('timestamp')], as a stable insertion sort. *)
Fixpoint insert_by_time (x : LocationSample) (l : list LocationSample)
  : list LocationSample :=
  match l with
  | [] => [x]
  | y :: l' =>
      if (timestamp x <=? timestamp y)%Z then x :: l
      else y :: insert_by_time x l'
  end.

Definition sort_by_time (l : list LocationSample) : list LocationSample :=
  fold_right insert_by_time [] l.

Fixpoint last_seen {V} (v : string) (seen : list (string * V)) : option V :=
  match seen with
  | [] => None
  | (k, x) :: rest => if String.eqb k v then Some x else last_seen v rest
  end.

(** [groupby(key)[col].diff()]: each row minus the previous row of the same
    group, NaN on the first row of a group. *)
Fixpoint group_diff {V} (sub : V -> V -> float64)
  (seen : list (string * V)) (rows : list (string * V)) : list float64 :=
  match rows with
  | [] => []
  | (k, x) :: rest =>
      match last_seen k seen with
      | None => NaN
      | Some p => sub x p
      end :: group_diff sub ((k, x) :: seen) rest
  end.

(** [.dt.total_seconds()] of a difference of two timestamps. *)
Definition total_seconds (t p : Z) : float64 :=
  Fin (IZR (t - p) / 1000000000).

Definition time_diff_column (rows : list LocationSample) : list float64 :=
  group_diff total_seconds []
    (map (fun r => (vehicle_id r, timestamp r)) rows).

(** [location_data['vehicle_id'].shift() == location_data['vehicle_id']] *)
Fixpoint same_as_previous (prev : option string) (rows : list LocationSample)
  : list bool :=
  match rows with
  | [] => []
  | r :: rest =>
      match prev with
      | None => false
      | Some p => String.eqb p (vehicle_id r)
      end :: same_as_previous (Some (vehicle_id r)) rest
  end.

Definition km_per_degree : R := 11132 / 100.

(** One entry of [np.sqrt(np.sum((coords[1:] - coords[:-1])**2, axis=1))
    * 111.32]. *)
Definition step_distance (a b : LocationSample) : float64 :=
  let dlat := fsub (latitude b) (latitude a) in
  let dlon := fsub (longitude b) (longitude a) in
  fmul (fsqrt (fadd (fmul dlat dlat) (fmul dlon dlon))) (Fin km_per_degree).

Fixpoint consecutive_distances (rows : list LocationSample) : list float64 :=
  match rows with
  | a :: ((b :: _) as rest) => step_distance a b :: consecutive_distances rest
  | _ => []
  end.

Fixpoint scatter (dst : list float64) (mask : list bool)
  (values : list float64) : list float64 :=
  match dst, mask with
  | d :: dst', true :: mask' =>
      match values with
      | v :: values' => v :: scatter dst' mask' values'
      | [] => d :: scatter dst' mask' []
      end
  | d :: dst', false :: mask' => d :: scatter dst' mask' values
  | _, _ => dst
  end.

Definition count_true (mask : list bool) : nat :=
  length (filter (fun b => b) mask).

(** [dst[mask] = values]: as many values as true positions, or a single
    value broadcast to all of them; anything else is an error. *)
Definition assign_masked (dst : list float64) (mask : list bool)
  (values : list float64) : cause + list float64 :=
  let k := count_true mask in
  if (length values =? k)%nat then inr (scatter dst mask values)
  else
    match values with
    | [v] => inr (scatter dst mask (repeat v k))
    | _ => inl (BooleanAssignMismatch (length values) k)
    end.

Definition distances_column (rows : list LocationSample)
  : cause + list float64 :=
  assign_masked (repeat (Fin 0) (length rows))
                (same_as_previous None rows)
                (consecutive_distances rows).

(** [np.where(time_diff > 0, distances / time_diff * 3600, 0)] *)
Definition speed_of (time_diff distance : float64) : float64 :=
  if fgtb time_diff (Fin 0)
  then fmul (fdiv distance time_diff) (Fin 3600)
  else Fin 0.

Fixpoint speed_column (time_diffs distances : list float64) : list float64 :=
  match time_diffs, distances with
  | t :: ts, d :: ds => speed_of t d :: speed_column ts ds
  | _, _ => []
  end.

(** [np.abs(stats.zscore(location_data['speed'])) < 3] *)
Definition outlier_mask (speeds : list float64) : list bool :=
  map (fun z => fltb (fabs z) (Fin 3)) (zscore speeds).

Fixpoint select {A} (mask : list bool) (l : list A) : list A :=
  match mask, l with
  | true :: mask', x :: l' => x :: select mask' l'
  | false :: mask', _ :: l' => select mask' l'
  | _, _ => []
  end.

(** The working frame: the sorted rows with their added columns. *)
Record Row : Type := {
  sample : LocationSample;
  time_diff : float64;
  speed : float64
}.

Fixpoint make_rows (rows : list LocationSample)
  (time_diffs speeds : list float64) : list Row :=
  match rows, time_diffs, speeds with
  | r :: rs, t :: ts, s :: ss =>
      {| sample := r; time_diff := t; speed := s |} :: make_rows rs ts ss
  | _, _, _ => []
  end.

(** [calculation_options.get('remove_outliers', True)] *)
Definition outliers_requested (o : CalcOptions) : bool :=
  match remove_outliers o with
  | Some b => b
  | None => true
  end.

Definition filter_outliers (o : CalcOptions) (frame : list Row) : list Row :=
  if outliers_requested o
  then select (outlier_mask (map speed frame)) frame
  else frame.

Definition acceleration_column (frame : list Row) : list float64 :=
  map (fun p => fdiv (fst p) (snd p))
      (combine (group_diff fsub []
                  (map (fun r => (vehicle_id (sample r), speed r)) frame))
               (map time_diff frame)).

Fixpoint make_output (frame : list Row) (distances accelerations : list float64)
  : list DerivedSample :=
  match frame, distances, accelerations with
  | r :: rs, d :: ds, a :: accs =>
      {| d_vehicle_id := Some (vehicle_id (sample r));
         d_timestamp := Some (timestamp (sample r));
         d_speed := speed r;
         d_distance := d;
         d_acceleration := a |} :: make_output rs ds accs
  | _, _, _ => []
  end.

(** The sorted frame with its [time_diff] and [speed] columns. *)
Definition working_frame (sorted : list LocationSample)
  (distances : list float64) : list Row :=
  let time_diffs := time_diff_column sorted in
  make_rows sorted time_diffs (speed_column time_diffs distances).

(** A row of the rebuilt frame: when the filter has left no row, the
    assignment of the distances rebuilds the index [0 .. n-1]; the row
    holds its distance and NaN (NaT) in every other cell, and with no
    vehicle to group by its acceleration is NaN too. *)
Definition rebuilt_row (distance : float64) : DerivedSample :=
  {| d_vehicle_id := None;
     d_timestamp := None;
     d_speed := NaN;
     d_distance := distance;
     d_acceleration := NaN |}.

Definition process_location_data (location_data : list LocationSample)
  (calculation_options : CalcOptions) : result (list DerivedSample) :=
  let sorted := sort_by_time location_data in
  match distances_column sorted with
  | inl e => ValueError "Error processing location data" e
  | inr distances =>
      let frame := working_frame sorted distances in
      let kept := filter_outliers calculation_options frame in
      (* location_data['distance'] = distances *)
      match kept, distances with
      | [], _ :: _ => Ok (map rebuilt_row distances)
      | _, _ =>
          if (length distances =? length kept)%nat then
            Ok (make_output kept distances (acceleration_column kept))
          else
            ValueError "Error processing location data"
                       (LengthMismatch (length distances) (length kept))
      end
  end.

End Kinematics.

(** ** groupby *)

Module GroupBy.

Section Grouping.
Context {K V : Type}.
Variable eqb : K -> K -> bool.
Variable ltb : K -> K -> bool.

(** Rows are collected per key, in row order, ... *)
Fixpoint add_to_group (k : K) (v : V) (groups : list (K * list V))
  : list (K * list V) :=
  match groups with
  | [] => [(k, [v])]
  | (k', vs) :: rest =>
      if eqb k' k then (k', vs ++ [v]) :: rest
      else (k', vs) :: add_to_group k v rest
  end.

Definition collect (rows : list (K * V)) : list (K * list V) :=
  fold_left (fun groups r => add_to_group (fst r) (snd r) groups) rows [].

(** ... and the groups come out sorted by key. *)
Fixpoint insert_group (g : K * list V) (sorted : list (K * list V))
  : list (K * list V) :=
  match sorted with
  | [] => [g]
  | h :: rest =>
      if ltb (fst h) (fst g) then h :: insert_group g rest
      else g :: sorted
  end.

Definition sort_groups (groups : list (K * list V)) : list (K * list V) :=
  fold_right insert_group [] groups.

Definition groupby (rows : list (K * V)) : list (K * list V) :=
  sort_groups (collect rows).

(** The values of the rows carrying key [k], in row order. *)
Definition values_of (k : K) (rows : list (K * V)) : list V :=
  map snd (filter (fun r => eqb k (fst r)) rows).

End Grouping.

End GroupBy.
Import GroupBy.

(** ** calculate_fleet_metrics *)

Module Fleet.

Definition METRIC_TYPES : list (string * string) :=
  [("SPEED", "vehicle_speed"); ("DISTANCE", "distance_covered");
   ("FUEL", "fuel_consumption"); ("IDLE_TIME", "idle_time");
   ("DELIVERY_TIME", "delivery_time")]%string.

Definition AGGREGATION_PERIODS : list (string * string) :=
  [("HOURLY", "1H"); ("DAILY", "1D"); ("WEEKLY", "1W"); ("MONTHLY", "1M")]%string.

Definition values (d : list (string * string)) : list string := map snd d.

(** [x in d.values()] *)
Definition is_in (x : string) (l : list string) : bool :=
  existsb (String.eqb x) l.

(** [fleet_data]: the [timestamp] and [vehicle_id] columns and the metric
    columns by name. *)
Record FleetFrame : Type := {
  f_timestamp : list Z;
  f_vehicle_id : list string;
  f_columns : list (string * list float64)
}.

Fixpoint get_column (name : string) (cols : list (string * list float64))
  : option (list float64) :=
  match cols with
  | [] => None
  | (n, c) :: rest => if String.eqb n name then Some c else get_column name rest
  end.

(** Calendar arithmetic on day numbers (days since 1970-01-01). *)
Definition days_from_civil (y m d : Z) : Z :=
  let y' := if (m <=? 2)%Z then (y - 1)%Z else y in
  let era := (y' / 400)%Z in
  let yoe := (y' - era * 400)%Z in
  let mp := if (m >? 2)%Z then (m - 3)%Z else (m + 9)%Z in
  let doy := ((153 * mp + 2) / 5 + d - 1)%Z in
  let doe := (yoe * 365 + yoe / 4 - yoe / 100 + doy)%Z in
  (era * 146097 + doe - 719468)%Z.

Definition civil_year_month (day : Z) : Z * Z :=
  let z := (day + 719468)%Z in
  let era := (z / 146097)%Z in
  let doe := (z - era * 146097)%Z in
  let yoe := ((doe - doe / 1460 + doe / 36524 - doe / 146096) / 365)%Z in
  let doy := (doe - (365 * yoe + yoe / 4 - yoe / 100))%Z in
  let mp := ((5 * doy + 2) / 153)%Z in
  let m := if (mp <? 10)%Z then (mp + 3)%Z else (mp - 9)%Z in
  let y := (yoe + era * 400)%Z in
  (if (m <=? 2)%Z then (y + 1)%Z else y, m).

Definition month_end (day : Z) : Z :=
  let (y, m) := civil_year_month day in
  if (m =? 12)%Z then (days_from_civil (y + 1) 1 1 - 1)%Z
  else (days_from_civil y (m + 1) 1 - 1)%Z.

Definition ns_per_hour : Z := 3600000000000.
Definition ns_per_day : Z := 86400000000000.

(** [pd.Grouper(key='timestamp', freq=...)]: the label of the bin holding
    a timestamp.  Hourly and daily bins are labelled by their start; weekly
    bins end on Sunday and monthly bins on the last day of the month, and
    both are labelled by that day. *)
Definition bucket (freq : string) (t : Z) : Z :=
  let day := (t / ns_per_day)%Z in
  if String.eqb freq "1H" then (t / ns_per_hour * ns_per_hour)%Z
  else if String.eqb freq "1D" then (day * ns_per_day)%Z
  else if String.eqb freq "1W" then ((day + (3 - day) mod 7) * ns_per_day)%Z
  else if String.eqb freq "1M" then (month_end day * ns_per_day)%Z
  else t.

Definition key_eqb (a b : Z * string) : bool :=
  (fst a =? fst b)%Z && String.eqb (snd a) (snd b).

Definition key_ltb (a b : Z * string) : bool :=
  (fst a <? fst b)%Z || ((fst a =? fst b)%Z && String.ltb (snd a) (snd b)).

(** The rows seen by the grouping: bin label and vehicle, with the value
    of the metric. *)
Definition keyed_rows (fleet_data : FleetFrame) (freq : string)
  (column : list float64) : list ((Z * string) * float64) :=
  combine (combine (map (bucket freq) (f_timestamp fleet_data))
                   (f_vehicle_id fleet_data))
          column.

(** [fleet_data.groupby([pd.Grouper(...), 'vehicle_id'])[metric_type]] *)
Definition grouped (fleet_data : FleetFrame) (freq : string)
  (column : list float64) : list ((Z * string) * list float64) :=
  groupby key_eqb key_ltb (keyed_rows fleet_data freq column).

(** [grouped.inner().groupby(level=0).outer()] *)
Definition rollup {A} (inner : list float64 -> A)
  (inject : A -> float64) (groups : list ((Z * string) * list float64))
  : list (Z * list float64) :=
  groupby Z.eqb Z.ltb
    (map (fun g => (fst (fst g), inject (inner (snd g)))) groups).

Definition two_level (inner outer : list float64 -> float64)
  (groups : list ((Z * string) * list float64)) : list (Z * float64) :=
  map (fun b => (fst b, outer (snd b))) (rollup inner (fun x => x) groups).

Record Statistics : Type := {
  mean : list (Z * float64);
  median : list (Z * float64);
  std : list (Z * float64);
  min : list (Z * float64);
  max : list (Z * float64);
  vehicle_count : list (Z * nat)
}.

Record FleetMetrics : Type := {
  aggregation_period : string;
  metric_type : string;
  statistics : Statistics
}.

Definition compute_statistics (groups : list ((Z * string) * list float64))
  : Statistics :=
  {| mean := two_level pd_mean pd_mean groups;
     median := two_level pd_median pd_median groups;
     std := two_level pd_std pd_mean groups;
     min := two_level pd_min pd_min groups;
     max := two_level pd_max pd_max groups;
     vehicle_count :=
       map (fun b => (fst b, pd_count (snd b)))
           (rollup pd_count (fun n => Fin (INR n)) groups) |}.

Definition where_fleet : string := "Error calculating fleet metrics".

Definition calculate_fleet_metrics (fleet_data : FleetFrame)
  (metric_type aggregation_period : string) : result FleetMetrics :=
  if negb (is_in metric_type (values METRIC_TYPES)) then
    ValueError where_fleet (InvalidMetricType metric_type)
  else if negb (is_in aggregation_period (values AGGREGATION_PERIODS)) then
    ValueError where_fleet (InvalidAggregationPeriod aggregation_period)
  else
    match get_column metric_type (f_columns fleet_data) with
    | None => ValueError where_fleet (KeyError metric_type)
    | Some column =>
        Ok {| aggregation_period := aggregation_period;
              metric_type := metric_type;
              statistics :=
                compute_statistics
                  (grouped fleet_data aggregation_period column) |}
    end.

(** [AnalyticsModel.get_fleet_performance] groups the stored values by
    metric type and reports [$stdDevPop], the population standard deviation,
    rounded to two decimals. *)
Definition stdDevPop (values : list float64) : float64 := np_std values.

Definition fleet_performance_standard_deviation (values : list float64)
  : float64 :=
  round2 (stdDevPop values).

End Fleet.

(** ** analyze_delivery_efficiency *)

Module Efficiency.

Record DeliveryRecord : Type := {
  delivery_time : float64;
  actual_time : float64;
  planned_time : float64;
  distance : float64;
  actual_distance : float64;
  planned_distance : float64;
  fuel_consumption : float64;
  route_id : string;
  stop_count : float64
}.

(** [efficiency_parameters]: a mapping in which either key may be absent. *)
Record Parameters : Type := {
  target_on_time : option float64;
  target_utilization : option float64
}.

Record DeliveryStats : Type := {
  avg_delivery_time : float64;
  std_delivery_time : float64;
  on_time_percentage : float64
}.

Record RouteEfficiency : Type := {
  avg_distance_per_delivery : float64;
  avg_stops_per_route : list (string * float64);
  distance_utilization : float64
}.

Record EfficiencyScore : Type := {
  delivery_statistics : DeliveryStats;
  route_efficiency : RouteEfficiency;
  overall_efficiency_score : float64;
  recommendations : list string
}.

Definition of_bool (b : bool) : float64 := if b then Fin 1 else Fin 0.

Definition delivery_stats (delivery_data : list DeliveryRecord)
  : DeliveryStats :=
  {| avg_delivery_time := pd_mean (map delivery_time delivery_data);
     std_delivery_time := pd_std (map delivery_time delivery_data);
     on_time_percentage :=
       fmul (pd_mean (map (fun r => of_bool (fleb (actual_time r)
                                                  (planned_time r)))
                          delivery_data))
            (Fin 100) |}.

Definition route_efficiency_of (delivery_data : list DeliveryRecord)
  : RouteEfficiency :=
  {| avg_distance_per_delivery := pd_mean (map distance delivery_data);
     avg_stops_per_route :=
       map (fun g => (fst g, pd_mean (snd g)))
           (groupby String.eqb String.ltb
              (map (fun r => (route_id r, stop_count r)) delivery_data));
     distance_utilization :=
       fmul (pd_mean (map (fun r => fdiv (actual_distance r)
                                         (planned_distance r))
                          delivery_data))
            (Fin 100) |}.

(** The [scores] frame: one z-scored column per feature. *)
Definition scores (delivery_data : list DeliveryRecord)
  : list (string * list float64) :=
  [("delivery_time_score"%string, zscore (map delivery_time delivery_data));
   ("distance_score"%string, zscore (map distance delivery_data));
   ("fuel_efficiency_score"%string,
     zscore (map fuel_consumption delivery_data))].

(** [DataFrame.mean()]: the mean of every column, as a Series. *)
Definition frame_mean (frame : list (string * list float64)) : list float64 :=
  map (fun c => pd_mean (snd c)) frame.

(** An element of a Python list handed to numpy: a scalar, or a pandas
    Series (a sequence). *)
Inductive pyobj : Type :=
| Scalar (x : float64)
| SeriesObj (xs : list float64).

(** [(1 - abs(scores.mean()))], a Series with one entry per feature. *)
Definition feature_term (delivery_data : list DeliveryRecord) : list float64 :=
  map (fun m => fsub (Fin 1) (fabs m)) (frame_mean (scores delivery_data)).

(** The list averaged by [np.mean]. *)
Definition efficiency_terms (ds : DeliveryStats) (re : RouteEfficiency)
  (delivery_data : list DeliveryRecord) : list pyobj :=
  [Scalar (fdiv (on_time_percentage ds) (Fin 100));
   Scalar (fdiv (distance_utilization re) (Fin 100));
   SeriesObj (feature_term delivery_data)].

Fixpoint all_scalars (l : list pyobj) : option (list float64) :=
  match l with
  | [] => Some []
  | Scalar x :: rest => option_map (cons x) (all_scalars rest)
  | SeriesObj _ :: _ => None
  end.

Fixpoint all_series (n : nat) (l : list pyobj) : option (list float64) :=
  match l with
  | [] => Some []
  | SeriesObj xs :: rest =>
      if (length xs =? n)%nat
      then option_map (app xs) (all_series n rest)
      else None
  | Scalar _ :: _ => None
  end.

(** [np.mean(list)]: the list is first converted to an array, which needs
    entries of one shape; a list mixing scalars and sequences is refused
    ("setting an array element with a sequence ... inhomogeneous shape"). *)
Definition np_mean_list (l : list pyobj) : cause + float64 :=
  match all_scalars l with
  | Some xs => inr (np_mean xs)
  | None =>
      match l with
      | SeriesObj xs :: _ =>
          match all_series (length xs) l with
          | Some ys => inr (np_mean ys)
          | None => inl InhomogeneousShape
          end
      | _ => inl InhomogeneousShape
      end
  end.

Definition default (d : float64) (o : option float64) : float64 :=
  match o with Some x => x | None => d end.

Definition _generate_efficiency_recommendations (ds : DeliveryStats)
  (re : RouteEfficiency) (parameters : Parameters) : list string :=
  (if fltb (on_time_percentage ds) (default (Fin 95) (target_on_time parameters))
   then ["Improve on-time delivery performance through better route optimization"%string]
   else [])
  ++
  (if fltb (distance_utilization re)
           (default (Fin 90) (target_utilization parameters))
   then ["Optimize route planning to reduce excess distance traveled"%string]
   else []).

Definition analyze_delivery_efficiency (delivery_data : list DeliveryRecord)
  (efficiency_parameters : Parameters) : result EfficiencyScore :=
  let ds := delivery_stats delivery_data in
  let re := route_efficiency_of delivery_data in
  match np_mean_list (efficiency_terms ds re delivery_data) with
  | inl e => ValueError "Error analyzing delivery efficiency" e
  | inr overall_efficiency =>
      Ok {| delivery_statistics := ds;
            route_efficiency := re;
            overall_efficiency_score :=
              round2 (fmul overall_efficiency (Fin 100));
            recommendations :=
              _generate_efficiency_recommendations ds re
                efficiency_parameters |}
  end.

End Efficiency.

(** ** Reference definitions, worded as the specification words them *)

Module Reference.

(** The names of the columns whose absolute z-score at row [i] exceeds the
    threshold, in column order. *)
Definition exceeding_columns (df : Anomaly.DataFrame) (threshold : float64)
  (i : nat) : list string :=
  map fst
    (filter (fun c => fgtb (fabs (nth i (zscore (snd c)) NaN)) threshold)
            (Anomaly.numeric_cols df)).

(** The z-score as the glossary has it, [(x - mean) / std] against the
    whole column, with nothing special done for a constant column. *)
Definition plain_zscore (a : list float64) : list float64 :=
  map (fun x => fdiv (fsub x (np_mean a)) (np_std a)) a.

(** Row [i] is flagged: some column exceeds the threshold there. *)
Definition flagged (df : Anomaly.DataFrame) (t : float64) (i : nat) : bool :=
  Anomaly.any_above (Anomaly.z_row (Anomaly.z_scores df) i) t.

(** Some row of the table is flagged. *)
Definition some_flagged (df : Anomaly.DataFrame) (t : float64) : Prop :=
  exists i, (i < Anomaly.n_rows df)%nat /\ flagged df t i = true.

Definition labelled_by_exceeding (df : Anomaly.DataFrame) (t : float64)
  (r : Anomaly.AnomalyRecord) : Prop :=
  Anomaly.anomaly_type r =
    ("Anomaly in: "
       ++ String.concat ", " (exceeding_columns df t (Anomaly.row_index r)))%string
  /\ exceeding_columns df t (Anomaly.row_index r) <> []
  /\ Anomaly.anomaly_type r <> "Normal"%string.

(** A frame with a constant column among its numeric columns, and the same
    frame without it. *)
Definition without_column (n : nat) (pre post : list (string * list float64))
  : Anomaly.DataFrame :=
  {| Anomaly.n_rows := n; Anomaly.numeric_cols := pre ++ post |}.

Definition with_constant_column (n : nat)
  (pre post : list (string * list float64)) (name : string) (x : float64)
  : Anomaly.DataFrame :=
  {| Anomaly.n_rows := n;
     Anomaly.numeric_cols := pre ++ (name, repeat x n) :: post |}.

(** A result whose records all carry a vehicle: the rows of the frame
    the derivation worked on, as opposed to the rows of a rebuilt frame. *)
Definition identified (out : list Kinematics.DerivedSample) : Prop :=
  Forall (fun r => Kinematics.d_vehicle_id r <> None) out.


(** The closed enumerations of the aggregation contract. *)
Inductive AggregationPeriod : Type := HOURLY | DAILY | WEEKLY | MONTHLY.

Definition period_code (p : AggregationPeriod) : string :=
  match p with
  | HOURLY => "1H"
  | DAILY => "1D"
  | WEEKLY => "1W"
  | MONTHLY => "1M"
  end.

Definition recognized_metric_types : list string :=
  ["vehicle_speed"; "distance_covered"; "fuel_consumption"; "idle_time";
   "delivery_time"]%string.

Definition recognized (metric_type aggregation_period : string) : Prop :=
  In metric_type recognized_metric_types
  /\ exists p, aggregation_period = period_code p.

(** A rejection of the arguments, as opposed to any other failure. *)
Definition is_validation_error {A} (r : result A) : bool :=
  match r with
  | ValueError _ (InvalidMetricType _) => true
  | ValueError _ (InvalidAggregationPeriod _) => true
  | _ => false
  end.

(** The rejection a pair of arguments earns, whatever the data. *)
Definition rejection (metric_type aggregation_period : string)
  : result Fleet.FleetMetrics :=
  if negb (Fleet.is_in metric_type (Fleet.values Fleet.METRIC_TYPES))
  then ValueError Fleet.where_fleet (InvalidMetricType metric_type)
  else ValueError Fleet.where_fleet
                  (InvalidAggregationPeriod aggregation_period).

(** The per-vehicle groups of bucket [b], in group order. *)
Definition vehicle_groups (b : Z)
  (groups : list ((Z * string) * list float64)) : list (list float64) :=
  map snd (filter (fun g => Z.eqb b (fst (fst g))) groups).

(** A bucket-level statistic is the two-level rollup [outer] of [inner]:
    a bucket is reported when it has a vehicle group, with [outer] applied
    to the [inner] statistics of its vehicle groups. *)
Definition rolled_up (inner outer : list float64 -> float64)
  (groups : list ((Z * string) * list float64))
  (stat : list (Z * float64)) : Prop :=
  forall b y,
    In (b, y) stat <->
    vehicle_groups b groups <> []
    /\ y = outer (map inner (vehicle_groups b groups)).

(** The vehicle-level groups partition the rows by (bucket, vehicle). *)
Definition partitions (rows : list ((Z * string) * float64))
  (groups : list ((Z * string) * list float64)) : Prop :=
  NoDup (map fst groups)
  /\ forall k vs,
       In (k, vs) groups <->
       vs = values_of Fleet.key_eqb k rows /\ vs <> [].

(** Standard deviation of [n] finite values with variance denominator
    [n - ddof]. *)
Definition sum_sq_dev (xs : list R) : R :=
  let mu := Rsum xs / INR (length xs) in
  Rsum (map (fun x => (x - mu) * (x - mu)) xs).

Definition sample_std (xs : list R) : float64 :=
  if (length xs <=? 1)%nat then NaN
  else Fin (sqrt (sum_sq_dev xs / (INR (length xs) - 1))).

Definition population_std (xs : list R) : float64 :=
  match xs with
  | [] => NaN
  | _ => Fin (sqrt (sum_sq_dev xs / INR (length xs)))
  end.

(** The raw efficiency formula:
    [100 * mean([on_time_percentage/100, distance_utilization_pct/100,
    feature])]. *)
Definition raw_formula (on_time_percentage distance_utilization_pct
  feature : float64) : float64 :=
  fmul (Fin 100)
       (np_mean [fdiv on_time_percentage (Fin 100);
                 fdiv distance_utilization_pct (Fin 100);
                 feature]).

(** A score within [0, 100]. *)
Definition in_range (x : float64) : Prop :=
  exists s, x = Fin s /\ 0 <= s <= 100.

End Reference.

(** ** Concrete inputs *)

Module Examples.

(** Three vehicles reporting one speed each within the same day. *)
Definition three_vehicles : Fleet.FleetFrame :=
  {| Fleet.f_timestamp := [0; 1; 2]%Z;
     Fleet.f_vehicle_id := ["a"; "b"; "c"]%string;
     Fleet.f_columns := [("vehicle_speed"%string, [Fin 1; Fin 2; Fin 6])] |}.

(** One vehicle reporting three speeds within the same day. *)
Definition one_vehicle : Fleet.FleetFrame :=
  {| Fleet.f_timestamp := [0; 1; 2]%Z;
     Fleet.f_vehicle_id := ["a"; "a"; "a"]%string;
     Fleet.f_columns := [("vehicle_speed"%string, [Fin 0; Fin 3; Fin 6])] |}.

(** A table whose only column holds 0 and 2. *)
Definition two_speeds : Anomaly.DataFrame :=
  {| Anomaly.n_rows := 2;
     Anomaly.numeric_cols := [("speed"%string, [Fin 0; Fin 2])] |}.

(** A table with one constant column. *)
Definition constant_table : Anomaly.DataFrame :=
  {| Anomaly.n_rows := 2;
     Anomaly.numeric_cols := [("speed"%string, [Fin 5; Fin 5])] |}.

Definition fix_ (v : string) (t : Z) (lat lon : R) : Kinematics.LocationSample :=
  {| Kinematics.vehicle_id := v;
     Kinematics.timestamp := t;
     Kinematics.latitude := Fin lat;
     Kinematics.longitude := Fin lon |}.

(** Two vehicles with one location sample each. *)
Definition two_lone_vehicles : list Kinematics.LocationSample :=
  [fix_ "a" 0 0 0; fix_ "b" 1000000000 1 1].

(** A vehicle with one sample next to a vehicle with two. *)
Definition lone_and_pair : list Kinematics.LocationSample :=
  [fix_ "a" 0 0 0; fix_ "b" 1000000000 0 0; fix_ "b" 2000000000 1 0].

(** One vehicle moving one degree north in one hour. *)
Definition one_hour_north : list Kinematics.LocationSample :=
  [fix_ "a" 0 0 0; fix_ "a" 3600000000000 1 0].

(** One vehicle seen twice at the same instant. *)
Definition same_instant : list Kinematics.LocationSample :=
  [fix_ "a" 0 0 0; fix_ "a" 0 1 0].

Definition options (remove : option bool) (threshold : option float64)
  : Kinematics.CalcOptions :=
  {| Kinematics.remove_outliers := remove;
     Kinematics.outlier_z_threshold := threshold |}.

Definition delivery (delivery_time actual_time planned_time distance
  actual_distance planned_distance fuel_consumption : R) (route_id : string)
  (stop_count : R) : Efficiency.DeliveryRecord :=
  {| Efficiency.delivery_time := Fin delivery_time;
     Efficiency.actual_time := Fin actual_time;
     Efficiency.planned_time := Fin planned_time;
     Efficiency.distance := Fin distance;
     Efficiency.actual_distance := Fin actual_distance;
     Efficiency.planned_distance := Fin planned_distance;
     Efficiency.fuel_consumption := Fin fuel_consumption;
     Efficiency.route_id := route_id;
     Efficiency.stop_count := Fin stop_count |}.

(** Two deliveries, both on time, each driven ten times the planned
    distance. *)
Definition far_off_plan : list Efficiency.DeliveryRecord :=
  [delivery 0 1 1 0 10 1 0 "r" 1; delivery 2 1 1 2 10 1 2 "r" 1].

(** The same two deliveries driven exactly as planned. *)
Definition on_plan : list Efficiency.DeliveryRecord :=
  [delivery 0 1 1 0 1 1 0 "r" 1; delivery 2 1 1 2 1 1 2 "r" 1].

Definition no_targets : Efficiency.Parameters :=
  {| Efficiency.target_on_time := None;
     Efficiency.target_utilization := None |}.

End Examples.

From Stdlib Require Import Sorted.

(** ** Further reference definitions *)

Module Reference2.




(** A batch all of whose samples come from one vehicle. *)
Definition single_vehicle (data : list Kinematics.LocationSample) : Prop :=
  exists v, Forall (fun s => Kinematics.vehicle_id s = v) data.

(** A batch the distance assignment accepts. *)
Definition assignable (data : list Kinematics.LocationSample) : Prop :=
  (length data <= 2)%nat \/ single_vehicle data.

(** A sample whose coordinates are numbers. *)
Definition finite_position (s : Kinematics.LocationSample) : Prop :=
  exists lat lon,
    Kinematics.latitude s = Fin lat /\ Kinematics.longitude s = Fin lon.

(** A number that is not negative. *)
Definition nonneg (x : float64) : Prop := exists r, x = Fin r /\ 0 <= r.

(** Options with outlier removal switched off. *)
Definition unfiltered (threshold : option float64) : Kinematics.CalcOptions :=
  {| Kinematics.remove_outliers := Some false;
     Kinematics.outlier_z_threshold := threshold |}.

(** A cell that holds a number. *)
Definition is_number (x : float64) : Prop := exists r, x = Fin r.

(** The buckets a statistic reports, in the order of the report. *)
Definition buckets {A} (stat : list (Z * A)) : list Z := map fst stat.

(** The values of the metric on the rows of bucket [b], in row order. *)
Definition bucket_values (b : Z) (rows : list ((Z * string) * float64))
  : list float64 :=
  map snd (filter (fun r => Z.eqb b (fst (fst r))) rows).

(** A number within [lo, hi]. *)
Definition between (lo hi : R) (x : float64) : Prop :=
  exists r, x = Fin r /\ lo <= r <= hi.

(** A delivery made on time over exactly the planned distance. *)
Definition as_planned (r : Efficiency.DeliveryRecord) : Prop :=
  fleb (Efficiency.actual_time r) (Efficiency.planned_time r) = true
  /\ exists d, d <> 0 /\ Efficiency.actual_distance r = Fin d
                /\ Efficiency.planned_distance r = Fin d.

(** A target that, when given, is not above 100. *)
Definition at_most_100 (target : option float64) : Prop :=
  forall t, target = Some t -> fltb (Fin 100) t = false.

(** A column in other units: every cell scaled by [a] and moved by [b]. *)
Definition rescale (a b : R) (col : list float64) : list float64 :=
  map (fun x => fadd (fmul (Fin a) x) (Fin b)) col.

(** Two lists of numeric columns that hold the same measurements, column
    by column, in possibly different units. *)
Definition same_up_to_units (cols cols' : list (string * list float64))
  : Prop :=
  Forall2 (fun c c' =>
             fst c' = fst c
             /\ Forall is_number (snd c)
             /\ exists a b, 0 < a /\ snd c' = rescale a b (snd c))
          cols cols'.

(** What a result says about the rows: label, confidence and category of
    every record, or the error. *)
Definition verdicts (r : result (list Anomaly.AnomalyRecord))
  : result (list (nat * float64 * string)) :=
  match r with
  | Ok out =>
      Ok (map (fun a => (Anomaly.row_index a, Anomaly.confidence_score a,
                         Anomaly.anomaly_type a)) out)
  | ValueError where_ e => ValueError where_ e
  end.

(** A sample moved by [dlat] degrees of latitude and [dlon] degrees of
    longitude. *)
Definition moved (dlat dlon : R) (s : Kinematics.LocationSample)
  : Kinematics.LocationSample :=
  {| Kinematics.vehicle_id := Kinematics.vehicle_id s;
     Kinematics.timestamp := Kinematics.timestamp s;
     Kinematics.latitude := fadd (Kinematics.latitude s) (Fin dlat);
     Kinematics.longitude := fadd (Kinematics.longitude s) (Fin dlon) |}.

End Reference2.


(** ** AnalyticsModel.get_fleet_performance

    Embedding of [services/analytics/models/analyticsModel.py],
    [get_fleet_performance], over the documents of the metrics collection
    whose [timestamp] is a date and whose [data.value] is a number; a
    failure of the database itself is not modelled. *)

Module Performance.

(** A document of the metrics collection, as [store_metric] writes it;
    [doc_timestamp] counts milliseconds. *)
Record MetricDocument : Type := {
  doc_metric_type : string;
  doc_timestamp : Z;
  doc_value : R
}.

(** [time_range]: a mapping read with [.get('start')] and [.get('end')];
    an absent key reads as [None]. *)
Record TimeRange : Type := {
  range_start : option Z;
  range_end : option Z
}.

Record PerformanceEntry : Type := {
  average : float64;
  maximum : float64;
  minimum : float64;
  standard_deviation : float64;
  sample_size : nat
}.

(** [{'timestamp': {'$gte': start, '$lte': end}}]; a bound that is [None]
    is compared as null, which no date matches. *)
Definition in_window (time_range : TimeRange) (t : Z) : bool :=
  match range_start time_range, range_end time_range with
  | Some s, Some e => (s <=? t)%Z && (t <=? e)%Z
  | _, _ => false
  end.

(** The [$match] stage. *)
Definition matches (time_range : TimeRange) (metrics_to_include : list string)
  (d : MetricDocument) : bool :=
  in_window time_range (doc_timestamp d)
  && Fleet.is_in (doc_metric_type d) metrics_to_include.

(** The [$group] stage: the values of the matching documents per metric
    type.  The order of the groups is not specified by the database; here
    they come in the order in which their first document is met. *)
Definition group_by_metric_type (docs : list MetricDocument)
  : list (string * list R) :=
  collect String.eqb (map (fun d => (doc_metric_type d, doc_value d)) docs).

(** [$avg], [$max] and [$min] of the values of a group. *)
Definition avg_value (vs : list R) : R := Rsum vs / INR (length vs).

Definition max_value (vs : list R) : R :=
  match vs with
  | [] => 0
  | v :: rest => fold_left Rmax rest v
  end.

Definition min_value (vs : list R) : R :=
  match vs with
  | [] => 0
  | v :: rest => fold_left Rmin rest v
  end.

Definition entry_of (vs : list R) : PerformanceEntry :=
  {| average := round2 (Fin (avg_value vs));
     maximum := Fin (max_value vs);
     minimum := Fin (min_value vs);
     standard_deviation :=
       Fleet.fleet_performance_standard_deviation (map Fin vs);
     sample_size := length vs |}.

(** [performance_data], as the list of its items. *)
Definition get_fleet_performance (collection : list MetricDocument)
  (time_range : TimeRange) (metrics_to_include : list string)
  : list (string * PerformanceEntry) :=
  map (fun g => (fst g, entry_of (snd g)))
      (group_by_metric_type
         (filter (matches time_range metrics_to_include) collection)).

End Performance.

(** ** The analytics endpoints

    Embedding of [services/analytics/controllers/analyticsController.py]:
    the decorator [handle_exceptions] and the four endpoints it wraps.  What
    an endpoint reaches outside the module (the parsing of dates, the
    queries of the analytics model, the report generator, the assembling of
    the response) is a parameter of the embedding; each may return or
    raise. *)

Module Controller.

(** What an endpoint raises: an [HTTPException], the [ValueError] of one
    of the analytics functions, or any other exception. *)
Inductive exn : Type :=
| HTTPException (status_code : nat) (detail : string)
| AnalyticsError (where_ : string) (e : cause)
| OtherException (message : string).

Inductive outcome (A : Type) : Type :=
| Returned (a : A)
| Raised (e : exn).
Arguments Returned {A} a.
Arguments Raised {A} e.

Definition of_result {A} (r : result A) : outcome A :=
  match r with
  | Ok a => Returned a
  | ValueError where_ e => Raised (AnalyticsError where_ e)
  end.

(** The status a client sees for a failed call. *)
Definition status_of {A} (r : outcome A) : option nat :=
  match r with
  | Raised (HTTPException status_code _) => Some status_code
  | _ => None
  end.

Definition returns {A} (r : outcome A) : bool :=
  match r with Returned _ => true | Raised _ => false end.

(** [time_range] as the endpoints receive it: a mapping of strings. *)
Record RawTimeRange : Type := {
  raw_start : option string;
  raw_end : option string
}.

(** The [time_range] argument handed to the analytics model: the mapping
    of the two parsed dates, or the mapping received, as it is. *)
Inductive time_range_arg : Type :=
| Parsed (start_time end_time : Z)
| Unparsed (time_range : option RawTimeRange).

(** [report_parameters]: a mapping in which either key may be absent. *)
Record ReportParameters : Type := {
  rp_time_range : option RawTimeRange;
  rp_metrics : option (list string)
}.

Definition default_metrics : list string :=
  ["speed"; "distance"; "fuel_consumption"; "idle_time"]%string.

Definition valid_report_types : list string :=
  ["fleet_performance"; "delivery_efficiency"; "resource_utilization"]%string.

Section Endpoints.

Context {Response Frame Report : Type}.

(** [str(e)] *)
Variable str : exn -> string.

(** [datetime.fromisoformat], in milliseconds; [None] stands for the
    [ValueError] or [TypeError] it raises. *)
Variable fromisoformat : option string -> option Z.

(** [analytics_model.get_fleet_performance] and
    [analytics_model.get_metrics_by_vehicle]. *)
Variable get_fleet_performance :
  time_range_arg -> list string ->
  outcome (list (string * Performance.PerformanceEntry)).
Variable get_metrics_by_vehicle :
  string -> time_range_arg -> list string -> outcome Frame.

(** The rows the analytics functions read from a frame, or the name of a
    column they look for and the frame lacks. *)
Variable location_rows : Frame -> string + list Kinematics.LocationSample.
Variable delivery_rows : Frame -> string + list Efficiency.DeliveryRecord.

(** [pd.DataFrame(fleet_performance)] *)
Variable frame_of_performance :
  list (string * Performance.PerformanceEntry) -> Fleet.FleetFrame.

(** [generate_performance_report] *)
Variable generate_performance_report :
  list (string * Performance.PerformanceEntry) -> string -> result Report.

(** The assembling of the responses. *)
Variable fleet_response :
  Z -> Z -> list (string * Performance.PerformanceEntry) ->
  Fleet.FleetMetrics -> outcome Response.
Variable vehicle_response :
  string -> Z -> Z -> list Kinematics.DerivedSample -> outcome Response.
Variable delivery_response :
  RawTimeRange -> Efficiency.EfficiencyScore -> Frame -> outcome Response.
Variable report_response :
  string -> ReportParameters -> Report -> nat -> outcome Response.

(** [try: return await func(...) except Exception as e: raise
    HTTPException(status_code=500, ...)]; an [HTTPException] is an
    [Exception]. *)
Definition handle_exceptions {A} (r : outcome A) : outcome A :=
  match r with
  | Returned a => Returned a
  | Raised e =>
      Raised (HTTPException 500
                ("Analytics operation failed: " ++ str e)%string)
  end.

(** The validation of the time range shared by two endpoints. *)
Definition parse_time_range (time_range : RawTimeRange) : outcome (Z * Z) :=
  match fromisoformat (raw_start time_range) with
  | None => Raised (HTTPException 400 "Invalid time range format")
  | Some start_time =>
      match fromisoformat (raw_end time_range) with
      | None => Raised (HTTPException 400 "Invalid time range format")
      | Some end_time => Returned (start_time, end_time)
      end
  end.

Definition fleet_body (time_range : RawTimeRange)
  (metrics : option (list string)) : outcome Response :=
  match parse_time_range time_range with
  | Raised e => Raised e
  | Returned (start_time, end_time) =>
      (* if not metrics *)
      let metrics :=
        match metrics with
        | Some (m :: ms) => m :: ms
        | _ => default_metrics
        end in
      match get_fleet_performance (Parsed start_time end_time) metrics with
      | Raised e => Raised e
      | Returned fleet_performance =>
          match of_result (Fleet.calculate_fleet_metrics
                             (frame_of_performance fleet_performance)
                             "performance" "1D") with
          | Raised e => Raised e
          | Returned fleet_metrics =>
              fleet_response start_time end_time fleet_performance
                fleet_metrics
          end
      end
  end.

Definition get_fleet_analytics (time_range : RawTimeRange)
  (metrics : option (list string)) : outcome Response :=
  handle_exceptions (fleet_body time_range metrics).

Definition vehicle_body (vehicle_id : string) (time_range : RawTimeRange)
  : outcome Response :=
  match parse_time_range time_range with
  | Raised e => Raised e
  | Returned (start_time, end_time) =>
      match get_metrics_by_vehicle vehicle_id (Parsed start_time end_time)
              ["speed"; "distance"; "fuel"; "idle_time"]%string with
      | Raised e => Raised e
      | Returned vehicle_metrics =>
          match location_rows vehicle_metrics with
          | inl column =>
              Raised (AnalyticsError "Error processing location data"
                        (KeyError column))
          | inr rows =>
              match of_result (Kinematics.process_location_data rows
                                 {| Kinematics.remove_outliers := Some true;
                                    Kinematics.outlier_z_threshold := None |})
              with
              | Raised e => Raised e
              | Returned processed_data =>
                  vehicle_response vehicle_id start_time end_time
                    processed_data
              end
          end
      end
  end.

Definition get_vehicle_analytics (vehicle_id : string)
  (time_range : RawTimeRange) : outcome Response :=
  handle_exceptions (vehicle_body vehicle_id time_range).

(** [all(key in efficiency_parameters for key in [...])] *)
Definition has_targets (p : Efficiency.Parameters) : bool :=
  match Efficiency.target_on_time p, Efficiency.target_utilization p with
  | Some _, Some _ => true
  | _, _ => false
  end.

Definition delivery_body (time_range : RawTimeRange)
  (efficiency_parameters : Efficiency.Parameters) : outcome Response :=
  if negb (has_targets efficiency_parameters) then
    Raised (HTTPException 400 "Missing required efficiency parameters")
  else
    match get_metrics_by_vehicle "all" (Unparsed (Some time_range))
            ["delivery_time"; "distance"; "fuel_consumption"]%string with
    | Raised e => Raised e
    | Returned delivery_metrics =>
        match delivery_rows delivery_metrics with
        | inl column =>
            Raised (AnalyticsError "Error analyzing delivery efficiency"
                      (KeyError column))
        | inr rows =>
            match of_result (Efficiency.analyze_delivery_efficiency rows
                               efficiency_parameters) with
            | Raised e => Raised e
            | Returned efficiency_analysis =>
                delivery_response time_range efficiency_analysis
                  delivery_metrics
            end
        end
    end.

Definition get_delivery_analytics (time_range : RawTimeRange)
  (efficiency_parameters : Efficiency.Parameters) : outcome Response :=
  handle_exceptions (delivery_body time_range efficiency_parameters).

Definition report_body (report_type : string)
  (report_parameters : ReportParameters) : outcome Response :=
  if negb (Fleet.is_in report_type valid_report_types) then
    Raised (HTTPException 400
              "Invalid report type. Must be one of: ['fleet_performance', 'delivery_efficiency', 'resource_utilization']")
  else
    match get_fleet_performance
            (Unparsed (rp_time_range report_parameters))
            (match rp_metrics report_parameters with
             | Some ms => ms
             | None => []
             end) with
    | Raised e => Raised e
    | Returned metrics_data =>
        match of_result (generate_performance_report metrics_data
                           report_type) with
        | Raised e => Raised e
        | Returned report =>
            report_response report_type report_parameters report
              (length metrics_data)
        end
    end.

Definition generate_analytics_report (report_type : string)
  (report_parameters : ReportParameters) : outcome Response :=
  handle_exceptions (report_body report_type report_parameters).

End Endpoints.

End Controller.

(** ** generate_performance_report: indicators and recommendations

    Embedding of the indicator stage of [generate_performance_report]
    (the [kpis] dictionary) and of [_generate_performance_recommendations],
    over the columns of [metrics_data] that the stage reads. *)

Module Indicators.







End Indicators.

(** ** Reference definitions for the services *)

Module ServiceReference.

(** The values of the documents of one metric type that the query
    matches, in the order of the collection. *)
Definition matching_values (collection : list Performance.MetricDocument)
  (time_range : Performance.TimeRange) (metrics_to_include : list string)
  (metric_type : string) : list R :=
  map Performance.doc_value
      (filter (fun d =>
                 Performance.matches time_range metrics_to_include d
                 && String.eqb metric_type (Performance.doc_metric_type d))
              collection).

(** A call that failed with status 500. *)
Definition fails_with_500 {A} (r : Controller.outcome A) : Prop :=
  exists detail, r = Controller.Raised (Controller.HTTPException 500 detail).

(** Two speed readings and one reading of another metric. *)
Definition three_readings : list Performance.MetricDocument :=
  [ {| Performance.doc_metric_type := "speed";
       Performance.doc_timestamp := 1; Performance.doc_value := 1 |};
    {| Performance.doc_metric_type := "fuel";
       Performance.doc_timestamp := 2; Performance.doc_value := 7 |};
    {| Performance.doc_metric_type := "speed";
       Performance.doc_timestamp := 3; Performance.doc_value := 3 |} ].

Definition first_five : Performance.TimeRange :=
  {| Performance.range_start := Some 0%Z;
     Performance.range_end := Some 5%Z |}.



End ServiceReference.
(** * Properties *)

(** ** Evaluation of the decisions on reals *)

Lemma Rltb_true (a b : R) : a < b -> Rltb a b = true.
Proof. intros H. unfold Rltb. destruct (Rlt_dec a b); [reflexivity|lra]. Qed.

Lemma Rltb_false (a b : R) : b <= a -> Rltb a b = false.
Proof. intros H. unfold Rltb. destruct (Rlt_dec a b); [lra|reflexivity]. Qed.

Lemma Rleb_true (a b : R) : a <= b -> Rleb a b = true.
Proof. intros H. unfold Rleb. destruct (Rle_dec a b); [reflexivity|lra]. Qed.

Lemma Rleb_false (a b : R) : b < a -> Rleb a b = false.
Proof. intros H. unfold Rleb. destruct (Rle_dec a b); [lra|reflexivity]. Qed.

Lemma Reqb_true (a b : R) : a = b -> Reqb a b = true.
Proof. intros H. unfold Reqb. destruct (Req_dec_T a b); [reflexivity|lra]. Qed.

Lemma Reqb_false (a b : R) : a <> b -> Reqb a b = false.
Proof.
  intros H. unfold Reqb. destruct (Req_dec_T a b); [contradiction|reflexivity].
Qed.

(** Decide every comparison of the goal whose outcome [lra] can settle. *)
Ltac rbool_step :=
  match goal with
  | |- context [Rltb ?a ?b] =>
      first [rewrite (Rltb_true a b) by lra | rewrite (Rltb_false a b) by lra]
  | |- context [Rleb ?a ?b] =>
      first [rewrite (Rleb_true a b) by lra | rewrite (Rleb_false a b) by lra]
  | |- context [Reqb ?a ?b] =>
      first [rewrite (Reqb_true a b) by lra | rewrite (Reqb_false a b) by lra]
  end.

Ltac reval := repeat (cbn; rbool_step); cbn.

Section FloatFacts.

Lemma feqb_refl (x : float64) : isnan x = false -> feqb x x = true.
Proof.
  destruct x; simpl; try congruence; intros _.
  now apply Reqb_true.
Qed.

Lemma fgtb_nan_l (t : float64) : fgtb NaN t = false.
Proof. destruct t; reflexivity. Qed.

Lemma fltb_nan_l (t : float64) : fltb NaN t = false.
Proof. reflexivity. Qed.

Lemma map_const_repeat {A B} (b : B) (l : list A) :
  map (fun _ => b) l = repeat b (length l).
Proof. induction l; simpl; congruence. Qed.

Lemma isconst_repeat (x : float64) (n : nat) :
  isnan x = false -> isconst (repeat x n) = true.
Proof.
  intros Hx. destruct n as [|n]; [reflexivity|].
  simpl. rewrite (feqb_refl x Hx). simpl.
  induction n as [|n IH]; simpl; [reflexivity|].
  now rewrite (feqb_refl x Hx).
Qed.

Lemma zscore_length (a : list float64) : length (zscore a) = length a.
Proof.
  unfold zscore. destruct (isconst a); now rewrite ?length_map.
Qed.

Lemma zscore_repeat (x : float64) (n : nat) :
  zscore (repeat x n) = repeat NaN n.
Proof.
  unfold zscore.
  destruct (isconst (repeat x n)) eqn:Hc.
  - now rewrite map_const_repeat, length_map, repeat_length.
  - destruct x; try (rewrite isconst_repeat in Hc by reflexivity; discriminate).
    clear Hc.
    generalize (np_mean (repeat NaN n)) (np_std (repeat NaN n)).
    intros mn sd. induction n as [|n IH]; simpl; [reflexivity|].
    f_equal. exact IH.
Qed.

End FloatFacts.

(** ** The anomaly detector *)

Module AnomalyFacts.
Import Anomaly Reference.

Lemma cell_map_fabs (i : nat) (l : list float64) :
  cell i (map fabs l) = fabs (cell i l).
Proof. unfold cell. now rewrite <- (map_nth fabs). Qed.

Lemma filter_map_comm {A B} (f : A -> B) (p : B -> bool) (l : list A) :
  filter p (map f l) = map f (filter (fun a => p (f a)) l).
Proof.
  induction l as [|a l IH]; simpl; [reflexivity|].
  destruct (p (f a)); simpl; now rewrite IH.
Qed.

(** The names listed by the categorisation pass are the columns that
    exceed the threshold at that row. *)
Lemma affected_metrics_exceeding (df : DataFrame) (t : float64) (i : nat) :
  affected_metrics (z_row (z_scores df) i) t = exceeding_columns df t i.
Proof.
  unfold affected_metrics, z_row, z_scores, exceeding_columns.
  rewrite map_map, filter_map_comm, map_map. simpl.
  rewrite (filter_ext _ (fun c => fgtb (fabs (nth i (zscore (snd c)) NaN)) t)).
  - apply map_ext. reflexivity.
  - intros c. now rewrite cell_map_fabs.
Qed.

Lemma any_above_affected (row : list (string * float64)) (t : float64) :
  any_above row t = negb (match affected_metrics row t with [] => true | _ => false end).
Proof.
  unfold any_above, affected_metrics.
  induction row as [|c row IH]; simpl; [reflexivity|].
  destruct (fgtb (snd c) t); simpl; [reflexivity|exact IH].
Qed.

Lemma nth_categories (zs : list (string * list float64)) (n i : nat)
  (t : float64) :
  (i < n)%nat ->
  nth i (_categorize_anomalies zs n t) ""%string = categorize_row (z_row zs i) t.
Proof.
  intros Hi. unfold _categorize_anomalies.
  rewrite (nth_indep _ ""%string (categorize_row (z_row zs 0) t))
    by now rewrite length_map, length_seq.
  rewrite (map_nth (fun i => categorize_row (z_row zs i) t)).
  now rewrite seq_nth.
Qed.

(** A flagged row lies in a table that has a numeric column. *)
Lemma flagged_has_columns (df : DataFrame) (t : float64) (i : nat) :
  flagged df t i = true -> numeric_cols df <> [].
Proof.
  unfold flagged, z_scores. intros H E. rewrite E in H. discriminate.
Qed.

Lemma some_flagged_filter (df : DataFrame) (t : float64) :
  some_flagged df t <-> filter (flagged df t) (seq 0 (n_rows df)) <> [].
Proof.
  split.
  - intros [i [Hi Hf]] E.
    assert (Hin : In i (filter (flagged df t) (seq 0 (n_rows df)))).
    { apply filter_In. split; [apply in_seq; lia|exact Hf]. }
    rewrite E in Hin. contradiction.
  - intros H. destruct (filter _ _) as [|i l] eqn:E; [congruence|].
    assert (Hin : In i (filter (flagged df t) (seq 0 (n_rows df))))
      by (rewrite E; now left).
    apply filter_In in Hin. destruct Hin as [Hi Hf]. apply in_seq in Hi.
    exists i. split; [lia|exact Hf].
Qed.

(** The records returned on success, spelled out: the selected rows, or,
    when no row is selected, every row of the rebuilt frame. *)
Lemma detect_anomalies_ok (df : DataFrame) (t : float64) :
  numeric_cols df <> [] \/ n_rows df = O ->
  detect_anomalies df t =
  Ok (match filter (flagged df t) (seq 0 (n_rows df)) with
      | [] =>
          map (rebuilt_record df
                 (_categorize_anomalies (z_scores df) (n_rows df) t))
              (seq 0 (n_rows df))
      | selected =>
          map (anomaly_record df (z_scores df)
                 (_categorize_anomalies (z_scores df) (n_rows df) t))
              selected
      end).
Proof.
  intros H. unfold detect_anomalies, flagged.
  destruct (z_scores df) eqn:Hz.
  - destruct (n_rows df) eqn:Hn; [reflexivity|].
    destruct H as [H|H]; [|discriminate].
    unfold z_scores in Hz. destruct (numeric_cols df); [congruence|discriminate].
  - now destruct (filter _ _).
Qed.

Lemma detect_anomalies_flagged (df : DataFrame) (t : float64) :
  some_flagged df t ->
  detect_anomalies df t =
  Ok (map (anomaly_record df (z_scores df)
             (_categorize_anomalies (z_scores df) (n_rows df) t))
          (filter (flagged df t) (seq 0 (n_rows df)))).
Proof.
  intros H. pose proof H as [i [_ Hi]].
  rewrite detect_anomalies_ok by (left; exact (flagged_has_columns _ _ _ Hi)).
  apply some_flagged_filter in H.
  now destruct (filter _ _).
Qed.




Lemma flagged_exceeding (df : DataFrame) (t : float64) (i : nat) :
  flagged df t i = match exceeding_columns df t i with
                   | [] => false
                   | _ => true
                   end.
Proof.
  unfold flagged. rewrite any_above_affected, affected_metrics_exceeding.
  now destruct (exceeding_columns df t i).
Qed.

(** What [detect_anomalies] returns when a row is flagged, in terms of the
    exceeding columns. *)
Lemma detect_anomalies_spec (df : DataFrame) (t : float64) :
  some_flagged df t ->
  exists out,
    detect_anomalies df t = Ok out
    /\ Forall (labelled_by_exceeding df t) out
    /\ map row_index out =
       filter (fun i => match exceeding_columns df t i with
                        | [] => false
                        | _ => true
                        end)
              (seq 0 (n_rows df)).
Proof.
  intros H. eexists. split; [apply (detect_anomalies_flagged df t H)|]. split.
  - apply Forall_forall. intros r Hr.
    apply in_map_iff in Hr. destruct Hr as [i [<- Hi]].
    apply filter_In in Hi. destruct Hi as [Hi Hf].
    apply in_seq in Hi.
    unfold labelled_by_exceeding, anomaly_record. simpl.
    rewrite nth_categories by lia.
    unfold flagged in Hf. unfold categorize_row. rewrite Hf.
    rewrite any_above_affected, affected_metrics_exceeding in Hf.
    rewrite affected_metrics_exceeding.
    repeat split.
    + intros E. rewrite E in Hf. discriminate.
    + discriminate.
  - rewrite map_map. simpl. rewrite map_id.
    apply filter_ext. intros i. apply flagged_exceeding.
Qed.

(** C6, as the code has it.  When some row has an exceedance, every record
    returned by [detect_anomalies] is labelled ["Anomaly in: "] followed by
    exactly the names of the columns whose absolute z-score at that row
    exceeds the threshold, joined with [", "] in column order; the list is
    never empty and the label is never ["Normal"]; the rows returned are
    exactly the rows with an exceedance, in row order. *)
Theorem C6_anomaly_type_lists_exceeding_columns
  (df : DataFrame) (t : float64) :
  some_flagged df t ->
  exists out,
    detect_anomalies df t = Ok out
    /\ Forall (labelled_by_exceeding df t) out
    /\ map row_index out =
       filter (fun i => match exceeding_columns df t i with
                        | [] => false
                        | _ => true
                        end)
              (seq 0 (n_rows df)).
Proof.
  intros H. destruct (detect_anomalies_spec df t H) as [out [Hout [Hl Hr]]].
  exists out. repeat split; assumption.
Qed.

End AnomalyFacts.

(** ** Argument validation of the aggregation *)

Module ValidationFacts.
Import Fleet Reference.

Lemma is_in_In (x : string) (l : list string) : is_in x l = true <-> In x l.
Proof.
  unfold is_in. rewrite existsb_exists. split.
  - intros [y [Hy E]]. apply String.eqb_eq in E. now subst.
  - intros H. exists x. split; [exact H|apply String.eqb_refl].
Qed.

Lemma period_recognized (ap : string) :
  is_in ap (values AGGREGATION_PERIODS) = true <-> exists p, ap = period_code p.
Proof.
  rewrite is_in_In. simpl. split.
  - intros [H|[H|[H|[H|[]]]]]; subst;
      [exists HOURLY|exists DAILY|exists WEEKLY|exists MONTHLY]; reflexivity.
  - intros [[] ->]; simpl; tauto.
Qed.

Lemma metric_recognized (mt : string) :
  is_in mt (values METRIC_TYPES) = true <-> In mt recognized_metric_types.
Proof. rewrite is_in_In. reflexivity. Qed.

(** C8.  [calculate_fleet_metrics] rejects its arguments exactly when
    [metric_type] is not a recognized metric type or [aggregation_period]
    is not the code of HOURLY, DAILY, WEEKLY or MONTHLY.  The rejection is
    decided before the data is looked at (it is the same for every frame)
    and reaches the caller as the wrapped error. *)
Theorem C8_validation_rejects_unrecognized
  (fleet_data : FleetFrame) (metric_type aggregation_period : string) :
  (is_validation_error
     (calculate_fleet_metrics fleet_data metric_type aggregation_period) = true
   <-> ~ recognized metric_type aggregation_period)
  /\ (~ recognized metric_type aggregation_period ->
      forall other_data,
        calculate_fleet_metrics other_data metric_type aggregation_period
        = rejection metric_type aggregation_period
        /\ is_ok (rejection metric_type aggregation_period) = false).
Proof.
  unfold recognized, calculate_fleet_metrics, rejection.
  rewrite <- metric_recognized, <- period_recognized.
  destruct (is_in metric_type (values METRIC_TYPES)) eqn:Hm;
    destruct (is_in aggregation_period (values AGGREGATION_PERIODS)) eqn:Hp;
    cbv beta iota delta [negb].
  - split.
    + destruct (get_column metric_type (f_columns fleet_data));
        split; intros H; try discriminate; exfalso; apply H; auto.
    + intros H. exfalso. apply H. auto.
  - split.
    + split; [intros _ [_ H]; discriminate|reflexivity].
    + intros _ other. split; reflexivity.
  - split.
    + split; [intros _ [H _]; discriminate|reflexivity].
    + intros _ other. split; reflexivity.
  - split.
    + split; [intros _ [H _]; discriminate|reflexivity].
    + intros _ other. split; reflexivity.
Qed.

End ValidationFacts.

(** ** groupby partitions the rows by key *)

Module GroupByFacts.

Section Partition.
Context {K V : Type}.
Variable eqb : K -> K -> bool.
Variable ltb : K -> K -> bool.
Hypothesis eqb_eq : forall a b, eqb a b = true <-> a = b.

Lemma eqb_refl (k : K) : eqb k k = true.
Proof. now apply eqb_eq. Qed.

Lemma eqb_neq (a b : K) : a <> b -> eqb a b = false.
Proof.
  intros H. destruct (eqb a b) eqn:E; [|reflexivity].
  apply eqb_eq in E. contradiction.
Qed.

Lemma values_of_snoc (k k0 : K) (v : V) (rows : list (K * V)) :
  values_of eqb k (rows ++ [(k0, v)]) =
  values_of eqb k rows ++ (if eqb k k0 then [v] else []).
Proof.
  unfold values_of. rewrite filter_app, map_app. simpl.
  now destruct (eqb k k0).
Qed.

Lemma collect_snoc (rows : list (K * V)) (r : K * V) :
  collect eqb (rows ++ [r]) = add_to_group eqb (fst r) (snd r) (collect eqb rows).
Proof. unfold collect. now rewrite fold_left_app. Qed.

Lemma add_to_group_keys (k0 : K) (v : V) (g : list (K * list V)) :
  map fst (add_to_group eqb k0 v g) =
  if existsb (fun k => eqb k k0) (map fst g) then map fst g
  else map fst g ++ [k0].
Proof.
  induction g as [|[k vs] g IH]; simpl; [reflexivity|].
  destruct (eqb k k0); simpl; [reflexivity|].
  rewrite IH. now destruct (existsb _ (map fst g)).
Qed.

Lemma existsb_key (k0 : K) (l : list K) :
  existsb (fun k => eqb k k0) l = true <-> In k0 l.
Proof.
  rewrite existsb_exists. split.
  - intros [k [H E]]. apply eqb_eq in E. now subst.
  - intros H. exists k0. split; [exact H|apply eqb_refl].
Qed.

Lemma add_to_group_nodup (k0 : K) (v : V) (g : list (K * list V)) :
  NoDup (map fst g) -> NoDup (map fst (add_to_group eqb k0 v g)).
Proof.
  intros H. rewrite add_to_group_keys.
  destruct (existsb _ (map fst g)) eqn:E; [exact H|].
  apply NoDup_app; [exact H|repeat constructor; intros []|].
  intros k Hk [<-|[]].
  apply existsb_key in Hk. congruence.
Qed.

Lemma add_to_group_In (k0 : K) (v : V) (g : list (K * list V)) (k : K)
  (vs : list V) :
  NoDup (map fst g) ->
  (In (k, vs) (add_to_group eqb k0 v g) <->
   (k <> k0 /\ In (k, vs) g)
   \/ (k = k0 /\ exists old, vs = old ++ [v]
                 /\ (In (k0, old) g \/ (old = [] /\ ~ In k0 (map fst g))))).
Proof.
  induction g as [|[k1 vs1] g IH]; simpl; intros Hnd.
  - split.
    + intros [E|[]]. inversion E; subst. right. split; [reflexivity|].
      exists []. split; [reflexivity|]. right. split; [reflexivity|tauto].
    + intros [[_ []]|[-> [old [-> [[]|[-> _]]]]]]. now left.
  - inversion Hnd as [|? ? Hnotin Hnd']; subst.
    destruct (eqb k1 k0) eqn:E.
    + apply eqb_eq in E. subst k1. simpl. split.
      * intros [H|H].
        -- inversion H; subst. right. split; [reflexivity|].
           exists vs1. split; [reflexivity|]. left. now left.
        -- left. split; [|now right].
           intros ->. apply Hnotin. apply in_map_iff. now exists (k0, vs).
      * intros [[Hne [H|H]]|[-> [old [-> [[H|H]|[-> H]]]]]].
        -- inversion H; subst. contradiction.
        -- now right.
        -- inversion H; subst. now left.
        -- exfalso. apply Hnotin. apply in_map_iff. now exists (k0, old).
        -- exfalso. apply H. now left.
    + assert (Hne : k1 <> k0).
      { intros ->. rewrite eqb_refl in E. discriminate. }
      simpl. rewrite (IH Hnd'). split.
      * intros [H|[[Hk H]|[-> [old [-> [H|[-> H]]]]]]].
        -- inversion H; subst. left. split; [exact Hne|now left].
        -- left. split; [exact Hk|now right].
        -- right. split; [reflexivity|]. exists old. split; [reflexivity|].
           left. now right.
        -- right. split; [reflexivity|]. exists []. split; [reflexivity|].
           right. split; [reflexivity|]. intros [H'|H']; [congruence|contradiction].
      * intros [[Hk [H|H]]|[-> [old [-> [[H|H]|[-> H]]]]]].
        -- now left.
        -- right. left. split; assumption.
        -- inversion H; subst. contradiction.
        -- right. right. split; [reflexivity|]. exists old.
           split; [reflexivity|]. now left.
        -- right. right. split; [reflexivity|]. exists [].
           split; [reflexivity|]. right. split; [reflexivity|].
           intros H'. apply H. now right.
Qed.

(** The groups collected from [rows]: one per key present, holding the
    values of that key in row order. *)
Lemma collect_partition (rows : list (K * V)) :
  NoDup (map fst (collect eqb rows))
  /\ forall k vs,
       In (k, vs) (collect eqb rows) <-> vs = values_of eqb k rows /\ vs <> [].
Proof.
  induction rows as [|[k0 v] rows IH] using rev_ind.
  - split; [constructor|]. intros k vs. simpl. split; [intros []|].
    intros [-> H]. now apply H.
  - destruct IH as [Hnd IH]. rewrite collect_snoc. simpl. split.
    + now apply add_to_group_nodup.
    + intros k vs. rewrite (add_to_group_In _ _ _ _ _ Hnd), values_of_snoc.
      split.
      * intros [[Hne H]|[-> [old [-> [H|[-> H]]]]]].
        -- apply IH in H. destruct H as [-> H].
           rewrite (eqb_neq _ _ Hne), app_nil_r. split; [reflexivity|exact H].
        -- apply IH in H. destruct H as [-> H]. rewrite eqb_refl.
           split; [reflexivity|]. intros E. now apply app_eq_nil in E.
        -- rewrite eqb_refl.
           assert (Hv : values_of eqb k0 rows = []).
           { destruct (values_of eqb k0 rows) eqn:Ev; [reflexivity|].
             exfalso. apply H. apply in_map_iff.
             exists (k0, values_of eqb k0 rows). split; [reflexivity|].
             apply IH. split; [reflexivity|]. rewrite Ev. discriminate. }
           rewrite Hv. split; [reflexivity|discriminate].
      * intros [-> Hne].
        destruct (eqb k k0) eqn:E.
        -- apply eqb_eq in E. subst k0. right. split; [reflexivity|].
           exists (values_of eqb k rows). split; [reflexivity|].
           destruct (values_of eqb k rows) eqn:Ev.
           ++ right. split; [reflexivity|]. intros Hin.
              apply in_map_iff in Hin. destruct Hin as [[k' vs'] [Ek Hin]].
              simpl in Ek. subst k'. apply IH in Hin.
              destruct Hin as [-> Hin]. now apply Hin.
           ++ left. apply IH. rewrite Ev. split; [reflexivity|discriminate].
        -- left. rewrite app_nil_r in *. split.
           ++ intros ->. rewrite eqb_refl in E. discriminate.
           ++ apply IH. split; [reflexivity|exact Hne].
Qed.

Lemma insert_group_perm (g : K * list V) (l : list (K * list V)) :
  Permutation (insert_group ltb g l) (g :: l).
Proof.
  induction l as [|h l IH]; simpl; [reflexivity|].
  destruct (ltb (fst h) (fst g)); [|reflexivity].
  rewrite IH. apply perm_swap.
Qed.

Lemma sort_groups_perm (l : list (K * list V)) :
  Permutation (sort_groups ltb l) l.
Proof.
  induction l as [|g l IH]; simpl; [reflexivity|].
  rewrite insert_group_perm. now constructor.
Qed.

(** [groupby]: the same groups, sorted. *)
Lemma groupby_partition (rows : list (K * V)) :
  NoDup (map fst (groupby eqb ltb rows))
  /\ forall k vs,
       In (k, vs) (groupby eqb ltb rows) <-> vs = values_of eqb k rows /\ vs <> [].
Proof.
  destruct (collect_partition rows) as [Hnd H]. unfold groupby. split.
  - eapply Permutation_NoDup; [|exact Hnd].
    apply Permutation_map. symmetry. apply sort_groups_perm.
  - intros k vs. rewrite <- H. split; apply Permutation_in;
      [|symmetry]; apply sort_groups_perm.
Qed.

End Partition.

End GroupByFacts.

(** ** Reductions on finite columns *)

Module FiniteFacts.
Import Reference.

Lemma dropna_fin (xs : list R) : dropna (map Fin xs) = map Fin xs.
Proof.
  unfold dropna. induction xs as [|x xs IH]; simpl; [reflexivity|].
  now rewrite IH.
Qed.

Lemma fold_fadd_fin (xs : list R) (a : R) :
  fold_left fadd (map Fin xs) (Fin a) = Fin (a + Rsum xs).
Proof.
  revert a. induction xs as [|x xs IH]; intros a; simpl.
  - f_equal. lra.
  - rewrite IH. f_equal. lra.
Qed.

Lemma np_sum_fin (xs : list R) : np_sum (map Fin xs) = Fin (Rsum xs).
Proof. unfold np_sum. rewrite fold_fadd_fin. f_equal. lra. Qed.

Lemma INR_length_pos {A} (a : A) (l : list A) : 0 < INR (length (a :: l)).
Proof. apply lt_0_INR. simpl. lia. Qed.

Lemma fdiv_fin (a b : R) : b <> 0 -> fdiv (Fin a) (Fin b) = Fin (a / b).
Proof. intros H. unfold fdiv. now rewrite (Reqb_false b 0 H). Qed.

Lemma np_mean_fin (xs : list R) :
  xs <> [] -> np_mean (map Fin xs) = Fin (Rsum xs / INR (length xs)).
Proof.
  intros H. unfold np_mean. rewrite np_sum_fin, length_map.
  apply fdiv_fin. destruct xs as [|x xs]; [congruence|].
  pose proof (INR_length_pos x xs). lra.
Qed.

Lemma Rsum_sq_nonneg (mu : R) (xs : list R) :
  0 <= Rsum (map (fun x => (x - mu) * (x - mu)) xs).
Proof.
  induction xs as [|x xs IH]; simpl; [lra|].
  pose proof (Rle_0_sqr (x - mu)) as H. unfold Rsqr in H. lra.
Qed.

Lemma fsqrt_fin (a : R) : 0 <= a -> fsqrt (Fin a) = Fin (sqrt a).
Proof. intros H. unfold fsqrt. now rewrite (Rltb_false a 0 H). Qed.

Lemma map_sq_dev (mu : R) (xs : list R) :
  map (fun y => let d := fsub y (Fin mu) in fmul d d) (map Fin xs) =
  map Fin (map (fun x => (x - mu) * (x - mu)) xs).
Proof.
  rewrite !map_map. apply map_ext. intros x. simpl. f_equal.
Qed.

Lemma map_abs_sq_dev (mu : R) (xs : list R) :
  map (fun y => let d := fabs (fsub y (Fin mu)) in fmul d d) (map Fin xs) =
  map Fin (map (fun x => (x - mu) * (x - mu)) xs).
Proof.
  rewrite !map_map. apply map_ext. intros x. simpl. f_equal.
  fold (x - mu). unfold Rabs. destruct (Rcase_abs (x - mu)); lra.
Qed.

(** [Series.std()] on finite values: the sample standard deviation. *)
Lemma pd_std_fin (xs : list R) : pd_std (map Fin xs) = sample_std xs.
Proof.
  unfold pd_std, sample_std. rewrite dropna_fin, length_map.
  destruct (length xs <=? 1)%nat eqn:Hn; [reflexivity|].
  apply Nat.leb_gt in Hn.
  assert (Hx : xs <> []) by (intros ->; simpl in Hn; lia).
  rewrite (np_mean_fin xs Hx), map_sq_dev, np_sum_fin.
  assert (Hd : INR (length xs - 1) = INR (length xs) - 1).
  { rewrite minus_INR by lia. simpl. lra. }
  assert (Hpos : 0 < INR (length xs) - 1).
  { rewrite <- Hd. apply lt_0_INR. lia. }
  rewrite Hd, fdiv_fin by lra.
  rewrite fsqrt_fin; [reflexivity|].
  apply Rmult_le_pos; [apply Rsum_sq_nonneg|].
  apply Rlt_le, Rinv_0_lt_compat, Hpos.
Qed.

(** [np.std] ([$stdDevPop]) on finite values: the population standard
    deviation. *)
Lemma np_std_fin (xs : list R) :
  xs <> [] -> np_std (map Fin xs) = population_std xs.
Proof.
  intros Hx. unfold np_std, population_std.
  rewrite (np_mean_fin xs Hx), map_abs_sq_dev.
  rewrite np_mean_fin by (destruct xs; [congruence|discriminate]).
  rewrite length_map.
  destruct xs as [|x xs]; [congruence|].
  rewrite fsqrt_fin; [reflexivity|].
  apply Rmult_le_pos; [apply Rsum_sq_nonneg|].
  apply Rlt_le, Rinv_0_lt_compat, INR_length_pos.
Qed.

Lemma Rsum_repeat (v : R) (n : nat) : Rsum (repeat v n) = INR n * v.
Proof.
  induction n as [|n IH]; [simpl; lra|].
  rewrite S_INR. simpl. rewrite IH. lra.
Qed.

Lemma map_repeat_fin (v : R) (n : nat) :
  repeat (Fin v) n = map Fin (repeat v n).
Proof. induction n; simpl; congruence. Qed.

Lemma sum_sq_dev_repeat (v : R) (n : nat) : sum_sq_dev (repeat v (S n)) = 0.
Proof.
  unfold sum_sq_dev. rewrite Rsum_repeat, repeat_length.
  assert (Hn : 0 < INR (S n)) by (apply lt_0_INR; lia).
  replace (INR (S n) * v / INR (S n)) with v by (field; lra).
  generalize (S n). intros m. induction m as [|m IH]; simpl; [reflexivity|].
  rewrite IH. lra.
Qed.

Lemma population_std_repeat (v : R) (n : nat) :
  population_std (repeat v (S n)) = Fin 0.
Proof.
  assert (Hn : 0 < INR (S n)) by (apply lt_0_INR; lia).
  unfold population_std.
  change (match repeat v (S n) with
          | [] => NaN
          | _ :: _ =>
              Fin (sqrt (sum_sq_dev (repeat v (S n))
                         / INR (length (repeat v (S n)))))
          end = Fin 0).
  cbn [repeat]. change (v :: repeat v n) with (repeat v (S n)).
  rewrite sum_sq_dev_repeat, repeat_length.
  replace (0 / INR (S n)) with 0 by (field; lra).
  now rewrite sqrt_0.
Qed.

Lemma np_mean_repeat (v : R) (n : nat) :
  np_mean (map Fin (repeat v (S n))) = Fin v.
Proof.
  assert (Hn : 0 < INR (S n)) by (apply lt_0_INR; lia).
  rewrite np_mean_fin by discriminate.
  rewrite Rsum_repeat, repeat_length. f_equal. field. lra.
Qed.

(** Without scipy's special case the scores of a constant column are the
    same NaN: the plain formula divides 0 by 0. *)
Lemma plain_zscore_constant (v : R) (n : nat) :
  plain_zscore (repeat (Fin v) (S n)) = repeat NaN (S n).
Proof.
  unfold plain_zscore. rewrite map_repeat_fin.
  rewrite np_mean_repeat, np_std_fin by discriminate.
  rewrite population_std_repeat, map_map.
  generalize (S n). intros m.
  induction m as [|m IH]; cbn [map repeat]; [reflexivity|].
  rewrite IH. f_equal. cbn.
  now rewrite (Reqb_true 0 0), (Reqb_true (v + - v) 0) by lra.
Qed.

(** The z-scores of a column with the two values 0 and [c]. *)
Lemma zscore_pair (c : R) :
  0 < c -> zscore [Fin 0; Fin c] = [Fin (-1); Fin 1].
Proof.
  intros Hc. unfold zscore, isconst. cbn [forallb feqb].
  rewrite (Reqb_true 0 0), (Reqb_false 0 c) by lra. cbn [andb].
  change [Fin 0; Fin c] with (map Fin [0; c]).
  rewrite np_std_fin by discriminate.
  rewrite np_mean_fin by discriminate.
  unfold population_std, sum_sq_dev. cbn [map Rsum fold_right length INR].
  match goal with
  | |- context [sqrt ?e] => replace e with ((c / 2) * (c / 2)) by field
  end.
  rewrite sqrt_square by lra.
  cbn [map fsub fadd fneg]. rewrite !fdiv_fin by lra.
  f_equal; [|f_equal]; f_equal; field; lra.
Qed.

Lemma fabs_minus_one : fabs (Fin (-1)) = Fin 1.
Proof. simpl. f_equal. rewrite Rabs_left by lra. lra. Qed.

Lemma fabs_one : fabs (Fin 1) = Fin 1.
Proof. simpl. f_equal. apply Rabs_right. lra. Qed.

End FiniteFacts.

(** ** The two-level rollup *)

Module FleetFacts.
Import Fleet Reference GroupByFacts.

Lemma key_eqb_eq (a b : Z * string) : key_eqb a b = true <-> a = b.
Proof.
  destruct a as [a1 a2], b as [b1 b2]. unfold key_eqb. simpl.
  rewrite andb_true_iff, Z.eqb_eq, String.eqb_eq.
  split; [intros [-> ->]; reflexivity|intros E; inversion E; auto].
Qed.

Lemma grouped_partitions (fd : FleetFrame) (freq : string)
  (column : list float64) :
  partitions (keyed_rows fd freq column) (grouped fd freq column).
Proof. apply groupby_partition. exact key_eqb_eq. Qed.

Lemma values_of_bucket {A} (inner : list float64 -> A) (inject : A -> float64)
  (b : Z) (groups : list ((Z * string) * list float64)) :
  values_of Z.eqb b
    (map (fun g => (fst (fst g), inject (inner (snd g)))) groups) =
  map (fun vs => inject (inner vs)) (vehicle_groups b groups).
Proof.
  unfold values_of, vehicle_groups.
  induction groups as [|g groups IH]; simpl; [reflexivity|].
  destruct (b =? fst (fst g))%Z; simpl; now rewrite IH.
Qed.

Lemma rollup_In {A} (inner : list float64 -> A) (inject : A -> float64)
  (groups : list ((Z * string) * list float64)) (b : Z) (vs : list float64) :
  In (b, vs) (rollup inner inject groups) <->
  vehicle_groups b groups <> []
  /\ vs = map (fun g => inject (inner g)) (vehicle_groups b groups).
Proof.
  unfold rollup.
  destruct (groupby_partition Z.eqb Z.ltb Z.eqb_eq
              (map (fun g => (fst (fst g), inject (inner (snd g)))) groups))
    as [_ H].
  rewrite H, values_of_bucket. split.
  - intros [-> Hne]. split; [|reflexivity].
    intros E. rewrite E in Hne. now apply Hne.
  - intros [Hne ->]. split; [reflexivity|].
    intros E. apply map_eq_nil in E. contradiction.
Qed.

Lemma two_level_rolled_up (inner outer : list float64 -> float64)
  (groups : list ((Z * string) * list float64)) :
  rolled_up inner outer groups (two_level inner outer groups).
Proof.
  intros b y. unfold two_level. rewrite in_map_iff. split.
  - intros [[b' vs] [E H]]. simpl in E. inversion E; subst.
    apply rollup_In in H. destruct H as [Hne ->]. split; [exact Hne|].
    reflexivity.
  - intros [Hne ->].
    exists (b, map (fun g => inner g) (vehicle_groups b groups)).
    split; [reflexivity|]. apply rollup_In. split; [exact Hne|reflexivity].
Qed.

Lemma pd_count_injected (l : list (list float64)) :
  pd_count (map (fun g => Fin (INR (pd_count g))) l) = length l.
Proof.
  unfold pd_count at 1, dropna.
  induction l as [|g l IH]; simpl; [reflexivity|]. now rewrite IH.
Qed.

Lemma vehicle_count_In (groups : list ((Z * string) * list float64))
  (b : Z) (c : nat) :
  In (b, c) (vehicle_count (compute_statistics groups)) <->
  vehicle_groups b groups <> [] /\ c = length (vehicle_groups b groups).
Proof.
  simpl. rewrite in_map_iff. split.
  - intros [[b' vs] [E H]]. simpl in E. inversion E; subst.
    apply rollup_In in H. destruct H as [Hne ->]. split; [exact Hne|].
    apply pd_count_injected.
  - intros [Hne ->].
    exists (b, map (fun g => Fin (INR (pd_count g))) (vehicle_groups b groups)).
    split; [simpl; now rewrite pd_count_injected|].
    apply rollup_In. split; [exact Hne|reflexivity].
Qed.

(** What [calculate_fleet_metrics] returns on recognized arguments. *)
Lemma calculate_fleet_metrics_ok (fd : FleetFrame) (mt ap : string)
  (column : list float64) :
  is_in mt (values METRIC_TYPES) = true ->
  is_in ap (values AGGREGATION_PERIODS) = true ->
  get_column mt (f_columns fd) = Some column ->
  calculate_fleet_metrics fd mt ap =
  Ok {| aggregation_period := ap;
        metric_type := mt;
        statistics := compute_statistics (grouped fd ap column) |}.
Proof.
  intros Hm Hp Hc. unfold calculate_fleet_metrics.
  now rewrite Hm, Hp, Hc.
Qed.

End FleetFacts.

(** ** Aggregation claims *)

Module FleetClaims.
Import Fleet Reference GroupByFacts FiniteFacts FleetFacts.

(** C3, as the code has it.  On recognized arguments the statistics of
    every bucket are a two-level rollup: the rows are first partitioned
    into per-(bucket, vehicle) groups; the bucket mean is the mean of the
    vehicle means, the bucket median is the MEDIAN of the vehicle medians,
    the bucket std is the mean of the vehicle stds, the min is the min of
    the vehicle mins, the max is the max of the vehicle maxes, and
    [vehicle_count] is the number of vehicle groups of the bucket. *)
Theorem C3_two_level_rollup (fd : FleetFrame) (mt ap : string)
  (column : list float64) :
  is_in mt (values METRIC_TYPES) = true ->
  is_in ap (values AGGREGATION_PERIODS) = true ->
  get_column mt (f_columns fd) = Some column ->
  exists m,
    calculate_fleet_metrics fd mt ap = Ok m
    /\ partitions (keyed_rows fd ap column) (grouped fd ap column)
    /\ rolled_up pd_mean pd_mean (grouped fd ap column) (mean (statistics m))
    /\ rolled_up pd_median pd_median (grouped fd ap column)
                 (median (statistics m))
    /\ rolled_up pd_std pd_mean (grouped fd ap column) (std (statistics m))
    /\ rolled_up pd_min pd_min (grouped fd ap column) (min (statistics m))
    /\ rolled_up pd_max pd_max (grouped fd ap column) (max (statistics m))
    /\ forall b c,
         In (b, c) (vehicle_count (statistics m)) <->
         vehicle_groups b (grouped fd ap column) <> []
         /\ c = length (vehicle_groups b (grouped fd ap column)).
Proof.
  intros Hm Hp Hc.
  eexists. split; [apply (calculate_fleet_metrics_ok fd mt ap column Hm Hp Hc)|].
  split; [apply grouped_partitions|].
  cbn [statistics].
  repeat (split; [apply two_level_rolled_up|]).
  apply vehicle_count_In.
Qed.

(** C7, as the code has it.  The standard deviation entering the
    aggregation is the mean, over the vehicle groups of the bucket, of
    [GroupBy.std()], which on a group of N finite samples is the SAMPLE
    standard deviation (variance denominator N-1, NaN when N = 1); the
    fleet-wide summary reports the population standard deviation
    (denominator N) instead. *)
Theorem C7_std_is_sample_std (fd : FleetFrame) (mt ap : string)
  (column : list float64) :
  is_in mt (values METRIC_TYPES) = true ->
  is_in ap (values AGGREGATION_PERIODS) = true ->
  get_column mt (f_columns fd) = Some column ->
  exists m,
    calculate_fleet_metrics fd mt ap = Ok m
    /\ rolled_up pd_std pd_mean (grouped fd ap column) (std (statistics m))
    /\ (forall k vs xs,
          In (k, vs) (grouped fd ap column) -> vs = map Fin xs ->
          pd_std vs = sample_std xs)
    /\ (forall xs, xs <> [] -> stdDevPop (map Fin xs) = population_std xs).
Proof.
  intros Hm Hp Hc.
  eexists. split; [apply (calculate_fleet_metrics_ok fd mt ap column Hm Hp Hc)|].
  split; [apply two_level_rolled_up|]. split.
  - intros k vs xs _ ->. apply pd_std_fin.
  - intros xs Hx. apply np_std_fin, Hx.
Qed.

End FleetClaims.

Module FleetExamples.
Import Fleet Reference Examples FiniteFacts FleetFacts FleetClaims.

Lemma three_vehicles_grouped :
  grouped three_vehicles "1D" [Fin 1; Fin 2; Fin 6] =
  [((0%Z, "a"%string), [Fin 1]); ((0%Z, "b"%string), [Fin 2]);
   ((0%Z, "c"%string), [Fin 6])].
Proof. reflexivity. Qed.

Lemma one_vehicle_grouped :
  grouped one_vehicle "1D" [Fin 0; Fin 3; Fin 6] =
  [((0%Z, "a"%string), [Fin 0; Fin 3; Fin 6])].
Proof. reflexivity. Qed.

Lemma median_1_2_6 : pd_median [Fin 1; Fin 2; Fin 6] = Fin 2.
Proof. unfold pd_median, sort_values, dropna. reval. reflexivity. Qed.

Lemma median_single (x : R) : pd_median [Fin x] = Fin x.
Proof. reflexivity. Qed.

Lemma mean_1_2_6 : pd_mean [Fin 1; Fin 2; Fin 6] = Fin 3.
Proof. unfold pd_mean, np_mean, np_sum, dropna. reval. f_equal. lra. Qed.

(** C3 as stated fails: with vehicle medians 1, 2 and 6 in one bucket the
    reported median is 2, their median, while their mean is 3. *)
Lemma C3_bucket_median_is_not_mean_of_medians :
  exists m,
    calculate_fleet_metrics three_vehicles "vehicle_speed" "1D" = Ok m
    /\ median (statistics m) = [(0%Z, Fin 2)]
    /\ pd_mean (map pd_median
                    (vehicle_groups 0 (grouped three_vehicles "1D"
                                               [Fin 1; Fin 2; Fin 6])))
       = Fin 3
    /\ Fin 2 <> Fin 3.
Proof.
  eexists. split; [reflexivity|].
  cbn [statistics]. rewrite three_vehicles_grouped.
  cbn -[pd_mean pd_median].
  rewrite !median_single, median_1_2_6, mean_1_2_6.
  repeat split. intros H. inversion H. lra.
Qed.

Lemma C3_two_level_rollup_witness :
  exists m,
    calculate_fleet_metrics three_vehicles "vehicle_speed" "1D" = Ok m
    /\ partitions (keyed_rows three_vehicles "1D" [Fin 1; Fin 2; Fin 6])
                  (grouped three_vehicles "1D" [Fin 1; Fin 2; Fin 6])
    /\ rolled_up pd_mean pd_mean
                 (grouped three_vehicles "1D" [Fin 1; Fin 2; Fin 6])
                 (mean (statistics m))
    /\ rolled_up pd_median pd_median
                 (grouped three_vehicles "1D" [Fin 1; Fin 2; Fin 6])
                 (median (statistics m))
    /\ rolled_up pd_std pd_mean
                 (grouped three_vehicles "1D" [Fin 1; Fin 2; Fin 6])
                 (std (statistics m))
    /\ rolled_up pd_min pd_min
                 (grouped three_vehicles "1D" [Fin 1; Fin 2; Fin 6])
                 (min (statistics m))
    /\ rolled_up pd_max pd_max
                 (grouped three_vehicles "1D" [Fin 1; Fin 2; Fin 6])
                 (max (statistics m))
    /\ forall b c,
         In (b, c) (vehicle_count (statistics m)) <->
         vehicle_groups b (grouped three_vehicles "1D" [Fin 1; Fin 2; Fin 6])
           <> []
         /\ c = length (vehicle_groups b
                          (grouped three_vehicles "1D" [Fin 1; Fin 2; Fin 6])).
Proof.
  apply (C3_two_level_rollup three_vehicles "vehicle_speed" "1D"
           [Fin 1; Fin 2; Fin 6]); reflexivity.
Defined.

(** Three samples of one vehicle count as one vehicle. *)
Lemma one_vehicle_counted_once :
  exists m,
    calculate_fleet_metrics one_vehicle "vehicle_speed" "1D" = Ok m
    /\ vehicle_count (statistics m) = [(0%Z, 1%nat)].
Proof. eexists. split; reflexivity. Qed.

Lemma sample_std_0_3_6 : sample_std [0; 3; 6] = Fin 3.
Proof.
  unfold sample_std, sum_sq_dev. cbn.
  f_equal. replace (_ / _) with (3 * 3) by lra.
  apply sqrt_square. lra.
Qed.

Lemma population_std_0_3_6 : population_std [0; 3; 6] = Fin (sqrt 6).
Proof.
  unfold population_std, sum_sq_dev. cbn.
  f_equal. f_equal. lra.
Qed.

Lemma sqrt_6_not_3 : sqrt 6 <> 3.
Proof.
  intros H. pose proof (sqrt_sqrt 6 ltac:(lra)) as H6. rewrite H in H6. lra.
Qed.

(** C7 as stated fails: for one vehicle reporting 0, 3 and 6 in one bucket
    the reported std is 3, the sample standard deviation, while the
    population standard deviation of the fleet-wide summary is sqrt 6. *)
Lemma C7_reported_std_is_not_population_std :
  exists m,
    calculate_fleet_metrics one_vehicle "vehicle_speed" "1D" = Ok m
    /\ std (statistics m) = [(0%Z, Fin 3)]
    /\ stdDevPop [Fin 0; Fin 3; Fin 6] = Fin (sqrt 6)
    /\ Fin 3 <> Fin (sqrt 6).
Proof.
  eexists. split; [reflexivity|].
  cbn [statistics]. rewrite one_vehicle_grouped.
  split; [|split].
  - cbn -[pd_std pd_mean].
    change [Fin 0; Fin 3; Fin 6] with (map Fin [0; 3; 6]).
    rewrite (pd_std_fin [0; 3; 6]), sample_std_0_3_6.
    unfold pd_mean, np_mean, np_sum, dropna. reval.
    replace ((0 + 3) / 1) with 3 by lra. reflexivity.
  - unfold stdDevPop. change [Fin 0; Fin 3; Fin 6] with (map Fin [0; 3; 6]).
    rewrite (np_std_fin [0; 3; 6]) by discriminate.
    apply population_std_0_3_6.
  - intros H. inversion H as [H']. symmetry in H'. now apply sqrt_6_not_3.
Qed.

Lemma C7_std_is_sample_std_witness :
  exists m,
    calculate_fleet_metrics one_vehicle "vehicle_speed" "1D" = Ok m
    /\ rolled_up pd_std pd_mean
                 (grouped one_vehicle "1D" [Fin 0; Fin 3; Fin 6])
                 (std (statistics m))
    /\ (forall k vs xs,
          In (k, vs) (grouped one_vehicle "1D" [Fin 0; Fin 3; Fin 6]) ->
          vs = map Fin xs -> pd_std vs = sample_std xs)
    /\ (forall xs, xs <> [] -> stdDevPop (map Fin xs) = population_std xs).
Proof.
  apply (C7_std_is_sample_std one_vehicle "vehicle_speed" "1D"
           [Fin 0; Fin 3; Fin 6]); reflexivity.
Defined.

End FleetExamples.

Module AnomalyExamples.
Import Anomaly Reference AnomalyFacts FiniteFacts Examples.

Lemma two_speeds_scores :
  z_scores two_speeds = [("speed"%string, [Fin 1; Fin 1])].
Proof.
  unfold z_scores, two_speeds. cbn [numeric_cols map fst snd].
  rewrite zscore_pair by lra. cbn [map].
  now rewrite fabs_minus_one, fabs_one.
Qed.

Lemma two_speeds_detected :
  detect_anomalies two_speeds (Fin (1 / 2)) =
  Ok [ {| row_index := 0; original_sample := [Fin 0];
          confidence_score := Fin 1;
          anomaly_type := "Anomaly in: speed" |};
       {| row_index := 1; original_sample := [Fin 2];
          confidence_score := Fin 1;
          anomaly_type := "Anomaly in: speed" |} ].
Proof.
  rewrite detect_anomalies_ok by (left; discriminate).
  unfold flagged, _categorize_anomalies, categorize_row.
  rewrite two_speeds_scores. reval. reflexivity.
Qed.

(** C6 as stated fails: the label of a flagged row is not the bare list of
    column names; for the one exceeding column [speed] it is
    ["Anomaly in: speed"]. *)
Lemma C6_label_is_not_the_bare_names :
  exists out,
    detect_anomalies two_speeds (Fin (1 / 2)) = Ok out
    /\ map anomaly_type out = ["Anomaly in: speed"; "Anomaly in: speed"]%string
    /\ map (fun r => String.concat ","
                       (exceeding_columns two_speeds (Fin (1 / 2))
                                          (row_index r))) out
       = ["speed"; "speed"]%string
    /\ "Anomaly in: speed"%string <> "speed"%string.
Proof.
  eexists. split; [apply two_speeds_detected|]. split; [reflexivity|].
  split; [|discriminate].
  cbn [map row_index].
  rewrite <- !affected_metrics_exceeding, two_speeds_scores.
  unfold affected_metrics. reval. reflexivity.
Qed.

Lemma two_speeds_flagged : some_flagged two_speeds (Fin (1 / 2)).
Proof.
  exists 0%nat. split; [simpl; lia|].
  unfold flagged. rewrite two_speeds_scores. reval. reflexivity.
Qed.

Lemma C6_anomaly_type_lists_exceeding_columns_witness :
  exists out,
    detect_anomalies two_speeds (Fin (1 / 2)) = Ok out
    /\ Forall (labelled_by_exceeding two_speeds (Fin (1 / 2))) out
    /\ map row_index out =
       filter (fun i =>
                 match exceeding_columns two_speeds (Fin (1 / 2)) i with
                 | [] => false
                 | _ => true
                 end)
              (seq 0 (n_rows two_speeds)).
Proof.
  apply (C6_anomaly_type_lists_exceeding_columns two_speeds (Fin (1 / 2))).
  exact two_speeds_flagged.
Defined.

End AnomalyExamples.

(** ** Zero-variance columns *)

Module ZeroVarianceFacts.
Import Anomaly Reference AnomalyFacts FiniteFacts.

Lemma constant_column_never_exceeds (n : nat)
  (pre post : list (string * list float64)) (name : string) (x t : float64)
  (i : nat) :
  exceeding_columns (with_constant_column n pre post name x) t i =
  exceeding_columns (without_column n pre post) t i.
Proof.
  unfold exceeding_columns, with_constant_column, without_column. simpl.
  rewrite !filter_app. simpl.
  rewrite zscore_repeat, nth_repeat. simpl. rewrite fgtb_nan_l.
  reflexivity.
Qed.

Lemma constant_column_never_flags (n : nat)
  (pre post : list (string * list float64)) (name : string) (x t : float64)
  (i : nat) :
  flagged (with_constant_column n pre post name x) t i =
  flagged (without_column n pre post) t i.
Proof.
  now rewrite !flagged_exceeding, constant_column_never_exceeds.
Qed.

(** C2, as the code has it.  The z-score of a constant column is NaN at
    every row (not 0), in the anomaly detector and in the efficiency
    scorer alike, which both call the same [zscore] (and the plain formula
    [(x - mean) / std] gives the same NaN on a finite constant column);
    the constant column raises nothing in the detector and never flags a
    row: a row is flagged exactly when another column flags it, and when
    some row is flagged the rows returned are those flagged by the other
    columns.  The feature columns of a single-record delivery batch are
    all NaN. *)
Theorem C2_zero_variance_column_scores_nan (x : float64) (n : nat) :
  zscore (repeat x n) = repeat NaN n
  /\ (forall v m, plain_zscore (repeat (Fin v) (S m)) = repeat NaN (S m))
  /\ (forall pre post name t,
        is_ok (detect_anomalies (with_constant_column n pre post name x) t)
        = true
        /\ (forall i,
              flagged (with_constant_column n pre post name x) t i =
              flagged (without_column n pre post) t i)
        /\ (some_flagged (without_column n pre post) t ->
            exists out,
              detect_anomalies (with_constant_column n pre post name x) t
              = Ok out
              /\ map row_index out =
                 filter (fun i =>
                           match exceeding_columns (without_column n pre post)
                                                   t i with
                           | [] => false
                           | _ => true
                           end)
                        (seq 0 n)))
  /\ (forall r : Efficiency.DeliveryRecord,
        map snd (Efficiency.scores [r]) = [[NaN]; [NaN]; [NaN]]).
Proof.
  split; [apply zscore_repeat|].
  split; [exact plain_zscore_constant|]. split.
  - intros pre post name t. split; [|split].
    + rewrite detect_anomalies_ok; [reflexivity|].
      left. simpl. destruct pre; discriminate.
    + intros i. apply constant_column_never_flags.
    + intros [i [Hi Hf]].
      assert (H : some_flagged (with_constant_column n pre post name x) t).
      { exists i. split; [exact Hi|].
        now rewrite constant_column_never_flags. }
      destruct (detect_anomalies_spec _ _ H) as [out [Hout [_ Hr]]].
      exists out. split; [exact Hout|]. rewrite Hr. simpl.
      apply filter_ext. intros j.
      now rewrite constant_column_never_exceeds.
  - intros r. unfold Efficiency.scores. simpl.
    pose proof (fun y => zscore_repeat y 1) as Hz. simpl in Hz.
    now rewrite !Hz.
Qed.

End ZeroVarianceFacts.

Module ZeroVarianceExamples.
Import Anomaly Reference Examples.

(** C2 as stated fails: a column whose two values both equal 5 gets the
    z-score NaN at both rows, not 0. *)
Lemma C2_constant_column_is_not_scored_zero :
  z_scores constant_table = [("speed"%string, [NaN; NaN])]
  /\ zscore [Fin 5; Fin 5] <> [Fin 0; Fin 0].
Proof.
  pose proof (zscore_repeat (Fin 5) 2) as H. simpl in H.
  unfold z_scores, constant_table. simpl. rewrite H. simpl.
  split; [reflexivity|discriminate].
Qed.

End ZeroVarianceExamples.

(** ** The mean of a z-scored column *)

Module ZscoreFacts.
Import Reference FiniteFacts.

Lemma Rsum_sq_pos (mu y : R) (xs : list R) :
  In y xs -> y <> mu -> 0 < Rsum (map (fun x => (x - mu) * (x - mu)) xs).
Proof.
  induction xs as [|x xs IH]; simpl; [tauto|].
  intros [->|Hin] Hy.
  - pose proof (Rsum_sq_nonneg mu xs).
    assert (0 < (y - mu) * (y - mu)) by nra. lra.
  - specialize (IH Hin Hy).
    pose proof (Rle_0_sqr (x - mu)) as H. unfold Rsqr in H. lra.
Qed.

Lemma not_isconst_differs (x0 : R) (xs : list R) :
  isconst (map Fin (x0 :: xs)) = false -> exists y, In y xs /\ y <> x0.
Proof.
  simpl. rewrite (Reqb_true x0 x0) by reflexivity. simpl.
  induction xs as [|x xs IH]; simpl; [discriminate|].
  unfold Reqb at 1. destruct (Req_dec_T x0 x) as [E|E]; simpl.
  - intros H. destruct (IH H) as [y [Hy Hne]]. exists y. auto.
  - intros _. exists x. split; [now left|congruence].
Qed.

Lemma Rsum_centred (mu sigma : R) (xs : list R) :
  Rsum (map (fun x => (x - mu) / sigma) xs)
  = (Rsum xs - INR (length xs) * mu) / sigma.
Proof.
  induction xs as [|x xs IH].
  - simpl. unfold Rdiv. lra.
  - change (length (x :: xs)) with (S (length xs)). rewrite S_INR.
    simpl. rewrite IH. unfold Rdiv. lra.
Qed.

(** The z-scores of a finite column that is not constant are finite, and
    their mean is 0. *)
Lemma mean_of_zscores (xs : list R) :
  isconst (map Fin xs) = false -> pd_mean (zscore (map Fin xs)) = Fin 0.
Proof.
  intros Hc. destruct xs as [|x0 xs]; [discriminate|].
  destruct (not_isconst_differs _ _ Hc) as [y [Hy Hne]].
  set (l := x0 :: xs) in *.
  assert (Hl : l <> []) by discriminate.
  assert (Hn : 0 < INR (length l)) by apply INR_length_pos.
  set (mu := Rsum l / INR (length l)).
  assert (Hpos : 0 < sum_sq_dev l).
  { unfold sum_sq_dev. fold mu.
    destruct (Req_dec_T x0 mu) as [E|E].
    - apply (Rsum_sq_pos mu y); [now right|congruence].
    - apply (Rsum_sq_pos mu x0); [now left|exact E]. }
  set (sigma := sqrt (sum_sq_dev l / INR (length l))).
  assert (Hsigma : 0 < sigma).
  { apply sqrt_lt_R0. apply Rmult_lt_0_compat; [exact Hpos|].
    now apply Rinv_0_lt_compat. }
  unfold zscore. rewrite Hc.
  rewrite (np_mean_fin l Hl), (np_std_fin l Hl).
  unfold population_std. fold l. cbv beta iota. fold mu. fold sigma.
  assert (Hz : map (fun x => fdiv (fsub x (Fin mu)) (Fin sigma)) (map Fin l)
               = map Fin (map (fun x => (x - mu) / sigma) l)).
  { rewrite !map_map. apply map_ext. intros x.
    cbn [fsub fadd fneg]. rewrite fdiv_fin by lra. reflexivity. }
  change (match l with [] => NaN | _ :: _ => Fin sigma end) with (Fin sigma).
  rewrite Hz. unfold pd_mean. rewrite dropna_fin.
  rewrite np_mean_fin by (unfold l; discriminate).
  rewrite length_map, Rsum_centred. f_equal.
  unfold mu. field. lra.
Qed.

(** The feature term [1 - |mean z-score|] of a finite column: 1, or NaN
    when the column is constant. *)
Lemma feature_term_of_finite_column (xs : list R) :
  fsub (Fin 1) (fabs (pd_mean (zscore (map Fin xs))))
  = if isconst (map Fin xs) then NaN else Fin 1.
Proof.
  destruct (isconst (map Fin xs)) eqn:Hc.
  - unfold zscore. rewrite Hc, map_const_repeat.
    unfold pd_mean.
    assert (Hd : forall n, dropna (repeat NaN n) = []).
    { intros n. induction n; simpl; auto. }
    rewrite Hd. unfold np_mean, np_sum. cbn.
    now rewrite (Reqb_true 0 0) by reflexivity.
  - rewrite (mean_of_zscores xs Hc). cbn. f_equal.
    rewrite Rabs_R0. lra.
Qed.

End ZscoreFacts.

(** ** The kinematics pipeline *)

Module KinematicsFacts.
Import Kinematics.

Lemma insert_by_time_perm (x : LocationSample) (l : list LocationSample) :
  Permutation (insert_by_time x l) (x :: l).
Proof.
  induction l as [|y l IH]; simpl; [reflexivity|].
  destruct (timestamp x <=? timestamp y)%Z; [reflexivity|].
  rewrite IH. apply perm_swap.
Qed.

Lemma sort_by_time_perm (l : list LocationSample) :
  Permutation (sort_by_time l) l.
Proof.
  induction l as [|x l IH]; simpl; [reflexivity|].
  rewrite insert_by_time_perm. now constructor.
Qed.

Lemma sort_by_time_length (l : list LocationSample) :
  length (sort_by_time l) = length l.
Proof. apply Permutation_length, sort_by_time_perm. Qed.

Lemma group_diff_length {V} (sub : V -> V -> float64)
  (seen rows : list (string * V)) :
  length (group_diff sub seen rows) = length rows.
Proof.
  revert seen. induction rows as [|[k x] rows IH]; intros seen; simpl;
    [reflexivity|]. now rewrite IH.
Qed.

Lemma time_diff_column_length (rows : list LocationSample) :
  length (time_diff_column rows) = length rows.
Proof. unfold time_diff_column. now rewrite group_diff_length, length_map. Qed.

Lemma same_as_previous_length (p : option string) (rows : list LocationSample) :
  length (same_as_previous p rows) = length rows.
Proof.
  revert p. induction rows as [|r rows IH]; intros p; simpl; [reflexivity|].
  now rewrite IH.
Qed.

Lemma scatter_length (dst : list float64) (mask : list bool)
  (vals : list float64) :
  length (scatter dst mask vals) = length dst.
Proof.
  revert mask vals. induction dst as [|d dst IH]; intros mask vals.
  - destruct mask; reflexivity.
  - destruct mask as [|[] mask]; simpl; [reflexivity| |now rewrite IH].
    destruct vals; simpl; now rewrite IH.
Qed.

Lemma distances_column_length (rows : list LocationSample)
  (ds : list float64) :
  distances_column rows = inr ds -> length ds = length rows.
Proof.
  unfold distances_column, assign_masked. intros H.
  destruct (_ =? _)%nat.
  - inversion H. now rewrite scatter_length, repeat_length.
  - destruct (consecutive_distances rows) as [|v [|? ?]]; try discriminate.
    inversion H. now rewrite scatter_length, repeat_length.
Qed.

Lemma speed_column_length (tds ds : list float64) :
  length tds = length ds -> length (speed_column tds ds) = length ds.
Proof.
  revert ds. induction tds as [|t tds IH]; intros [|d ds] H; simpl in *;
    try discriminate; [reflexivity|]. now rewrite IH by lia.
Qed.

Lemma make_rows_length (rows : list LocationSample) (tds ss : list float64) :
  length tds = length rows -> length ss = length rows ->
  length (make_rows rows tds ss) = length rows.
Proof.
  revert tds ss. induction rows as [|r rows IH]; intros [|t tds] [|s ss] H1 H2;
    simpl in *; try discriminate; [reflexivity|]. now rewrite IH by lia.
Qed.

Lemma make_rows_sample (rows : list LocationSample) (tds ss : list float64) :
  length tds = length rows -> length ss = length rows ->
  map sample (make_rows rows tds ss) = rows.
Proof.
  revert tds ss. induction rows as [|r rows IH]; intros [|t tds] [|s ss] H1 H2;
    simpl in *; try discriminate; [reflexivity|]. now rewrite IH by lia.
Qed.


Lemma make_rows_speed (rows : list LocationSample) (tds ss : list float64) :
  length tds = length rows -> length ss = length rows ->
  map speed (make_rows rows tds ss) = ss.
Proof.
  revert tds ss. induction rows as [|r rows IH]; intros [|t tds] [|s ss] H1 H2;
    simpl in *; try discriminate; [reflexivity|]. now rewrite IH by lia.
Qed.

Lemma select_length_le {A} (mask : list bool) (l : list A) :
  (length (select mask l) <= length l)%nat.
Proof.
  revert l. induction mask as [|[] mask IH]; intros [|x l]; simpl; try lia.
  - specialize (IH l). lia.
  - specialize (IH l). lia.
Qed.

(** A selection that loses no row keeps the frame as it is. *)
Lemma select_all {A} (mask : list bool) (l : list A) :
  length (select mask l) = length l -> select mask l = l.
Proof.
  revert l. induction mask as [|[] mask IH]; intros [|x l] H; simpl in *;
    try reflexivity; try discriminate.
  - f_equal. apply IH. lia.
  - pose proof (select_length_le mask l). lia.
Qed.

Lemma acceleration_column_length (frame : list Row) :
  length (acceleration_column frame) = length frame.
Proof.
  unfold acceleration_column.
  now rewrite length_map, length_combine, group_diff_length, !length_map,
    Nat.min_id.
Qed.

Section Output.
Variables (frame : list Row) (ds accs : list float64).
Hypothesis Hds : length ds = length frame.
Hypothesis Haccs : length accs = length frame.

Lemma make_output_length : length (make_output frame ds accs) = length frame.
Proof.
  revert ds accs Hds Haccs.
  induction frame as [|r rows IH]; intros [|d ds'] [|a accs'] H1 H2;
    simpl in *; try discriminate; [reflexivity|]. now rewrite IH by lia.
Qed.

Lemma make_output_vehicle :
  map d_vehicle_id (make_output frame ds accs) =
  map (fun r => Some (vehicle_id (sample r))) frame.
Proof.
  revert ds accs Hds Haccs.
  induction frame as [|r rows IH]; intros [|d ds'] [|a accs'] H1 H2;
    simpl in *; try discriminate; [reflexivity|]. now rewrite IH by lia.
Qed.

Lemma make_output_timestamp :
  map d_timestamp (make_output frame ds accs) =
  map (fun r => Some (timestamp (sample r))) frame.
Proof.
  revert ds accs Hds Haccs.
  induction frame as [|r rows IH]; intros [|d ds'] [|a accs'] H1 H2;
    simpl in *; try discriminate; [reflexivity|]. now rewrite IH by lia.
Qed.

Lemma make_output_speed :
  map d_speed (make_output frame ds accs) = map speed frame.
Proof.
  revert ds accs Hds Haccs.
  induction frame as [|r rows IH]; intros [|d ds'] [|a accs'] H1 H2;
    simpl in *; try discriminate; [reflexivity|]. now rewrite IH by lia.
Qed.

Lemma make_output_distance :
  map d_distance (make_output frame ds accs) = ds.
Proof.
  revert ds accs Hds Haccs.
  induction frame as [|r rows IH]; intros [|d ds'] [|a accs'] H1 H2;
    simpl in *; try discriminate; [reflexivity|]. now rewrite IH by lia.
Qed.

Lemma make_output_acceleration :
  map d_acceleration (make_output frame ds accs) = accs.
Proof.
  revert ds accs Hds Haccs.
  induction frame as [|r rows IH]; intros [|d ds'] [|a accs'] H1 H2;
    simpl in *; try discriminate; [reflexivity|]. now rewrite IH by lia.
Qed.

End Output.

Lemma working_frame_length (sorted : list LocationSample)
  (ds : list float64) :
  length ds = length sorted -> length (working_frame sorted ds) = length sorted.
Proof.
  intros H. unfold working_frame. apply make_rows_length.
  - apply time_diff_column_length.
  - rewrite speed_column_length; [exact H|].
    now rewrite time_diff_column_length.
Qed.

Lemma working_frame_sample (sorted : list LocationSample) (ds : list float64) :
  length ds = length sorted -> map sample (working_frame sorted ds) = sorted.
Proof.
  intros H. unfold working_frame. apply make_rows_sample.
  - apply time_diff_column_length.
  - rewrite speed_column_length; [exact H|].
    now rewrite time_diff_column_length.
Qed.


Lemma working_frame_speed (sorted : list LocationSample) (ds : list float64) :
  length ds = length sorted ->
  map speed (working_frame sorted ds) =
  speed_column (time_diff_column sorted) ds.
Proof.
  intros H. unfold working_frame. apply make_rows_speed.
  - apply time_diff_column_length.
  - rewrite speed_column_length; [exact H|].
    now rewrite time_diff_column_length.
Qed.

Lemma filter_outliers_length_le (o : CalcOptions) (frame : list Row) :
  (length (filter_outliers o frame) <= length frame)%nat.
Proof.
  unfold filter_outliers. destruct (outliers_requested o); [|lia].
  apply select_length_le.
Qed.

Lemma filter_outliers_all (o : CalcOptions) (frame : list Row) :
  length (filter_outliers o frame) = length frame ->
  filter_outliers o frame = frame.
Proof.
  unfold filter_outliers. destruct (outliers_requested o); [|reflexivity].
  apply select_all.
Qed.

(** The three ways the assignment of the distance column can end: every
    row was kept and the call returns their records; no row of a frame
    with rows was kept and the call returns the rebuilt frame; some rows,
    not all, were dropped and the assignment is refused. *)
Lemma process_location_data_cases (data : list LocationSample)
  (o : CalcOptions) (ds : list float64) :
  distances_column (sort_by_time data) = inr ds ->
  let frame := working_frame (sort_by_time data) ds in
  (filter_outliers o frame = frame
   /\ process_location_data data o =
      Ok (make_output frame ds (acceleration_column frame)))
  \/ (filter_outliers o frame = [] /\ data <> []
      /\ process_location_data data o = Ok (map rebuilt_row ds))
  \/ (exists k,
        (0 < k < length data)%nat
        /\ length (filter_outliers o frame) = k
        /\ process_location_data data o =
           ValueError "Error processing location data"
                      (LengthMismatch (length data) k)).
Proof.
  intros Hd frame.
  pose proof (distances_column_length _ _ Hd) as Hl.
  rewrite sort_by_time_length in Hl.
  assert (Hw : length frame = length data).
  { unfold frame. rewrite working_frame_length; [apply sort_by_time_length|].
    now rewrite sort_by_time_length. }
  pose proof (filter_outliers_length_le o frame) as Hle.
  pose proof (filter_outliers_all o frame) as Hall.
  unfold process_location_data. rewrite Hd. cbv zeta. fold frame.
  destruct (filter_outliers o frame) as [|r kept] eqn:Ek.
  - destruct ds as [|d ds].
    + left. simpl in Hl.
      assert (E : frame = [])
        by (destruct frame; [reflexivity|simpl in Hw; lia]).
      split; [now symmetry|]. now rewrite E.
    + right. left. split; [reflexivity|]. split; [|reflexivity].
      intros ->. discriminate.
  - cbv iota. rewrite Hl.
    destruct (length data =? length (r :: kept))%nat eqn:E.
    + apply Nat.eqb_eq in E. left.
      rewrite <- Hall by lia. split; reflexivity.
    + apply Nat.eqb_neq in E. right. right.
      exists (length (r :: kept)). split; [simpl in *; lia|].
      split; reflexivity.
Qed.

(** A call that returns has computed the distances, and it returns one
    record per row: the records of the sorted frame when no row was lost
    to the outlier filter, the rebuilt frame when every row was. *)
Lemma process_location_data_ok (data : list LocationSample) (o : CalcOptions)
  (out : list DerivedSample) :
  process_location_data data o = Ok out ->
  exists ds,
    distances_column (sort_by_time data) = inr ds
    /\ length ds = length data
    /\ ((filter_outliers o (working_frame (sort_by_time data) ds)
         = working_frame (sort_by_time data) ds
         /\ out = make_output (working_frame (sort_by_time data) ds) ds
                    (acceleration_column
                       (working_frame (sort_by_time data) ds)))
        \/ (filter_outliers o (working_frame (sort_by_time data) ds) = []
            /\ data <> []
            /\ out = map rebuilt_row ds)).
Proof.
  intros H.
  destruct (distances_column (sort_by_time data)) as [e|ds] eqn:Hd.
  { unfold process_location_data in H. rewrite Hd in H. discriminate. }
  pose proof (distances_column_length _ _ Hd) as Hl.
  rewrite sort_by_time_length in Hl.
  exists ds. split; [reflexivity|]. split; [exact Hl|].
  destruct (process_location_data_cases data o ds Hd)
    as [[Hk Hp]|[[Hk [Hne Hp]]|[k [_ [_ Hp]]]]];
    rewrite Hp in H; inversion H; subst; auto.
Qed.

(** With the filter switched off no row is lost. *)
Lemma process_location_data_unfiltered (data : list LocationSample)
  (o : CalcOptions) (out : list DerivedSample) :
  outliers_requested o = false ->
  process_location_data data o = Ok out ->
  exists ds,
    distances_column (sort_by_time data) = inr ds
    /\ length ds = length data
    /\ out = make_output (working_frame (sort_by_time data) ds) ds
               (acceleration_column (working_frame (sort_by_time data) ds)).
Proof.
  intros Hoff H.
  destruct (process_location_data_ok _ _ _ H)
    as [ds [Hd [Hl [[_ E]|[Hk [Hne _]]]]]].
  - exists ds. auto.
  - exfalso. unfold filter_outliers in Hk. rewrite Hoff in Hk.
    apply (f_equal (@length _)) in Hk.
    rewrite working_frame_length in Hk by now rewrite sort_by_time_length.
    rewrite sort_by_time_length in Hk. destruct data; [congruence|discriminate].
Qed.

(** Conversely, a call whose distances are computed and whose filter keeps
    every row returns. *)
Lemma process_location_data_returns (data : list LocationSample)
  (o : CalcOptions) (ds : list float64) :
  distances_column (sort_by_time data) = inr ds ->
  filter_outliers o (working_frame (sort_by_time data) ds)
  = working_frame (sort_by_time data) ds ->
  process_location_data data o =
  Ok (make_output (working_frame (sort_by_time data) ds) ds
        (acceleration_column (working_frame (sort_by_time data) ds))).
Proof.
  intros Hd Hk.
  pose proof (distances_column_length _ _ Hd) as Hl.
  rewrite sort_by_time_length in Hl.
  assert (Hw : length (working_frame (sort_by_time data) ds) = length data).
  { rewrite working_frame_length; [apply sort_by_time_length|].
    now rewrite sort_by_time_length. }
  destruct (process_location_data_cases data o ds Hd)
    as [[_ Hp]|[[Hk' [Hne _]]|[k [Hk' [Hlen _]]]]].
  - exact Hp.
  - exfalso. rewrite Hk in Hk'. rewrite Hk' in Hw.
    destruct data; [congruence|discriminate].
  - exfalso. rewrite Hk, Hw in Hlen. lia.
Qed.

End KinematicsFacts.

(** ** Row by row *)

Module RowFacts.
Import Kinematics KinematicsFacts Reference.

Lemma nth_error_speed_column (tds ds : list float64) (i : nat) (s : float64) :
  nth_error (speed_column tds ds) i = Some s ->
  exists td d,
    nth_error tds i = Some td /\ nth_error ds i = Some d /\ s = speed_of td d.
Proof.
  revert ds i. induction tds as [|t tds IH]; intros [|d ds] i H;
    simpl in H; try (destruct i; discriminate).
  destruct i as [|i]; simpl in *.
  - inversion H. now exists t, d.
  - now apply IH.
Qed.

Lemma nth_error_proj {A B} (f : A -> B) (l : list A) (l' : list B) (i : nat)
  (a : A) :
  map f l = l' -> nth_error l i = Some a -> nth_error l' i = Some (f a).
Proof. intros <- H. now apply map_nth_error. Qed.

(** Projections of the records of the sorted frame. *)
Lemma kept_columns (data : list LocationSample) (ds : list float64) :
  distances_column (sort_by_time data) = inr ds ->
  let out := make_output (working_frame (sort_by_time data) ds) ds
               (acceleration_column (working_frame (sort_by_time data) ds)) in
  length out = length data
  /\ map d_vehicle_id out
     = map (fun s => Some (vehicle_id s)) (sort_by_time data)
  /\ map d_timestamp out
     = map (fun s => Some (timestamp s)) (sort_by_time data)
  /\ map d_speed out = speed_column (time_diff_column (sort_by_time data)) ds
  /\ map d_distance out = ds
  /\ map d_acceleration out =
     acceleration_column (working_frame (sort_by_time data) ds).
Proof.
  intros Hd out. unfold out.
  assert (Hs : length ds = length (sort_by_time data))
    by (eapply distances_column_length; eauto).
  assert (H1 : length ds = length (working_frame (sort_by_time data) ds))
    by now rewrite working_frame_length.
  assert (H2 : length (acceleration_column (working_frame (sort_by_time data) ds))
               = length (working_frame (sort_by_time data) ds))
    by apply acceleration_column_length.
  split.
  - rewrite make_output_length, working_frame_length, sort_by_time_length
      by assumption. reflexivity.
  - rewrite make_output_vehicle, make_output_timestamp, make_output_speed,
      make_output_distance, make_output_acceleration by assumption.
    rewrite working_frame_speed by exact Hs.
    rewrite <- (map_map sample (fun s => Some (vehicle_id s))),
      <- (map_map sample (fun s => Some (timestamp s))).
    rewrite working_frame_sample by exact Hs.
    repeat split; reflexivity.
Qed.

(** A result whose records all name their vehicle is not the rebuilt
    frame. *)
Lemma identified_not_rebuilt (ds : list float64) :
  ds <> [] -> ~ identified (map rebuilt_row ds).
Proof.
  intros Hne H. destruct ds as [|d ds]; [congruence|].
  inversion H as [|? ? Hd _]. now apply Hd.
Qed.

Lemma rebuilt_not_empty (data : list LocationSample) (ds : list float64) :
  length ds = length data -> data <> [] -> ds <> [].
Proof. intros Hl Hne ->. destruct data; [congruence|discriminate]. Qed.



(** Projections of the records returned by a successful call whose
    records name their vehicle. *)
Lemma output_columns (data : list LocationSample) (o : CalcOptions)
  (out : list DerivedSample) :
  process_location_data data o = Ok out ->
  identified out ->
  exists ds,
    distances_column (sort_by_time data) = inr ds
    /\ filter_outliers o (working_frame (sort_by_time data) ds)
       = working_frame (sort_by_time data) ds
    /\ length out = length data
    /\ map d_vehicle_id out
       = map (fun s => Some (vehicle_id s)) (sort_by_time data)
    /\ map d_timestamp out
       = map (fun s => Some (timestamp s)) (sort_by_time data)
    /\ map d_speed out = speed_column (time_diff_column (sort_by_time data)) ds
    /\ map d_distance out = ds
    /\ map d_acceleration out =
       acceleration_column (working_frame (sort_by_time data) ds).
Proof.
  intros H Hid.
  destruct (process_location_data_ok _ _ _ H)
    as [ds [Hd [Hl [[Hk ->]|[_ [Hne ->]]]]]].
  - exists ds. split; [exact Hd|]. split; [exact Hk|].
    apply (kept_columns data ds Hd).
  - exfalso. apply (identified_not_rebuilt ds); [|exact Hid].
    now apply (rebuilt_not_empty data).
Qed.

(** With the filter switched off every returned record names its
    vehicle. *)
Lemma unfiltered_identified (data : list LocationSample) (o : CalcOptions)
  (out : list DerivedSample) :
  outliers_requested o = false ->
  process_location_data data o = Ok out ->
  identified out.
Proof.
  intros Hoff H.
  destruct (process_location_data_unfiltered _ _ _ Hoff H)
    as [ds [Hd [Hl ->]]].
  destruct (kept_columns data ds Hd) as [_ [Hv _]].
  unfold identified. apply Forall_forall. intros r Hr.
  apply (in_map d_vehicle_id) in Hr. rewrite Hv in Hr.
  apply in_map_iff in Hr. destruct Hr as [s [<- _]]. discriminate.
Qed.

(** The first row of a key has no difference. *)
Lemma group_diff_first {V} (sub : V -> V -> float64) (k : string)
  (rows seen : list (string * V)) (i : nat) :
  nth_error (map fst rows) i = Some k ->
  (forall j, (j < i)%nat -> nth_error (map fst rows) j <> Some k) ->
  last_seen k seen = None ->
  nth_error (group_diff sub seen rows) i = Some NaN.
Proof.
  revert seen i. induction rows as [|[k' x] rows IH]; intros seen i Hi Hbefore Hseen.
  - destruct i; discriminate.
  - destruct i as [|i]; simpl in *.
    + inversion Hi; subst. now rewrite Hseen.
    + apply IH.
      * exact Hi.
      * intros j Hj. apply (Hbefore (S j)). lia.
      * simpl. destruct (String.eqb k' k) eqn:E; [|exact Hseen].
        apply String.eqb_eq in E. subst.
        exfalso. apply (Hbefore 0%nat); [lia|reflexivity].
Qed.

Lemma first_key_position (v : string) (pre post : list string) :
  Forall (fun k => k <> v) pre ->
  nth_error (pre ++ v :: post) (length pre) = Some v
  /\ forall j, (j < length pre)%nat -> nth_error (pre ++ v :: post) j <> Some v.
Proof.
  intros H. split.
  - rewrite nth_error_app2, Nat.sub_diag by lia. reflexivity.
  - intros j Hj. rewrite nth_error_app1 by exact Hj. intros E.
    apply nth_error_In in E. rewrite Forall_forall in H.
    now apply (H v).
Qed.

Lemma same_as_previous_first (v : string) (s : LocationSample)
  (pre post : list LocationSample) (p : option string) :
  vehicle_id s = v ->
  Forall (fun x => vehicle_id x <> v) pre ->
  match p with Some q => q <> v | None => True end ->
  nth_error (same_as_previous p (pre ++ s :: post)) (length pre) = Some false.
Proof.
  intros Hs. revert p. induction pre as [|y pre IH]; intros p Hpre Hp.
  - simpl. destruct p as [q|]; [|reflexivity].
    destruct (String.eqb q (vehicle_id s)) eqn:E; [|reflexivity].
    apply String.eqb_eq in E. congruence.
  - inversion Hpre; subst. simpl. apply IH; assumption.
Qed.





Lemma filter_length_perm {A} (f : A -> bool) (l l' : list A) :
  Permutation l l' -> length (filter f l) = length (filter f l').
Proof.
  induction 1 as [|x l l' _ IH|x y l|l l' l'' _ IH1 _ IH2]; simpl.
  - reflexivity.
  - destruct (f x); simpl; now rewrite IH.
  - destruct (f x), (f y); reflexivity.
  - now rewrite IH1.
Qed.

Lemma first_of_vehicle (v : string) (l : list LocationSample) :
  filter (fun s => String.eqb (vehicle_id s) v) l <> [] ->
  exists pre s post,
    l = pre ++ s :: post /\ vehicle_id s = v
    /\ Forall (fun x => vehicle_id x <> v) pre.
Proof.
  induction l as [|x l IH]; simpl; [congruence|].
  destruct (String.eqb (vehicle_id x) v) eqn:E.
  - intros _. apply String.eqb_eq in E.
    exists [], x, l. repeat split; [exact E|constructor].
  - intros H. destruct (IH H) as [pre [s [post [-> [Hs Hpre]]]]].
    exists (x :: pre), s, post. repeat split; [exact Hs|].
    constructor; [|exact Hpre].
    intros Hx. rewrite Hx, String.eqb_refl in E. discriminate.
Qed.


End RowFacts.

(** ** Kinematics claims *)

Module KinematicsClaims.
Import Kinematics KinematicsFacts RowFacts FiniteFacts Reference.

Lemma speed_of_unless_positive (td d : float64) :
  fgtb td (Fin 0) = false -> speed_of td d = Fin 0.
Proof. intros H. unfold speed_of. now rewrite H. Qed.

Lemma speed_of_nan (d : float64) : speed_of NaN d = Fin 0.
Proof. reflexivity. Qed.

Lemma speed_of_nonpos (t : R) (d : float64) :
  t <= 0 -> speed_of (Fin t) d = Fin 0.
Proof. intros H. unfold speed_of, fgtb, fltb. now rewrite Rltb_false. Qed.

Lemma speed_of_pos (t : R) (d : float64) :
  0 < t -> speed_of (Fin t) d = fmul (fdiv d (Fin t)) (Fin 3600).
Proof. intros H. unfold speed_of, fgtb, fltb. now rewrite Rltb_true. Qed.

Lemma speed_of_pos_fin (t d : R) :
  0 < t -> speed_of (Fin t) (Fin d) = Fin (d / t * 3600).
Proof.
  intros H. rewrite speed_of_pos by exact H.
  rewrite fdiv_fin by lra. reflexivity.
Qed.

Lemma returned_speed (data : list LocationSample) (o : CalcOptions)
  (out : list DerivedSample) (i : nat) (r : DerivedSample) :
  process_location_data data o = Ok out ->
  identified out ->
  nth_error out i = Some r ->
  exists td,
    nth_error (time_diff_column (sort_by_time data)) i = Some td
    /\ d_speed r = speed_of td (d_distance r).
Proof.
  intros H Hid Hr.
  destruct (output_columns _ _ _ H Hid) as [ds [_ [_ [_ [_ [_ [Hs [Hd _]]]]]]]].
  pose proof (nth_error_proj d_speed _ _ _ _ Hs Hr) as H1.
  pose proof (nth_error_proj d_distance _ _ _ _ Hd Hr) as H2.
  apply nth_error_speed_column in H1.
  destruct H1 as [td [d [Ht [Hd' E]]]].
  exists td. split; [exact Ht|]. congruence.
Qed.

Lemma consecutive_distances_length (rows : list LocationSample) :
  length (consecutive_distances rows) = pred (length rows).
Proof.
  induction rows as [|a rows IH]; [reflexivity|].
  destruct rows as [|b rows]; [reflexivity|].
  change (S (length (consecutive_distances (b :: rows)))
          = pred (length (a :: b :: rows))).
  rewrite IH. reflexivity.
Qed.

Lemma same_vehicle_mask (v : string) (rows : list LocationSample) :
  Forall (fun s => vehicle_id s = v) rows ->
  count_true (same_as_previous (Some v) rows) = length rows.
Proof.
  unfold count_true. induction 1 as [|s rows Hs _ IH]; [reflexivity|].
  simpl. rewrite Hs, String.eqb_refl. simpl. now rewrite IH.
Qed.

(** A batch from a single vehicle always gets its distances. *)
Lemma single_vehicle_distances (v : string) (rows : list LocationSample) :
  Forall (fun s => vehicle_id s = v) rows ->
  exists ds, distances_column rows = inr ds.
Proof.
  intros H. unfold distances_column, assign_masked.
  assert (E : length (consecutive_distances rows)
              = count_true (same_as_previous None rows)).
  { rewrite consecutive_distances_length.
    destruct H as [|s rows Hs H]; [reflexivity|].
    simpl. unfold count_true in *. simpl.
    rewrite Hs. apply eq_sym, (same_vehicle_mask v rows H). }
  rewrite E, Nat.eqb_refl. eexists. reflexivity.
Qed.

Lemma single_vehicle_returns (v : string) (data : list LocationSample)
  (threshold : option float64) :
  Forall (fun s => vehicle_id s = v) data ->
  is_ok (process_location_data data
           {| remove_outliers := Some false;
              outlier_z_threshold := threshold |}) = true.
Proof.
  intros H.
  assert (Hs : Forall (fun s => vehicle_id s = v) (sort_by_time data)).
  { eapply Permutation_Forall; [|exact H].
    symmetry. apply sort_by_time_perm. }
  destruct (single_vehicle_distances v _ Hs) as [ds Hd].
  erewrite process_location_data_returns; [reflexivity|exact Hd|reflexivity].
Qed.

(** The speed of a row is exactly 0 whenever its time difference is not
    positive: undefined (NaN, the first row of a vehicle), zero (identical
    timestamps) or negative; it is [distance / time_diff * 3600] when the
    time difference is positive.  The guarded division raises nothing:
    [speed_of] is total, every record of a returned result that names its
    vehicle carries the speed so computed from the time difference and
    distance of its own row, and a single-vehicle batch processed without
    outlier removal always returns, whatever its timestamps. *)
Lemma speed_is_zero_unless_time_advances :
  (forall td d, fgtb td (Fin 0) = false -> speed_of td d = Fin 0)
  /\ (forall d, speed_of NaN d = Fin 0)
  /\ (forall t d, t <= 0 -> speed_of (Fin t) d = Fin 0)
  /\ (forall t d, 0 < t ->
        speed_of (Fin t) d = fmul (fdiv d (Fin t)) (Fin 3600))
  /\ (forall t d, 0 < t -> speed_of (Fin t) (Fin d) = Fin (d / t * 3600))
  /\ (forall data o out i r,
        process_location_data data o = Ok out ->
        identified out ->
        nth_error out i = Some r ->
        exists td,
          nth_error (time_diff_column (sort_by_time data)) i = Some td
          /\ d_speed r = speed_of td (d_distance r))
  /\ (forall v data threshold,
        Forall (fun s => vehicle_id s = v) data ->
        is_ok (process_location_data data
                 {| remove_outliers := Some false;
                    outlier_z_threshold := threshold |}) = true).
Proof.
  split; [exact speed_of_unless_positive|].
  split; [exact speed_of_nan|].
  split; [exact speed_of_nonpos|].
  split; [exact speed_of_pos|].
  split; [exact speed_of_pos_fin|].
  split; [exact returned_speed|exact single_vehicle_returns].
Qed.

(** The row of a vehicle with a single sample, in the sorted frame of any
    batch: it has no time difference (NaN), so its speed is 0 whatever the
    distances, and it does not continue the vehicle of the row before, so
    no distance is written to it. *)
Lemma lone_vehicle_row (data : list LocationSample) (v : string) :
  length (filter (fun s => String.eqb (vehicle_id s) v) data) = 1%nat ->
  exists i s,
    nth_error (sort_by_time data) i = Some s
    /\ vehicle_id s = v
    /\ nth_error (time_diff_column (sort_by_time data)) i = Some NaN
    /\ (forall d, speed_of NaN d = Fin 0)
    /\ nth_error (same_as_previous None (sort_by_time data)) i = Some false.
Proof.
  intros Hone.
  assert (Hsorted : length (filter (fun s => String.eqb (vehicle_id s) v)
                                   (sort_by_time data)) = 1%nat).
  { rewrite (filter_length_perm _ _ _ (sort_by_time_perm data)). exact Hone. }
  destruct (first_of_vehicle v (sort_by_time data))
    as [pre [s [post [Esorted [Hsv Hpre]]]]].
  { intros E. rewrite E in Hsorted. discriminate. }
  exists (length pre), s. split.
  { rewrite Esorted, nth_error_app2, Nat.sub_diag by lia. reflexivity. }
  split; [exact Hsv|]. split; [|split; [exact speed_of_nan|]].
  - assert (Hkeys : nth_error (map vehicle_id (sort_by_time data))
                      (length pre) = Some v
                    /\ forall j, (j < length pre)%nat ->
                         nth_error (map vehicle_id (sort_by_time data)) j
                         <> Some v).
    { rewrite Esorted, map_app. simpl. rewrite Hsv.
      rewrite <- (length_map vehicle_id pre).
      apply first_key_position. apply Forall_map.
      eapply Forall_impl; [|exact Hpre]. auto. }
    destruct Hkeys as [Hk Hbefore].
    unfold time_diff_column.
    apply (group_diff_first _ v); rewrite ?map_map; simpl;
      [exact Hk|exact Hbefore|reflexivity].
  - rewrite Esorted. now apply (same_as_previous_first v).
Qed.


End KinematicsClaims.

(** ** The outlier filter *)

Module FilterClaims.
Import Kinematics KinematicsFacts RowFacts Reference.








End FilterClaims.

Module KinematicsExamples.
Import Kinematics KinematicsFacts RowFacts KinematicsClaims FilterClaims.
Import FiniteFacts Reference Examples.



(** A batch of three rows from two vehicles is refused whatever the
    options: the two consecutive distances do not fit the one row that
    continues its predecessor's vehicle. *)
Lemma mixed_batch_is_refused (o : CalcOptions) :
  process_location_data lone_and_pair o =
  ValueError "Error processing location data" (BooleanAssignMismatch 2 1).
Proof. reflexivity. Qed.

(** Identical timestamps, outlier removal switched off: the speed is 0
    and the call returns. *)
Lemma same_instant_speed_is_zero :
  exists d a,
    process_location_data same_instant (options (Some false) None) =
    Ok [ {| d_vehicle_id := Some "a"%string; d_timestamp := Some 0%Z;
            d_speed := Fin 0; d_distance := Fin 0;
            d_acceleration := NaN |};
         {| d_vehicle_id := Some "a"%string; d_timestamp := Some 0%Z;
            d_speed := Fin 0;
            d_distance := d; d_acceleration := a |} ].
Proof.
  unfold process_location_data. cbn -[speed_of step_distance fdiv fsub].
  unfold working_frame, time_diff_column, total_seconds.
  cbn -[speed_of step_distance fdiv fsub].
  rewrite speed_of_nonpos by lra.
  do 2 eexists. reflexivity.
Qed.

Lemma same_instant_speeds :
  map speed
      (working_frame (sort_by_time same_instant)
         [Fin 0; step_distance (fix_ "a" 0 0 0) (fix_ "a" 0 1 0)])
  = [Fin 0; Fin 0].
Proof.
  unfold working_frame, time_diff_column, total_seconds.
  cbn -[speed_of step_distance].
  now rewrite speed_of_nonpos by lra.
Qed.

(** Under the default options (outlier removal on) the two equal speeds
    have NaN z-scores, the filter [z_scores < 3] keeps no row, and the
    assignment of the two distances rebuilds the frame. *)
Lemma same_instant_rebuilt (remove : option bool) :
  outliers_requested (options remove None) = true ->
  process_location_data same_instant (options remove None)
  = Ok [ rebuilt_row (Fin 0);
         rebuilt_row (step_distance (fix_ "a" 0 0 0) (fix_ "a" 0 1 0)) ].
Proof.
  intros Hreq. unfold process_location_data.
  change (distances_column (sort_by_time same_instant))
    with (@inr cause _
            [Fin 0; step_distance (fix_ "a" 0 0 0) (fix_ "a" 0 1 0)]).
  cbv beta iota zeta. unfold filter_outliers, outlier_mask.
  rewrite Hreq, same_instant_speeds.
  pose proof (zscore_repeat (Fin 0) 2) as Hz. cbn [repeat] in Hz.
  rewrite Hz. reflexivity.
Qed.

(** C9 at its failing input.  For two samples of one vehicle with the same
    timestamp the speed column is [0; 0], as the guard intends, and no
    error is raised; but under the default options (outlier removal on)
    the call does not return these speeds: the equal speeds have NaN
    z-scores, the filter [z_scores < 3] empties the frame, the assignment
    of the two distances rebuilds it, and both returned records carry an
    undefined (NaN) speed and no vehicle. *)
Theorem C9_identical_timestamps_lose_their_speed_under_default_options :
  map speed
      (working_frame (sort_by_time same_instant)
         [Fin 0; step_distance (fix_ "a" 0 0 0) (fix_ "a" 0 1 0)])
  = [Fin 0; Fin 0]
  /\ (exists out,
        process_location_data same_instant (options None None) = Ok out
        /\ process_location_data same_instant (options (Some true) None)
           = Ok out
        /\ map d_speed out = [NaN; NaN]
        /\ map d_vehicle_id out = [None; None]
        /\ map d_timestamp out = [None; None]
        /\ map d_acceleration out = [NaN; NaN])
  /\ (exists out,
        process_location_data same_instant (options (Some false) None)
        = Ok out
        /\ map d_speed out = [Fin 0; Fin 0]).
Proof.
  split; [exact same_instant_speeds|]. split.
  - eexists. split; [apply same_instant_rebuilt; reflexivity|].
    split; [apply same_instant_rebuilt; reflexivity|].
    repeat split; reflexivity.
  - destruct same_instant_speed_is_zero as [d [a H]].
    eexists. split; [exact H|reflexivity].
Qed.

Lemma one_hour_north_distance :
  step_distance (fix_ "a" 0 0 0) (fix_ "a" 3600000000000 1 0)
  = Fin km_per_degree.
Proof.
  unfold step_distance, fix_. reval. f_equal.
  replace ((1 + - 0) * (1 + - 0) + (0 + - 0) * (0 + - 0)) with (1 * 1) by lra.
  rewrite sqrt_square by lra. lra.
Qed.

Lemma one_hour_north_processed (threshold : option float64) :
  exists a,
    process_location_data one_hour_north (options (Some true) threshold) =
    Ok [ {| d_vehicle_id := Some "a"%string; d_timestamp := Some 0%Z;
            d_speed := Fin 0; d_distance := Fin 0;
            d_acceleration := NaN |};
         {| d_vehicle_id := Some "a"%string; d_timestamp := Some 3600000000000%Z;
            d_speed := Fin km_per_degree;
            d_distance := Fin km_per_degree; d_acceleration := a |} ].
Proof.
  assert (Hd : distances_column (sort_by_time one_hour_north)
               = inr [Fin 0; Fin km_per_degree]).
  { rewrite <- one_hour_north_distance. reflexivity. }
  assert (Hf : working_frame (sort_by_time one_hour_north)
                 [Fin 0; Fin km_per_degree]
               = [ {| sample := fix_ "a" 0 0 0; time_diff := NaN;
                      speed := Fin 0 |};
                   {| sample := fix_ "a" 3600000000000 1 0;
                      time_diff := Fin 3600;
                      speed := Fin km_per_degree |} ]).
  { unfold working_frame, time_diff_column, total_seconds.
    cbn -[speed_of km_per_degree].
    replace (3600000000000 / 1000000000) with 3600 by lra.
    rewrite speed_of_pos_fin by lra.
    replace (km_per_degree / 3600 * 3600) with km_per_degree by lra.
    reflexivity. }
  assert (Hk : filter_outliers (options (Some true) threshold)
                 (working_frame (sort_by_time one_hour_north)
                    [Fin 0; Fin km_per_degree])
               = working_frame (sort_by_time one_hour_north)
                   [Fin 0; Fin km_per_degree]).
  { rewrite Hf. unfold filter_outliers, outlier_mask. cbn [outliers_requested
      options remove_outliers map speed].
    rewrite zscore_pair by (unfold km_per_degree; lra).
    cbn [map]. rewrite fabs_minus_one, fabs_one.
    unfold fltb. rewrite Rltb_true by lra. reflexivity. }
  rewrite (process_location_data_returns _ _ _ Hd Hk), Hf.
  eexists. reflexivity.
Qed.


(** The default applies the filter: a lone sample has no spread, its
    z-score is NaN and the filter rejects it, so the call returns the
    rebuilt frame, whereas it returns the row itself once the filter is
    switched off. *)
Lemma default_options_filter :
  process_location_data [fix_ "a" 0 0 0] (options None None)
  = process_location_data [fix_ "a" 0 0 0] (options (Some true) None)
  /\ process_location_data [fix_ "a" 0 0 0] (options None None)
     = Ok [rebuilt_row (Fin 0)]
  /\ process_location_data [fix_ "a" 0 0 0] (options (Some false) None)
     = Ok [ {| d_vehicle_id := Some "a"%string; d_timestamp := Some 0%Z;
               d_speed := Fin 0; d_distance := Fin 0;
               d_acceleration := NaN |} ].
Proof.
  split; [reflexivity|]. split; [|reflexivity].
  unfold process_location_data, filter_outliers, outlier_mask, working_frame.
  cbn -[zscore].
  pose proof (zscore_repeat (Fin 0) 1) as Hz. cbn [repeat] in Hz.
  rewrite Hz. reflexivity.
Qed.

End KinematicsExamples.

(** ** The efficiency scorer *)

Module EfficiencyFacts.
Import Efficiency Reference FiniteFacts ZscoreFacts.

(** [scores.mean()] is a Series, so the list handed to [np.mean] mixes two
    scalars with a sequence and the call never gets past it. *)
Lemma analyze_delivery_efficiency_raises (delivery_data : list DeliveryRecord)
  (parameters : Parameters) :
  analyze_delivery_efficiency delivery_data parameters =
  ValueError "Error analyzing delivery efficiency" InhomogeneousShape.
Proof. reflexivity. Qed.

Lemma rint_between (a b : Z) (y : R) :
  IZR a <= y <= IZR b -> (a <= rint y <= b)%Z.
Proof.
  intros [Ha Hb]. unfold rint.
  pose proof (Zfloor_bound y) as [Hf1 Hf2].
  pose proof (Zfloor_lub a y Ha) as Hlo.
  assert (Hhi : y < IZR b -> (Zfloor y + 1 <= b)%Z).
  { intros Hlt. assert (IZR (Zfloor y) < IZR b) by lra.
    apply lt_IZR in H. lia. }
  assert (Htop : (Zfloor y <= b)%Z).
  { apply le_IZR. lra. }
  destruct (Rltb (y - IZR (Zfloor y)) (1 / 2)) eqn:E1; [lia|].
  assert (Hy : y < IZR b -> (Zfloor y + 1 <= b)%Z) by exact Hhi.
  assert (Hlt : y < IZR b).
  { destruct (Rlt_dec y (IZR b)) as [H|H]; [exact H|].
    assert (Ey : y = IZR b) by lra.
    rewrite Ey, ZfloorZ in E1.
    rewrite Rltb_true in E1 by lra. discriminate. }
  specialize (Hy Hlt).
  destruct (Rltb (1 / 2) (y - IZR (Zfloor y))); [lia|].
  destruct (Z.even (Zfloor y)); lia.
Qed.

Lemma rint_IZR (z : Z) : rint (IZR z) = z.
Proof.
  unfold rint. rewrite ZfloorZ. now rewrite Rltb_true by lra.
Qed.

(** Rounding to two decimals keeps a value of [0, 100] in [0, 100]. *)
Lemma round2_in_range (x : R) : 0 <= x <= 100 -> in_range (round2 (Fin x)).
Proof.
  intros H. eexists. split; [reflexivity|].
  destruct (rint_between 0 10000 (x * 100)) as [H1 H2]; [lra|].
  apply IZR_le in H1, H2. lra.
Qed.

Lemma Rsum_indicator (bs : list bool) :
  0 <= Rsum (map (fun b : bool => if b then 1 else 0) bs) <= INR (length bs).
Proof.
  induction bs as [|b bs IH]; [simpl; lra|].
  change (length (b :: bs)) with (S (length bs)). rewrite S_INR.
  simpl. destruct b; lra.
Qed.

Lemma map_of_bool (bs : list bool) :
  map of_bool bs = map Fin (map (fun b : bool => if b then 1 else 0) bs).
Proof.
  rewrite map_map. apply map_ext. now intros [].
Qed.

(** The on-time percentage of a non-empty batch is a percentage. *)
Lemma on_time_percentage_range (delivery_data : list DeliveryRecord) :
  delivery_data <> [] ->
  exists p, on_time_percentage (delivery_stats delivery_data) = Fin p
            /\ 0 <= p <= 100.
Proof.
  intros Hne. unfold delivery_stats. cbn [on_time_percentage].
  rewrite <- (map_map (fun r => fleb (actual_time r) (planned_time r)) of_bool).
  set (bs := map (fun r => fleb (actual_time r) (planned_time r)) delivery_data).
  assert (Hbs : bs <> []).
  { unfold bs. destruct delivery_data; [congruence|discriminate]. }
  rewrite map_of_bool. unfold pd_mean. rewrite dropna_fin.
  rewrite np_mean_fin by (destruct bs; [congruence|discriminate]).
  rewrite length_map. eexists. split; [reflexivity|].
  pose proof (Rsum_indicator bs) as [H1 H2].
  assert (Hn : 0 < INR (length bs)).
  { destruct bs; [congruence|]. apply INR_length_pos. }
  split.
  - apply Rmult_le_pos; [|lra].
    apply Rmult_le_pos; [exact H1|]. apply Rlt_le, Rinv_0_lt_compat, Hn.
  - assert (Rsum (map (fun b : bool => if b then 1 else 0) bs)
            / INR (length bs) <= 1).
    { apply (Rmult_le_reg_r (INR (length bs))); [exact Hn|].
      unfold Rdiv. rewrite Rmult_assoc, Rinv_l by lra. lra. }
    lra.
Qed.

Lemma utilization_needs_rows (delivery_data : list DeliveryRecord) (u : R) :
  distance_utilization (route_efficiency_of delivery_data) = Fin u ->
  delivery_data <> [].
Proof.
  intros H ->. unfold route_efficiency_of in H. cbn in H.
  unfold pd_mean, np_mean, np_sum in H. cbn in H.
  rewrite Reqb_true in H by reflexivity. discriminate.
Qed.

(** A finite feature term is at most 1. *)
Lemma feature_term_le_1 (delivery_data : list DeliveryRecord) (c : R) :
  In (Fin c) (feature_term delivery_data) -> c <= 1.
Proof.
  unfold feature_term. intros H. apply in_map_iff in H.
  destruct H as [m [E _]].
  destruct m as [| | |m]; simpl in E; try discriminate.
  inversion E. pose proof (Rabs_pos m). lra.
Qed.

Lemma raw_formula_fin (p u c : R) :
  raw_formula (Fin p) (Fin u) (Fin c)
  = Fin (100 * ((p / 100 + u / 100 + c) / 3)).
Proof.
  unfold raw_formula. rewrite !fdiv_fin by lra.
  change [Fin (p / 100); Fin (u / 100); Fin c]
    with (map Fin [p / 100; u / 100; c]).
  rewrite np_mean_fin by discriminate. cbn. do 2 f_equal. lra.
Qed.

(** The terms of the score.  For a batch with a finite distance
    utilization, the on-time percentage is a percentage, a finite feature
    term [1 - |mean z-score|] is at most 1 (on a finite feature column it
    is exactly 1, or NaN when the column is constant), and the average
    of the three terms, taken with one feature term, is
    [100 * (on_time/100 + utilization/100 + feature) / 3], whatever the
    utilization.  Rounded to two decimals it lies in [0, 100] when the
    distance utilization itself lies in [0, 100] and the feature term is
    not negative. *)
Lemma score_terms
  (delivery_data : list DeliveryRecord) (u c : R) :
  distance_utilization (route_efficiency_of delivery_data) = Fin u ->
  In (Fin c) (feature_term delivery_data) ->
  exists p,
    on_time_percentage (delivery_stats delivery_data) = Fin p
    /\ 0 <= p <= 100
    /\ c <= 1
    /\ raw_formula (Fin p) (Fin u) (Fin c)
       = Fin (100 * ((p / 100 + u / 100 + c) / 3))
    /\ (0 <= u <= 100 -> 0 <= c ->
        in_range (round2 (raw_formula (Fin p) (Fin u) (Fin c))))
    /\ (forall xs,
          fsub (Fin 1) (fabs (pd_mean (zscore (map Fin xs))))
          = if isconst (map Fin xs) then NaN else Fin 1).
Proof.
  intros Hu Hc.
  destruct (on_time_percentage_range delivery_data
              (utilization_needs_rows _ _ Hu)) as [p [Hp Hr]].
  pose proof (feature_term_le_1 _ _ Hc) as Hc1.
  exists p. split; [exact Hp|]. split; [exact Hr|]. split; [exact Hc1|].
  split; [apply raw_formula_fin|].
  split; [|exact feature_term_of_finite_column].
  intros Hur Hc0. rewrite raw_formula_fin. apply round2_in_range. lra.
Qed.

End EfficiencyFacts.

Module EfficiencyExamples.
Import Efficiency Reference FiniteFacts EfficiencyFacts Examples.

Lemma mean_of_pair_scores : pd_mean [Fin (-1); Fin 1] = Fin 0.
Proof.
  change [Fin (-1); Fin 1] with (map Fin [-1; 1]).
  unfold pd_mean. rewrite dropna_fin, np_mean_fin by discriminate.
  cbn. f_equal. lra.
Qed.

Lemma feature_term_of_pairs (batch : list DeliveryRecord) :
  map delivery_time batch = [Fin 0; Fin 2] ->
  map distance batch = [Fin 0; Fin 2] ->
  map fuel_consumption batch = [Fin 0; Fin 2] ->
  feature_term batch = [Fin 1; Fin 1; Fin 1].
Proof.
  intros H1 H2 H3. unfold feature_term, frame_mean, scores.
  rewrite H1, H2, H3, zscore_pair by lra.
  cbn [map snd]. rewrite mean_of_pair_scores.
  cbn. rewrite Rabs_R0.
  replace (1 + - 0) with 1 by lra. reflexivity.
Qed.

Lemma far_off_plan_utilization :
  distance_utilization (route_efficiency_of far_off_plan) = Fin 1000.
Proof.
  unfold route_efficiency_of, far_off_plan, delivery.
  cbn [distance_utilization map actual_distance planned_distance].
  rewrite !fdiv_fin by lra.
  change [Fin (10 / 1); Fin (10 / 1)] with (map Fin [10 / 1; 10 / 1]).
  unfold pd_mean. rewrite dropna_fin, np_mean_fin by discriminate.
  cbn. f_equal. lra.
Qed.

Lemma on_plan_utilization :
  distance_utilization (route_efficiency_of on_plan) = Fin 100.
Proof.
  unfold route_efficiency_of, on_plan, delivery.
  cbn [distance_utilization map actual_distance planned_distance].
  rewrite !fdiv_fin by lra.
  change [Fin (1 / 1); Fin (1 / 1)] with (map Fin [1 / 1; 1 / 1]).
  unfold pd_mean. rewrite dropna_fin, np_mean_fin by discriminate.
  cbn. f_equal. lra.
Qed.

Lemma far_off_plan_on_time :
  on_time_percentage (delivery_stats far_off_plan) = Fin 100.
Proof.
  unfold delivery_stats, far_off_plan, delivery.
  cbn [on_time_percentage map actual_time planned_time].
  unfold fleb. rewrite Rleb_true by lra. cbn [of_bool].
  change [Fin 1; Fin 1] with (map Fin [1; 1]).
  unfold pd_mean. rewrite dropna_fin, np_mean_fin by discriminate.
  cbn. f_equal. lra.
Qed.

Lemma round2_400 : round2 (Fin 400) = Fin 400.
Proof.
  unfold round2. replace (400 * 100) with (IZR 40000) by lra.
  rewrite rint_IZR. f_equal. lra.
Qed.

(** Nothing in the formula brings a value back into [0, 100]: on the
    terms of two on-time deliveries driven ten times the planned distance
    it gives 400. *)
Lemma far_off_plan_raw_score :
  on_time_percentage (delivery_stats far_off_plan) = Fin 100
  /\ distance_utilization (route_efficiency_of far_off_plan) = Fin 1000
  /\ feature_term far_off_plan = [Fin 1; Fin 1; Fin 1]
  /\ round2 (raw_formula (Fin 100) (Fin 1000) (Fin 1)) = Fin 400
  /\ ~ in_range (Fin 400).
Proof.
  split; [exact far_off_plan_on_time|].
  split; [exact far_off_plan_utilization|].
  split; [now apply feature_term_of_pairs|].
  split.
  - rewrite raw_formula_fin.
    replace (100 * ((100 / 100 + 1000 / 100 + 1) / 3)) with 400 by lra.
    apply round2_400.
  - intros [s [E [_ H]]]. inversion E. lra.
Qed.

Lemma on_plan_score_terms :
  exists p,
    on_time_percentage (delivery_stats on_plan) = Fin p
    /\ 0 <= p <= 100
    /\ 1 <= 1
    /\ raw_formula (Fin p) (Fin 100) (Fin 1)
       = Fin (100 * ((p / 100 + 100 / 100 + 1) / 3))
    /\ (0 <= 100 <= 100 -> 0 <= 1 ->
        in_range (round2 (raw_formula (Fin p) (Fin 100) (Fin 1))))
    /\ (forall xs,
          fsub (Fin 1) (fabs (pd_mean (zscore (map Fin xs))))
          = if isconst (map Fin xs) then NaN else Fin 1).
Proof.
  apply (score_terms on_plan 100 1).
  - exact on_plan_utilization.
  - rewrite (feature_term_of_pairs on_plan); [left| | |]; reflexivity.
Qed.

Lemma far_off_plan_terms :
  efficiency_terms (delivery_stats far_off_plan)
    (route_efficiency_of far_off_plan) far_off_plan
  = [Scalar (Fin 1); Scalar (Fin 10); SeriesObj [Fin 1; Fin 1; Fin 1]].
Proof.
  unfold efficiency_terms.
  rewrite far_off_plan_on_time, far_off_plan_utilization.
  rewrite (feature_term_of_pairs far_off_plan) by reflexivity.
  rewrite !fdiv_fin by lra.
  replace (100 / 100) with 1 by lra. replace (1000 / 100) with 10 by lra.
  reflexivity.
Qed.

(** C1 at its failing input.  For two on-time deliveries driven ten times
    the planned distance the terms of the score are the numbers 1 and 10
    and the Series (1, 1, 1), one entry per feature column.  [np.mean] is
    handed the two numbers together with the Series and refuses the list,
    so [analyze_delivery_efficiency] raises: no [overall_efficiency_score]
    is returned, within [0, 100] or outside.  The same happens on every
    batch and for every parameter setting. *)
Theorem C1_no_efficiency_score_is_returned :
  efficiency_terms (delivery_stats far_off_plan)
    (route_efficiency_of far_off_plan) far_off_plan
  = [Scalar (Fin 1); Scalar (Fin 10); SeriesObj [Fin 1; Fin 1; Fin 1]]
  /\ np_mean_list
       [Scalar (Fin 1); Scalar (Fin 10); SeriesObj [Fin 1; Fin 1; Fin 1]]
     = inl InhomogeneousShape
  /\ analyze_delivery_efficiency far_off_plan no_targets
     = ValueError "Error analyzing delivery efficiency" InhomogeneousShape
  /\ ~ (exists r,
          analyze_delivery_efficiency far_off_plan no_targets = Ok r
          /\ in_range (overall_efficiency_score r))
  /\ (forall delivery_data parameters,
        analyze_delivery_efficiency delivery_data parameters
        = ValueError "Error analyzing delivery efficiency"
                     InhomogeneousShape).
Proof.
  split; [exact far_off_plan_terms|].
  split; [reflexivity|].
  split; [apply analyze_delivery_efficiency_raises|].
  split; [|exact analyze_delivery_efficiency_raises].
  intros [r [E _]].
  rewrite analyze_delivery_efficiency_raises in E. discriminate.
Qed.

End EfficiencyExamples.

(** * Further properties *)

(** ** The order on float64 *)

Module OrderFacts.

Lemma Rltb_iff (a b : R) : Rltb a b = true <-> a < b.
Proof. unfold Rltb. destruct (Rlt_dec a b); split; auto; discriminate. Qed.

Lemma Rleb_iff (a b : R) : Rleb a b = true <-> a <= b.
Proof. unfold Rleb. destruct (Rle_dec a b); split; auto; discriminate. Qed.

Lemma Rltb_false_iff (a b : R) : Rltb a b = false <-> b <= a.
Proof.
  unfold Rltb. destruct (Rlt_dec a b); split; auto; try discriminate; lra.
Qed.

Lemma Rleb_false_iff (a b : R) : Rleb a b = false <-> b < a.
Proof.
  unfold Rleb. destruct (Rle_dec a b); split; auto; try discriminate; lra.
Qed.

Ltac forder :=
  repeat match goal with
  | x : float64 |- _ => destruct x
  end;
  simpl in *; try discriminate; try reflexivity;
  rewrite ?Rltb_iff, ?Rleb_iff, ?Rltb_false_iff, ?Rleb_false_iff in *;
  try lra.

Lemma fleb_refl (x : float64) : isnan x = false -> fleb x x = true.
Proof. intros H. forder. Qed.

Lemma fleb_trans (x y z : float64) :
  fleb x y = true -> fleb y z = true -> fleb x z = true.
Proof. intros H1 H2. forder. Qed.



Lemma fltb_fleb (x y : float64) : fltb x y = true -> fleb x y = true.
Proof. intros H. forder. Qed.

Lemma not_fltb_fleb (x y : float64) :
  isnan x = false -> isnan y = false -> fltb x y = false -> fleb y x = true.
Proof. intros Hx Hy H. forder. Qed.


(** [fmax] on values that are not NaN. *)
Lemma fmax_cases (x y : float64) : fmax x y = x \/ fmax x y = y.
Proof. unfold fmax. destruct (fltb x y); auto. Qed.

Lemma fmax_ge_l (x y : float64) :
  isnan x = false -> isnan y = false -> fleb x (fmax x y) = true.
Proof.
  intros Hx Hy. unfold fmax. destruct (fltb x y) eqn:E.
  - now apply fltb_fleb.
  - now apply fleb_refl.
Qed.

Lemma fmax_ge_r (x y : float64) :
  isnan x = false -> isnan y = false -> fleb y (fmax x y) = true.
Proof.
  intros Hx Hy. unfold fmax. destruct (fltb x y) eqn:E.
  - now apply fleb_refl.
  - now apply not_fltb_fleb.
Qed.

Lemma fmax_not_nan (x y : float64) :
  isnan x = false -> isnan y = false -> isnan (fmax x y) = false.
Proof. intros Hx Hy. destruct (fmax_cases x y) as [-> | ->]; assumption. Qed.

Lemma fold_fmax (ys : list float64) (y : float64) :
  isnan y = false -> Forall (fun z => isnan z = false) ys ->
  In (fold_left fmax ys y) (y :: ys)
  /\ isnan (fold_left fmax ys y) = false
  /\ forall z, In z (y :: ys) -> fleb z (fold_left fmax ys y) = true.
Proof.
  revert y. induction ys as [|x ys IH]; intros y Hy Hys; simpl.
  - split; [now left|]. split; [exact Hy|].
    intros z [E|[]]. subst z. now apply fleb_refl.
  - inversion Hys as [|? ? Hx Hys']; subst.
    destruct (IH (fmax y x) (fmax_not_nan y x Hy Hx) Hys') as [Hin [Hn Hge]].
    split; [|split; [exact Hn|]].
    + destruct Hin as [E|Hin]; [|now right; right].
      rewrite <- E. destruct (fmax_cases y x) as [-> | ->]; auto.
    + intros z [E|[E|Hz]].
      * subst z. apply (fleb_trans _ (fmax y x)); [now apply fmax_ge_l|].
        apply Hge. now left.
      * subst z. apply (fleb_trans _ (fmax y x)); [now apply fmax_ge_r|].
        apply Hge. now left.
      * apply Hge. now right.
Qed.

Lemma dropna_not_nan (l : list float64) :
  Forall (fun z => isnan z = false) (dropna l).
Proof.
  apply Forall_forall. intros z Hz. apply filter_In in Hz.
  destruct Hz as [_ Hz]. now destruct (isnan z).
Qed.

Lemma dropna_In (l : list float64) (z : float64) :
  In z (dropna l) <-> In z l /\ isnan z = false.
Proof.
  unfold dropna. rewrite filter_In. split; intros [H1 H2]; split; auto.
  - now destruct (isnan z).
  - now rewrite H2.
Qed.

(** [Series.max()]: the greatest of the cells that are not NaN. *)
Lemma pd_max_spec (l : list float64) (z : float64) :
  In z l -> isnan z = false ->
  In (pd_max l) l
  /\ isnan (pd_max l) = false
  /\ forall w, In w l -> isnan w = false -> fleb w (pd_max l) = true.
Proof.
  intros Hz Hn. unfold pd_max.
  pose proof (dropna_not_nan l) as Hd.
  assert (Hzd : In z (dropna l)) by now apply dropna_In.
  destruct (dropna l) as [|y ys] eqn:E; [contradiction|].
  inversion Hd as [|? ? Hy Hys]; subst.
  destruct (fold_fmax ys y Hy Hys) as [Hin [Hnn Hge]].
  split; [|split; [exact Hnn|]].
  - assert (In (fold_left fmax ys y) (dropna l)) by now rewrite E.
    now apply dropna_In in H.
  - intros w Hw Hwn. apply Hge.
    assert (In w (dropna l)) by now apply dropna_In.
    now rewrite E in H.
Qed.

(** [fmin] on values that are not NaN. *)
Lemma fmin_cases (x y : float64) : fmin x y = x \/ fmin x y = y.
Proof. unfold fmin. destruct (fltb y x); auto. Qed.

Lemma fmin_le_l (x y : float64) :
  isnan x = false -> isnan y = false -> fleb (fmin x y) x = true.
Proof.
  intros Hx Hy. unfold fmin. destruct (fltb y x) eqn:E.
  - now apply fltb_fleb.
  - now apply fleb_refl.
Qed.

Lemma fmin_le_r (x y : float64) :
  isnan x = false -> isnan y = false -> fleb (fmin x y) y = true.
Proof.
  intros Hx Hy. unfold fmin. destruct (fltb y x) eqn:E.
  - now apply fleb_refl.
  - now apply not_fltb_fleb.
Qed.

Lemma fmin_not_nan (x y : float64) :
  isnan x = false -> isnan y = false -> isnan (fmin x y) = false.
Proof. intros Hx Hy. destruct (fmin_cases x y) as [-> | ->]; assumption. Qed.

Lemma fold_fmin (ys : list float64) (y : float64) :
  isnan y = false -> Forall (fun z => isnan z = false) ys ->
  In (fold_left fmin ys y) (y :: ys)
  /\ isnan (fold_left fmin ys y) = false
  /\ forall z, In z (y :: ys) -> fleb (fold_left fmin ys y) z = true.
Proof.
  revert y. induction ys as [|x ys IH]; intros y Hy Hys; simpl.
  - split; [now left|]. split; [exact Hy|].
    intros z [E|[]]. subst z. now apply fleb_refl.
  - inversion Hys as [|? ? Hx Hys']; subst.
    destruct (IH (fmin y x) (fmin_not_nan y x Hy Hx) Hys') as [Hin [Hn Hge]].
    split; [|split; [exact Hn|]].
    + destruct Hin as [E|Hin]; [|now right; right].
      rewrite <- E. destruct (fmin_cases y x) as [-> | ->]; auto.
    + intros z [E|[E|Hz]].
      * subst z. apply (fleb_trans _ (fmin y x)); [|now apply fmin_le_l].
        apply Hge. now left.
      * subst z. apply (fleb_trans _ (fmin y x)); [|now apply fmin_le_r].
        apply Hge. now left.
      * apply Hge. now right.
Qed.

(** [Series.min()]: the least of the cells that are not NaN. *)
Lemma pd_min_spec (l : list float64) (z : float64) :
  In z l -> isnan z = false ->
  In (pd_min l) l
  /\ isnan (pd_min l) = false
  /\ forall w, In w l -> isnan w = false -> fleb (pd_min l) w = true.
Proof.
  intros Hz Hn. unfold pd_min.
  pose proof (dropna_not_nan l) as Hd.
  assert (Hzd : In z (dropna l)) by now apply dropna_In.
  destruct (dropna l) as [|y ys] eqn:E; [contradiction|].
  inversion Hd as [|? ? Hy Hys]; subst.
  destruct (fold_fmin ys y Hy Hys) as [Hin [Hnn Hge]].
  split; [|split; [exact Hnn|]].
  - assert (In (fold_left fmin ys y) (dropna l)) by now rewrite E.
    now apply dropna_In in H.
  - intros w Hw Hwn. apply Hge.
    assert (In w (dropna l)) by now apply dropna_In.
    now rewrite E in H.
Qed.

End OrderFacts.

(** ** More on the anomaly detector *)

Module AnomalyMore.
Import Anomaly Reference Reference2 AnomalyFacts OrderFacts Examples.


















End AnomalyMore.

(** ** More on the location processor *)

Module KinematicsMore.
Import Kinematics Reference Reference2 KinematicsFacts RowFacts.
Import KinematicsClaims.
Import FiniteFacts Examples.

(** *** Order of the returned records *)

Lemma insert_by_time_sorted (x : LocationSample) (l : list LocationSample) :
  StronglySorted (fun a b => (timestamp a <= timestamp b)%Z) l ->
  StronglySorted (fun a b => (timestamp a <= timestamp b)%Z)
                 (insert_by_time x l).
Proof.
  induction l as [|y l IH]; intros H; simpl.
  - repeat constructor.
  - inversion H as [|? ? Hl Hy]; subst.
    destruct (timestamp x <=? timestamp y)%Z eqn:E.
    + apply Z.leb_le in E. constructor; [exact H|].
      constructor; [exact E|].
      eapply Forall_impl; [|exact Hy]. intros a Ha. simpl in Ha. lia.
    + apply Z.leb_gt in E. constructor; [now apply IH|].
      eapply Permutation_Forall; [symmetry; apply insert_by_time_perm|].
      constructor; [lia|exact Hy].
Qed.

Lemma sort_by_time_sorted (l : list LocationSample) :
  StronglySorted (fun a b => (timestamp a <= timestamp b)%Z) (sort_by_time l).
Proof.
  induction l as [|x l IH]; simpl; [constructor|].
  now apply insert_by_time_sorted.
Qed.





(** *** Which batches the distance assignment accepts *)

Lemma count_true_le (p : option string) (rows : list LocationSample) :
  (count_true (same_as_previous p rows) <= length rows)%nat.
Proof.
  unfold count_true. rewrite <- (same_as_previous_length p rows).
  apply filter_length_le.
Qed.

Lemma count_true_cons (b : bool) (mask : list bool) :
  count_true (b :: mask) = ((if b then 1 else 0) + count_true mask)%nat.
Proof. unfold count_true. simpl. now destruct b. Qed.

Lemma full_mask_same_vehicle (v : string) (rows : list LocationSample) :
  count_true (same_as_previous (Some v) rows) = length rows ->
  Forall (fun s => vehicle_id s = v) rows.
Proof.
  revert v. induction rows as [|r rows IH]; intros v H; [constructor|].
  cbn [same_as_previous] in H. rewrite count_true_cons in H.
  pose proof (count_true_le (Some (vehicle_id r)) rows) as Hle.
  destruct (String.eqb v (vehicle_id r)) eqn:E; simpl in H; [|lia].
  apply String.eqb_eq in E. constructor; [now symmetry|].
  rewrite E. apply IH. lia.
Qed.

Lemma one_vehicle_cons (r : LocationSample) (rows : list LocationSample) :
  single_vehicle (r :: rows) <-> Forall (fun s => vehicle_id s = vehicle_id r) rows.
Proof.
  split.
  - intros [v H]. inversion H as [|? ? Hr Hrows].
    rewrite Hr. exact Hrows.
  - intros H. exists (vehicle_id r). now constructor.
Qed.

Lemma one_vehicle_perm (l l' : list LocationSample) :
  Permutation l l' -> single_vehicle l -> single_vehicle l'.
Proof.
  intros P [v H]. exists v. eapply Permutation_Forall; eauto.
Qed.

Lemma assignable_sorted (data : list LocationSample) :
  assignable (sort_by_time data) <-> assignable data.
Proof.
  unfold assignable. rewrite sort_by_time_length. split.
  - intros [H|H]; [now left|right].
    eapply one_vehicle_perm; [apply sort_by_time_perm|exact H].
  - intros [H|H]; [now left|right].
    eapply one_vehicle_perm; [symmetry; apply sort_by_time_perm|exact H].
Qed.

(** The assignment [distances[mask] = ...] on a frame of rows. *)
Lemma distances_column_cases (rows : list LocationSample) :
  (assignable rows /\ exists ds, distances_column rows = inr ds)
  \/ (~ assignable rows
      /\ exists k, (k < length rows - 1)%nat
           /\ distances_column rows
              = inl (BooleanAssignMismatch (length rows - 1) k)).
Proof.
  unfold distances_column, assign_masked.
  rewrite consecutive_distances_length.
  destruct rows as [|r rows].
  { left. split; [left; simpl; lia|]. simpl. eauto. }
  cbn [same_as_previous]. rewrite count_true_cons. cbn [Nat.add].
  change (pred (length (r :: rows))) with (length rows).
  replace (length (r :: rows) - 1)%nat with (length rows) by (simpl; lia).
  pose proof (count_true_le (Some (vehicle_id r)) rows) as Hle.
  destruct (length rows =? _)%nat eqn:E.
  - apply Nat.eqb_eq in E. left. split; [|eauto].
    right. apply one_vehicle_cons. apply full_mask_same_vehicle. lia.
  - apply Nat.eqb_neq in E.
    pose proof (consecutive_distances_length (r :: rows)) as Hc.
    change (pred (length (r :: rows))) with (length rows) in Hc.
    destruct (consecutive_distances (r :: rows)) as [|v [|w vs]] eqn:Ev.
    + simpl in Hc. lia.
    + left. split; [left; simpl in *; lia|eauto].
    + right. split.
      * intros [H|H]; [simpl in *; lia|].
        apply one_vehicle_cons in H.
        apply (same_vehicle_mask (vehicle_id r)) in H. lia.
      * eexists. split; [|reflexivity]. lia.
Qed.

Lemma unfiltered_returns (data : list LocationSample)
  (threshold : option float64) (ds : list float64) :
  distances_column (sort_by_time data) = inr ds ->
  process_location_data data (unfiltered threshold) =
  Ok (make_output (working_frame (sort_by_time data) ds) ds
        (acceleration_column (working_frame (sort_by_time data) ds))).
Proof. intros H. now apply process_location_data_returns. Qed.

(** X6.  With outlier removal switched off the call returns exactly on the
    batches of at most two samples and on the batches of a single vehicle.
    Every other batch is refused whatever the options, by the assignment
    of the distances: a batch of [n] samples has [n - 1] consecutive
    distances, and fewer rows that continue the vehicle of the row
    before. *)
Theorem X6_only_small_or_single_vehicle_batches_are_accepted
  (data : list LocationSample) :
  (forall threshold,
     is_ok (process_location_data data (unfiltered threshold)) = true
     <-> assignable data)
  /\ (forall o out, process_location_data data o = Ok out -> assignable data)
  /\ (~ assignable data ->
      forall o, exists k,
        (k < length data - 1)%nat
        /\ process_location_data data o =
           ValueError "Error processing location data"
                      (BooleanAssignMismatch (length data - 1) k)).
Proof.
  pose proof (distances_column_cases (sort_by_time data)) as H.
  rewrite assignable_sorted, sort_by_time_length in H.
  split; [|split].
  - intros threshold. destruct H as [[Ha [ds Hd]]|[Hn [k [_ Hd]]]].
    + rewrite (unfiltered_returns _ _ _ Hd). simpl. tauto.
    + unfold process_location_data. rewrite Hd. simpl.
      split; [discriminate|contradiction].
  - intros o out Hok. destruct H as [[Ha _]|[_ [k [_ Hd]]]]; [exact Ha|].
    unfold process_location_data in Hok. rewrite Hd in Hok. discriminate.
  - intros Hn o. destruct H as [[Ha _]|[_ [k [Hk Hd]]]]; [contradiction|].
    exists k. split; [exact Hk|].
    unfold process_location_data. now rewrite Hd.
Qed.

Lemma X6_only_small_or_single_vehicle_batches_are_accepted_witness :
  exists k,
    (k < length lone_and_pair - 1)%nat
    /\ process_location_data lone_and_pair (options None None) =
       ValueError "Error processing location data"
                  (BooleanAssignMismatch (length lone_and_pair - 1) k).
Proof.
  apply (proj2 (proj2
           (X6_only_small_or_single_vehicle_batches_are_accepted
              lone_and_pair))).
  intros [H|[v H]].
  - simpl in H. lia.
  - inversion H as [|? ? Ha H']. inversion H' as [|? ? Hb _].
    simpl in Ha, Hb. congruence.
Defined.

(** *** What outlier removal can do *)

Lemma filter_outliers_off (o : CalcOptions) (frame : list Row) :
  outliers_requested o = false -> filter_outliers o frame = frame.
Proof. intros H. unfold filter_outliers. now rewrite H. Qed.



(** A call that returns records naming their vehicle returns the same
    without outlier removal. *)
Lemma removal_keeps_result (data : list LocationSample) (o : CalcOptions)
  (threshold : option float64) (out : list DerivedSample) :
  process_location_data data o = Ok out ->
  identified out ->
  process_location_data data (unfiltered threshold) = Ok out.
Proof.
  intros H Hid.
  destruct (process_location_data_ok _ _ _ H)
    as [ds [Hd [Hl [[_ ->]|[_ [Hne ->]]]]]].
  - now apply unfiltered_returns.
  - exfalso. apply (identified_not_rebuilt ds); [|exact Hid].
    now apply (rebuilt_not_empty data).
Qed.




(** *** Signs of the derived columns *)

Lemma nonneg_zero : nonneg (Fin 0).
Proof. exists 0. split; [reflexivity|lra]. Qed.

Lemma step_distance_nonneg (a b : LocationSample) :
  finite_position a -> finite_position b -> nonneg (step_distance a b).
Proof.
  intros [la [lo [Ha1 Ha2]]] [lb [lob [Hb1 Hb2]]].
  unfold step_distance. rewrite Ha1, Ha2, Hb1, Hb2. cbn [fsub fneg fadd fmul].
  rewrite fsqrt_fin
    by (pose proof (Rle_0_sqr (lb + - la)); pose proof (Rle_0_sqr (lob + - lo));
        unfold Rsqr in *; lra).
  cbn [fmul].
  eexists. split; [reflexivity|].
  apply Rmult_le_pos; [apply sqrt_pos|unfold km_per_degree; lra].
Qed.

Lemma consecutive_distances_nonneg (rows : list LocationSample) :
  Forall finite_position rows -> Forall nonneg (consecutive_distances rows).
Proof.
  induction rows as [|a rows IH]; intros H; [constructor|].
  inversion H as [|? ? Ha Hrows]; subst.
  destruct rows as [|b rows]; [constructor|].
  inversion Hrows as [|? ? Hb _]; subst.
  change (Forall nonneg (step_distance a b :: consecutive_distances (b :: rows))).
  constructor; [now apply step_distance_nonneg|now apply IH].
Qed.

Lemma scatter_Forall (P : float64 -> Prop) (dst : list float64)
  (mask : list bool) (vals : list float64) :
  Forall P dst -> Forall P vals -> Forall P (scatter dst mask vals).
Proof.
  intros Hd. revert mask vals.
  induction Hd as [|d dst Hd Hdst IH]; intros mask vals Hv.
  - destruct mask as [|[] mask]; constructor.
  - destruct mask as [|[] mask]; simpl.
    + now constructor.
    + destruct Hv as [|v vals Hv Hvs]; constructor; auto.
    + constructor; auto.
Qed.

Lemma distances_column_nonneg (rows : list LocationSample)
  (ds : list float64) :
  Forall finite_position rows -> distances_column rows = inr ds ->
  Forall nonneg ds.
Proof.
  intros Hf. unfold distances_column, assign_masked.
  pose proof (consecutive_distances_nonneg rows Hf) as Hv.
  assert (H0 : Forall nonneg (repeat (Fin 0) (length rows))).
  { apply Forall_forall. intros z Hz. apply repeat_spec in Hz. subst z.
    apply nonneg_zero. }
  destruct (_ =? _)%nat.
  - intros E. inversion E. now apply scatter_Forall.
  - destruct (consecutive_distances rows) as [|v [|w vs]]; try discriminate.
    intros E. inversion E. apply scatter_Forall; [exact H0|].
    inversion Hv; subst.
    apply Forall_forall. intros z Hz. apply repeat_spec in Hz. now subst z.
Qed.

Lemma speed_of_nonneg (td d : float64) : nonneg d -> nonneg (speed_of td d).
Proof.
  intros [r [-> Hr]]. unfold speed_of.
  destruct (fgtb td (Fin 0)) eqn:E; [|apply nonneg_zero].
  destruct td as [| | |t]; try discriminate.
  - simpl. exists (0 * 3600). split; [reflexivity|lra].
  - unfold fgtb in E. simpl in E. apply OrderFacts.Rltb_iff in E.
    rewrite fdiv_fin by lra. simpl. eexists. split; [reflexivity|].
    apply Rmult_le_pos; [|lra]. apply Rmult_le_pos; [exact Hr|].
    apply Rlt_le, Rinv_0_lt_compat, E.
Qed.

Lemma speed_column_nonneg (tds ds : list float64) :
  Forall nonneg ds -> Forall nonneg (speed_column tds ds).
Proof.
  intros H. revert tds. induction H as [|d ds Hd _ IH]; intros [|t tds];
    simpl; constructor; auto using speed_of_nonneg.
Qed.



End KinematicsMore.

(** ** More on the fleet aggregation *)

Module GroupByMore.
Import GroupByFacts.

Section Keys.
Context {K V W : Type}.
Variable eqb : K -> K -> bool.
Variable ltb : K -> K -> bool.

(** The keys of the groups depend on the keys of the rows only. *)
Lemma collect_keys (rows : list (K * V)) (rows' : list (K * W)) :
  map fst rows = map fst rows' ->
  map fst (collect eqb rows) = map fst (collect eqb rows').
Proof.
  revert rows'. induction rows as [|r rows IH] using rev_ind; intros rows' H.
  - destruct rows'; [reflexivity|discriminate].
  - destruct rows' as [|r' rows'] using rev_ind.
    { rewrite map_app in H. simpl in H.
      apply app_eq_nil in H. destruct H as [_ H]. discriminate. }
    clear IHrows'. rewrite !map_app in H. simpl in H.
    apply app_inj_tail in H. destruct H as [H Hk].
    rewrite !collect_snoc, !add_to_group_keys, (IH rows' H), Hk.
    reflexivity.
Qed.

Lemma insert_group_keys (g : K * list V) (g' : K * list W)
  (l : list (K * list V)) (l' : list (K * list W)) :
  fst g = fst g' -> map fst l = map fst l' ->
  map fst (insert_group ltb g l) = map fst (insert_group ltb g' l').
Proof.
  intros Hg. revert l'. induction l as [|h l IH]; intros [|h' l'] H;
    try discriminate; simpl.
  - now rewrite Hg.
  - simpl in H. inversion H as [[Hh Hl]]. rewrite Hh, Hg.
    destruct (ltb (fst h') (fst g')); simpl.
    + now rewrite Hh, (IH l' Hl).
    + now rewrite Hg, Hh, Hl.
Qed.

Lemma sort_groups_keys (l : list (K * list V)) (l' : list (K * list W)) :
  map fst l = map fst l' ->
  map fst (sort_groups ltb l) = map fst (sort_groups ltb l').
Proof.
  revert l'. induction l as [|g l IH]; intros [|g' l'] H; try discriminate;
    [reflexivity|].
  simpl in H. inversion H as [[Hg Hl]]. simpl.
  apply insert_group_keys; [exact Hg|now apply IH].
Qed.

Lemma groupby_keys (rows : list (K * V)) (rows' : list (K * W)) :
  map fst rows = map fst rows' ->
  map fst (groupby eqb ltb rows) = map fst (groupby eqb ltb rows').
Proof.
  intros H. unfold groupby. now apply sort_groups_keys, collect_keys.
Qed.

End Keys.

Section Buckets.
Context {V : Type}.

Lemma insert_group_sorted (g : Z * list V) (l : list (Z * list V)) :
  StronglySorted Z.le (map fst l) ->
  StronglySorted Z.le (map fst (insert_group Z.ltb g l)).
Proof.
  induction l as [|h l IH]; intros H; simpl.
  - repeat constructor.
  - inversion H as [|? ? Hl Hh]; subst.
    destruct (fst h <? fst g)%Z eqn:E; simpl.
    + apply Z.ltb_lt in E. constructor; [now apply IH|].
      eapply Permutation_Forall.
      * apply Permutation_map. symmetry. apply insert_group_perm.
      * simpl. constructor; [lia|exact Hh].
    + apply Z.ltb_ge in E. constructor; [exact H|].
      constructor; [exact E|].
      eapply Forall_impl; [|exact Hh]. intros a Ha. simpl in Ha. lia.
Qed.

Lemma sort_groups_sorted (l : list (Z * list V)) :
  StronglySorted Z.le (map fst (sort_groups Z.ltb l)).
Proof.
  induction l as [|g l IH]; simpl; [constructor|].
  now apply insert_group_sorted.
Qed.

Lemma sorted_nodup_strict (l : list Z) :
  StronglySorted Z.le l -> NoDup l -> StronglySorted Z.lt l.
Proof.
  induction 1 as [|a l Hl IH Ha]; intros Hnd; constructor.
  - apply IH. now inversion Hnd.
  - inversion Hnd as [|? ? Hnotin _]; subst.
    apply Forall_forall. intros b Hb.
    rewrite Forall_forall in Ha. specialize (Ha b Hb).
    assert (a <> b) by (intros ->; contradiction). lia.
Qed.

(** Grouping by an integer key lists the keys in ascending order, each
    once. *)
Lemma groupby_ascending (rows : list (Z * V)) :
  StronglySorted Z.lt (map fst (groupby Z.eqb Z.ltb rows)).
Proof.
  apply sorted_nodup_strict.
  - apply sort_groups_sorted.
  - apply (groupby_partition Z.eqb Z.ltb Z.eqb_eq rows).
Qed.

End Buckets.

End GroupByMore.

Module FleetMore.
Import Fleet Reference Reference2 GroupByFacts GroupByMore FiniteFacts.
Import FleetFacts OrderFacts Examples.

Lemma calculate_fleet_metrics_inv (fd : FleetFrame) (mt ap : string)
  (m : FleetMetrics) :
  calculate_fleet_metrics fd mt ap = Ok m ->
  exists column,
    get_column mt (f_columns fd) = Some column
    /\ statistics m = compute_statistics (grouped fd ap column).
Proof.
  unfold calculate_fleet_metrics.
  destruct (negb (is_in mt _)); [discriminate|].
  destruct (negb (is_in ap _)); [discriminate|].
  destruct (get_column mt (f_columns fd)) as [column|]; [|discriminate].
  intros H. inversion H. exists column. split; reflexivity.
Qed.

Lemma rollup_buckets {A B} (inner : list float64 -> A) (inject : A -> float64)
  (inner' : list float64 -> B) (inject' : B -> float64)
  (groups : list ((Z * string) * list float64)) :
  map fst (rollup inner inject groups) = map fst (rollup inner' inject' groups).
Proof.
  unfold rollup. apply groupby_keys. rewrite !map_map. reflexivity.
Qed.

Lemma two_level_buckets (inner outer : list float64 -> float64)
  (groups : list ((Z * string) * list float64)) :
  buckets (two_level inner outer groups)
  = map fst (rollup pd_mean (fun x => x) groups).
Proof.
  unfold buckets, two_level. rewrite map_map. simpl.
  apply rollup_buckets.
Qed.

Lemma vehicle_groups_nonempty (b : Z)
  (groups : list ((Z * string) * list float64)) :
  vehicle_groups b groups <> [] <->
  exists v vs, In ((b, v), vs) groups.
Proof.
  unfold vehicle_groups. split.
  - intros H. destruct (filter _ groups) as [|[[b' v] vs] l] eqn:E;
      [now contradiction H|].
    assert (Hin : In ((b', v), vs) (filter (fun g => (b =? fst (fst g))%Z) groups))
      by (rewrite E; now left).
    apply filter_In in Hin. destruct Hin as [Hin Hb]. simpl in Hb.
    apply Z.eqb_eq in Hb. subst b'. eauto.
  - intros [v [vs Hin]] E.
    assert (Hf : In ((b, v), vs) (filter (fun g => (b =? fst (fst g))%Z) groups)).
    { apply filter_In. split; [exact Hin|]. simpl. apply Z.eqb_refl. }
    destruct (filter _ groups); [contradiction|discriminate].
Qed.

Lemma values_of_nonempty (k : Z * string) (rows : list ((Z * string) * float64)) :
  values_of key_eqb k rows <> [] <-> In k (map fst rows).
Proof.
  unfold values_of. split.
  - intros H. destruct (filter _ rows) as [|r l] eqn:E; [now contradiction H|].
    assert (Hin : In r (filter (fun r => key_eqb k (fst r)) rows))
      by (rewrite E; now left).
    apply filter_In in Hin. destruct Hin as [Hin Hk].
    apply key_eqb_eq in Hk. subst k. now apply in_map.
  - intros Hin E. apply in_map_iff in Hin. destruct Hin as [r [<- Hr]].
    assert (Hf : In r (filter (fun r' => key_eqb (fst r) (fst r')) rows)).
    { apply filter_In. split; [exact Hr|]. now apply key_eqb_eq. }
    destruct (filter _ rows); [contradiction|discriminate].
Qed.

(** A bucket has a vehicle group exactly when a row falls into it. *)
Lemma bucket_has_rows (fd : FleetFrame) (ap : string) (column : list float64)
  (b : Z) :
  vehicle_groups b (grouped fd ap column) <> [] <->
  In b (map (fun r => fst (fst r)) (keyed_rows fd ap column)).
Proof.
  destruct (grouped_partitions fd ap column) as [_ Hp].
  rewrite vehicle_groups_nonempty. split.
  - intros [v [vs Hin]]. apply Hp in Hin. destruct Hin as [-> Hne].
    apply values_of_nonempty in Hne.
    apply in_map_iff in Hne. destruct Hne as [r [Hr Hin]].
    apply in_map_iff. exists r. split; [now rewrite Hr|exact Hin].
  - intros Hin. apply in_map_iff in Hin. destruct Hin as [[[b' v] x] [<- Hr]].
    simpl. exists v, (values_of key_eqb (b', v) (keyed_rows fd ap column)).
    apply Hp. split; [reflexivity|].
    apply values_of_nonempty. apply in_map_iff. now exists ((b', v), x).
Qed.

Lemma reported_bucket (inner outer : list float64 -> float64)
  (groups : list ((Z * string) * list float64)) (b : Z) :
  In b (buckets (two_level inner outer groups)) <->
  vehicle_groups b groups <> [].
Proof.
  unfold buckets. rewrite in_map_iff. split.
  - intros [[b' y] [E H]]. simpl in E. subst b'.
    now apply two_level_rolled_up in H.
  - intros H. exists (b, outer (map inner (vehicle_groups b groups))).
    split; [reflexivity|]. apply two_level_rolled_up. now split.
Qed.

(** X10.  The six statistics of a result report the same buckets, in
    ascending order and each bucket once; a bucket is reported exactly
    when a row of the frame falls into it. *)
Theorem X10_statistics_report_the_occupied_buckets_in_order
  (fd : FleetFrame) (mt ap : string) (m : FleetMetrics) :
  calculate_fleet_metrics fd mt ap = Ok m ->
  StronglySorted Z.lt (buckets (mean (statistics m)))
  /\ buckets (median (statistics m)) = buckets (mean (statistics m))
  /\ buckets (std (statistics m)) = buckets (mean (statistics m))
  /\ buckets (min (statistics m)) = buckets (mean (statistics m))
  /\ buckets (max (statistics m)) = buckets (mean (statistics m))
  /\ buckets (vehicle_count (statistics m)) = buckets (mean (statistics m))
  /\ exists column,
       get_column mt (f_columns fd) = Some column
       /\ forall b,
            In b (buckets (mean (statistics m))) <->
            In b (map (fun r => fst (fst r)) (keyed_rows fd ap column)).
Proof.
  intros H. destruct (calculate_fleet_metrics_inv _ _ _ _ H) as [column [Hc ->]].
  cbn [mean median std min max vehicle_count compute_statistics].
  rewrite !two_level_buckets. split.
  - apply groupby_ascending.
  - repeat (split; [reflexivity|]). split.
    + unfold buckets. rewrite map_map. simpl. apply rollup_buckets.
    + exists column. split; [exact Hc|]. intros b.
      rewrite <- (two_level_buckets pd_mean pd_mean), reported_bucket.
      apply bucket_has_rows.
Qed.

Lemma X10_statistics_report_the_occupied_buckets_in_order_witness :
  let m := {| aggregation_period := "1D"%string;
              metric_type := "vehicle_speed"%string;
              statistics :=
                compute_statistics
                  (grouped three_vehicles "1D" [Fin 1; Fin 2; Fin 6]) |} in
  StronglySorted Z.lt (buckets (mean (statistics m)))
  /\ buckets (median (statistics m)) = buckets (mean (statistics m))
  /\ buckets (std (statistics m)) = buckets (mean (statistics m))
  /\ buckets (min (statistics m)) = buckets (mean (statistics m))
  /\ buckets (max (statistics m)) = buckets (mean (statistics m))
  /\ buckets (vehicle_count (statistics m)) = buckets (mean (statistics m))
  /\ exists column,
       get_column "vehicle_speed" (f_columns three_vehicles) = Some column
       /\ forall b,
            In b (buckets (mean (statistics m))) <->
            In b (map (fun r => fst (fst r))
                      (keyed_rows three_vehicles "1D" column)).
Proof.
  apply (X10_statistics_report_the_occupied_buckets_in_order three_vehicles
           "vehicle_speed" "1D").
  reflexivity.
Defined.

End FleetMore.

(** ** Bounds on the bucket statistics *)

Module BoundFacts.
Import Fleet Reference Reference2 GroupByFacts FiniteFacts FleetFacts.
Import OrderFacts FleetMore Examples.

Lemma is_number_not_nan (x : float64) : is_number x -> isnan x = false.
Proof. now intros [r ->]. Qed.

Lemma between_is_number (lo hi : R) (x : float64) :
  between lo hi x -> is_number x.
Proof. intros [r [-> _]]. now exists r. Qed.

Lemma between_list (lo hi : R) (l : list float64) :
  Forall (between lo hi) l ->
  exists rs, l = map Fin rs /\ Forall (fun r => lo <= r <= hi) rs.
Proof.
  induction 1 as [|x l [r [-> Hr]] _ [rs [-> Hrs]]].
  - now exists [].
  - exists (r :: rs). split; [reflexivity|now constructor].
Qed.

Lemma Rsum_bounds (lo hi : R) (rs : list R) :
  Forall (fun r => lo <= r <= hi) rs ->
  INR (length rs) * lo <= Rsum rs <= INR (length rs) * hi.
Proof.
  induction 1 as [|r rs Hr _ IH]; [simpl; lra|].
  change (length (r :: rs)) with (S (length rs)). rewrite S_INR. simpl. lra.
Qed.

Lemma mean_bounds (lo hi : R) (rs : list R) :
  rs <> [] -> Forall (fun r => lo <= r <= hi) rs ->
  lo <= Rsum rs / INR (length rs) <= hi.
Proof.
  intros Hne H. pose proof (Rsum_bounds lo hi rs H) as [H1 H2].
  assert (Hn : 0 < INR (length rs)).
  { destruct rs; [congruence|apply INR_length_pos]. }
  split.
  - apply (Rmult_le_reg_r (INR (length rs))); [exact Hn|].
    unfold Rdiv. rewrite Rmult_assoc, Rinv_l by lra. lra.
  - apply (Rmult_le_reg_r (INR (length rs))); [exact Hn|].
    unfold Rdiv. rewrite Rmult_assoc, Rinv_l by lra. lra.
Qed.

Lemma pd_mean_between (lo hi : R) (l : list float64) :
  l <> [] -> Forall (between lo hi) l -> between lo hi (pd_mean l).
Proof.
  intros Hne H. destruct (between_list _ _ _ H) as [rs [-> Hrs]].
  assert (Hr : rs <> []) by (intros ->; now apply Hne).
  unfold pd_mean. rewrite dropna_fin, np_mean_fin by exact Hr.
  eexists. split; [reflexivity|]. now apply mean_bounds.
Qed.

Lemma insert_sorted_perm (x : float64) (l : list float64) :
  Permutation (insert_sorted x l) (x :: l).
Proof.
  induction l as [|y l IH]; simpl; [reflexivity|].
  destruct (fleb x y); [reflexivity|].
  rewrite IH. apply perm_swap.
Qed.

Lemma sort_values_perm (l : list float64) : Permutation (sort_values l) l.
Proof.
  induction l as [|x l IH]; simpl; [reflexivity|].
  rewrite insert_sorted_perm. now constructor.
Qed.

Lemma nth_between (lo hi : R) (l : list float64) (i : nat) :
  Forall (between lo hi) l -> (i < length l)%nat -> between lo hi (nth i l NaN).
Proof.
  intros H Hi. rewrite Forall_forall in H. apply H. now apply nth_In.
Qed.

Lemma pd_median_between (lo hi : R) (l : list float64) :
  l <> [] -> Forall (between lo hi) l -> between lo hi (pd_median l).
Proof.
  intros Hne H. destruct (between_list _ _ _ H) as [rs [E _]].
  unfold pd_median. rewrite E, dropna_fin, <- E.
  assert (Hs : Forall (between lo hi) (sort_values l)).
  { eapply Permutation_Forall; [symmetry; apply sort_values_perm|exact H]. }
  assert (Hl : length (sort_values l) = length l).
  { apply Permutation_length, sort_values_perm. }
  destruct (length (sort_values l)) as [|n] eqn:En.
  { destruct l; [congruence|simpl in Hl; lia]. }
  rewrite <- En.
  assert (Hhalf : (length (sort_values l) / 2 < length (sort_values l))%nat).
  { apply Nat.div_lt; lia. }
  destruct (Nat.odd (length (sort_values l))).
  - now apply nth_between.
  - destruct (nth_between lo hi (sort_values l)
                (length (sort_values l) / 2 - 1) Hs ltac:(lia))
      as [a [-> Ha]].
    destruct (nth_between lo hi (sort_values l)
                (length (sort_values l) / 2) Hs Hhalf) as [b [-> Hb]].
    cbn [fadd]. rewrite fdiv_fin by lra.
    eexists. split; [reflexivity|lra].
Qed.

(** The rows of a bucket and the vehicle groups of the bucket hold the
    same values. *)
Lemma bucket_values_covered (fd : FleetFrame) (ap : string)
  (column : list float64) (b : Z) (x : float64) :
  In x (bucket_values b (keyed_rows fd ap column)) <->
  exists vs, In vs (vehicle_groups b (grouped fd ap column)) /\ In x vs.
Proof.
  destruct (grouped_partitions fd ap column) as [_ Hp].
  unfold bucket_values, vehicle_groups. split.
  - intros H. apply in_map_iff in H. destruct H as [[[b' v] y] [E H]].
    simpl in E. subst y. apply filter_In in H. destruct H as [Hin Hb].
    simpl in Hb. apply Z.eqb_eq in Hb. subst b'.
    exists (values_of key_eqb (b, v) (keyed_rows fd ap column)).
    assert (Hx : In x (values_of key_eqb (b, v) (keyed_rows fd ap column))).
    { unfold values_of. apply in_map_iff. exists ((b, v), x).
      split; [reflexivity|]. apply filter_In. split; [exact Hin|].
      now apply key_eqb_eq. }
    split; [|exact Hx].
    apply in_map_iff.
    exists ((b, v), values_of key_eqb (b, v) (keyed_rows fd ap column)).
    split; [reflexivity|]. apply filter_In. split.
    + apply Hp. split; [reflexivity|]. intros E. now rewrite E in Hx.
    + simpl. apply Z.eqb_refl.
  - intros [vs [Hvs Hx]]. apply in_map_iff in Hvs.
    destruct Hvs as [[[b' v] vs'] [E H]]. simpl in E. subst vs'.
    apply filter_In in H. destruct H as [Hin Hb].
    simpl in Hb. apply Z.eqb_eq in Hb. subst b'.
    apply Hp in Hin. destruct Hin as [-> _].
    unfold values_of in Hx. apply in_map_iff in Hx.
    destruct Hx as [[k y] [E H]]. simpl in E. subst y.
    apply filter_In in H. destruct H as [Hin Hk].
    apply key_eqb_eq in Hk. simpl in Hk. subst k.
    apply in_map_iff. exists ((b, v), x). split; [reflexivity|].
    apply filter_In. split; [exact Hin|]. simpl. apply Z.eqb_refl.
Qed.

Lemma vehicle_group_nonempty (fd : FleetFrame) (ap : string)
  (column : list float64) (b : Z) (vs : list float64) :
  In vs (vehicle_groups b (grouped fd ap column)) -> vs <> [].
Proof.
  destruct (grouped_partitions fd ap column) as [_ Hp].
  unfold vehicle_groups. intros H. apply in_map_iff in H.
  destruct H as [[k vs'] [E H]]. simpl in E. subst vs'.
  apply filter_In in H. destruct H as [Hin _].
  now apply Hp in Hin.
Qed.

Lemma keyed_rows_values (fd : FleetFrame) (ap : string)
  (column : list float64) (b : Z) (x : float64) :
  In x (bucket_values b (keyed_rows fd ap column)) -> In x column.
Proof.
  unfold bucket_values, keyed_rows. intros H. apply in_map_iff in H.
  destruct H as [[k y] [E H]]. simpl in E. subst y.
  apply filter_In in H. destruct H as [Hin _].
  now apply in_combine_r in Hin.
Qed.

Section Extremes.
Variable vgs : list (list float64).
Hypothesis some_group : vgs <> [].
Hypothesis groups_hold_numbers :
  forall vs, In vs vgs -> vs <> [] /\ Forall is_number vs.

Lemma some_member : exists vs0, In vs0 vgs.
Proof.
  destruct vgs as [|vs0 rest]; [congruence|]. exists vs0. now left.
Qed.

Lemma group_has_number (vs : list float64) :
  In vs vgs -> exists z, In z vs /\ isnan z = false.
Proof.
  intros H. destruct (groups_hold_numbers vs H) as [Hne Hn].
  destruct vs as [|z vs]; [congruence|]. exists z. split; [now left|].
  inversion Hn. now apply is_number_not_nan.
Qed.

Lemma not_nan_is_number_in (vs : list float64) (x : float64) :
  In vs vgs -> In x vs -> is_number x.
Proof.
  intros H Hx. destruct (groups_hold_numbers vs H) as [_ Hn].
  rewrite Forall_forall in Hn. now apply Hn.
Qed.

(** The least of the group minima is the least value of all groups. *)
Lemma min_of_mins :
  (exists vs, In vs vgs /\ In (pd_min (map pd_min vgs)) vs)
  /\ forall vs x, In vs vgs -> In x vs ->
                  fleb (pd_min (map pd_min vgs)) x = true.
Proof.
  destruct some_member as [vs0 H0].
  destruct (group_has_number vs0 H0) as [z0 [Hz0 Hn0]].
  destruct (pd_min_spec vs0 z0 Hz0 Hn0) as [_ [Hnn0 _]].
  destruct (pd_min_spec (map pd_min vgs) (pd_min vs0)
              (in_map pd_min _ _ H0) Hnn0) as [Hin [_ Hle]].
  split.
  - apply in_map_iff in Hin. destruct Hin as [vs [Evs Hvs]].
    exists vs. split; [exact Hvs|]. rewrite <- Evs.
    destruct (group_has_number vs Hvs) as [z [Hz Hn]].
    now destruct (pd_min_spec vs z Hz Hn).
  - intros vs x Hvs Hx.
    pose proof (is_number_not_nan x (not_nan_is_number_in vs x Hvs Hx)) as Hxn.
    destruct (pd_min_spec vs x Hx Hxn) as [_ [Hnn Hlex]].
    apply (fleb_trans _ (pd_min vs)).
    + apply Hle; [now apply in_map|exact Hnn].
    + now apply Hlex.
Qed.

(** The greatest of the group maxima is the greatest value of all
    groups. *)
Lemma max_of_maxes :
  (exists vs, In vs vgs /\ In (pd_max (map pd_max vgs)) vs)
  /\ forall vs x, In vs vgs -> In x vs ->
                  fleb x (pd_max (map pd_max vgs)) = true.
Proof.
  destruct some_member as [vs0 H0].
  destruct (group_has_number vs0 H0) as [z0 [Hz0 Hn0]].
  destruct (pd_max_spec vs0 z0 Hz0 Hn0) as [_ [Hnn0 _]].
  destruct (pd_max_spec (map pd_max vgs) (pd_max vs0)
              (in_map pd_max _ _ H0) Hnn0) as [Hin [_ Hle]].
  split.
  - apply in_map_iff in Hin. destruct Hin as [vs [Evs Hvs]].
    exists vs. split; [exact Hvs|]. rewrite <- Evs.
    destruct (group_has_number vs Hvs) as [z [Hz Hn]].
    now destruct (pd_max_spec vs z Hz Hn).
  - intros vs x Hvs Hx.
    pose proof (is_number_not_nan x (not_nan_is_number_in vs x Hvs Hx)) as Hxn.
    destruct (pd_max_spec vs x Hx Hxn) as [_ [Hnn Hlex]].
    apply (fleb_trans _ (pd_max vs)).
    + now apply Hlex.
    + apply Hle; [now apply in_map|exact Hnn].
Qed.

(** A two-level statistic of values within bounds stays within them. *)
Lemma two_level_between (inner outer : list float64 -> float64)
  (lo hi : R) :
  (forall l, l <> [] -> Forall (between lo hi) l -> between lo hi (inner l)) ->
  (forall l, l <> [] -> Forall (between lo hi) l -> between lo hi (outer l)) ->
  (forall vs, In vs vgs -> Forall (between lo hi) vs) ->
  between lo hi (outer (map inner vgs)).
Proof.
  intros Hi Ho Hb. apply Ho.
  - destruct vgs; [congruence|discriminate].
  - apply Forall_map, Forall_forall. intros vs Hvs.
    apply Hi; [now apply groups_hold_numbers|now apply Hb].
Qed.

End Extremes.

(** X11.  On a metric column of numbers, the minimum and the maximum
    reported for a bucket are the least and the greatest value of the
    metric among the rows of the bucket, and the mean and the median
    reported for the bucket lie between them. *)
Theorem X11_bucket_statistics_lie_between_the_extreme_values
  (fd : FleetFrame) (mt ap : string) (column : list float64)
  (m : FleetMetrics) (b : Z) :
  calculate_fleet_metrics fd mt ap = Ok m ->
  get_column mt (f_columns fd) = Some column ->
  Forall is_number column ->
  In b (buckets (mean (statistics m))) ->
  exists lo mu md hi,
    In (b, Fin lo) (min (statistics m))
    /\ In (b, Fin mu) (mean (statistics m))
    /\ In (b, Fin md) (median (statistics m))
    /\ In (b, Fin hi) (max (statistics m))
    /\ In (Fin lo) (bucket_values b (keyed_rows fd ap column))
    /\ In (Fin hi) (bucket_values b (keyed_rows fd ap column))
    /\ (forall x, In (Fin x) (bucket_values b (keyed_rows fd ap column)) ->
                  lo <= x <= hi)
    /\ lo <= mu <= hi
    /\ lo <= md <= hi.
Proof.
  intros Hok Hc Hnum Hb.
  destruct (calculate_fleet_metrics_inv _ _ _ _ Hok) as [column' [Hc' Hs]].
  rewrite Hc in Hc'. inversion Hc'. subst column'. rewrite Hs in *. clear Hs.
  cbn [mean median min max compute_statistics] in *.
  apply reported_bucket in Hb.
  set (vgs := vehicle_groups b (grouped fd ap column)) in *.
  assert (Hg : forall vs, In vs vgs -> vs <> [] /\ Forall is_number vs).
  { intros vs Hvs. split; [now apply (vehicle_group_nonempty fd ap column b)|].
    apply Forall_forall. intros x Hx.
    rewrite Forall_forall in Hnum. apply Hnum.
    apply (keyed_rows_values fd ap column b).
    apply bucket_values_covered. now exists vs. }
  destruct (min_of_mins vgs Hb Hg) as [[vlo [Hvlo Hinlo]] Hle].
  destruct (max_of_maxes vgs Hb Hg) as [[vhi [Hvhi Hinhi]] Hge].
  destruct (not_nan_is_number_in vgs Hg vlo _ Hvlo Hinlo) as [lo Elo].
  destruct (not_nan_is_number_in vgs Hg vhi _ Hvhi Hinhi) as [hi Ehi].
  rewrite Elo in *. rewrite Ehi in *.
  assert (Hbt : forall vs, In vs vgs -> Forall (between lo hi) vs).
  { intros vs Hvs. apply Forall_forall. intros x Hx.
    destruct (not_nan_is_number_in vgs Hg vs x Hvs Hx) as [r ->].
    exists r. split; [reflexivity|].
    pose proof (Hle vs _ Hvs Hx) as H1. pose proof (Hge vs _ Hvs Hx) as H2.
    simpl in H1, H2. apply Rleb_iff in H1, H2. lra. }
  destruct (two_level_between vgs Hb Hg pd_mean pd_mean lo hi
              (pd_mean_between lo hi) (pd_mean_between lo hi) Hbt)
    as [mu [Emu Hmu]].
  destruct (two_level_between vgs Hb Hg pd_median pd_median lo hi
              (pd_median_between lo hi) (pd_median_between lo hi) Hbt)
    as [md [Emd Hmd]].
  exists lo, mu, md, hi.
  split; [apply two_level_rolled_up; split; [exact Hb|now symmetry]|].
  split; [apply two_level_rolled_up; split; [exact Hb|now symmetry]|].
  split; [apply two_level_rolled_up; split; [exact Hb|now symmetry]|].
  split; [apply two_level_rolled_up; split; [exact Hb|now symmetry]|].
  split; [apply bucket_values_covered; now exists vlo|].
  split; [apply bucket_values_covered; now exists vhi|].
  split; [|split; [exact Hmu|exact Hmd]].
  intros x Hx. apply bucket_values_covered in Hx. destruct Hx as [vs [Hvs Hx]].
  pose proof (Hle vs _ Hvs Hx) as H1. pose proof (Hge vs _ Hvs Hx) as H2.
  simpl in H1, H2. apply Rleb_iff in H1, H2. lra.
Qed.

Lemma X11_bucket_statistics_lie_between_the_extreme_values_witness :
  let m := {| aggregation_period := "1D"%string;
              metric_type := "vehicle_speed"%string;
              statistics :=
                compute_statistics
                  (grouped three_vehicles "1D" [Fin 1; Fin 2; Fin 6]) |} in
  exists lo mu md hi,
    In (0%Z, Fin lo) (min (statistics m))
    /\ In (0%Z, Fin mu) (mean (statistics m))
    /\ In (0%Z, Fin md) (median (statistics m))
    /\ In (0%Z, Fin hi) (max (statistics m))
    /\ In (Fin lo)
          (bucket_values 0 (keyed_rows three_vehicles "1D"
                              [Fin 1; Fin 2; Fin 6]))
    /\ In (Fin hi)
          (bucket_values 0 (keyed_rows three_vehicles "1D"
                              [Fin 1; Fin 2; Fin 6]))
    /\ (forall x,
          In (Fin x) (bucket_values 0 (keyed_rows three_vehicles "1D"
                                         [Fin 1; Fin 2; Fin 6])) ->
          lo <= x <= hi)
    /\ lo <= mu <= hi
    /\ lo <= md <= hi.
Proof.
  apply (X11_bucket_statistics_lie_between_the_extreme_values three_vehicles
           "vehicle_speed" "1D" [Fin 1; Fin 2; Fin 6]).
  - reflexivity.
  - reflexivity.
  - repeat constructor; eexists; reflexivity.
  - cbn [statistics mean compute_statistics]. rewrite two_level_buckets.
    left. reflexivity.
Defined.

End BoundFacts.

(** ** The fleet performance query *)

Module PerformanceFacts.
Import Performance ServiceReference Reference GroupByFacts FiniteFacts.
Import EfficiencyFacts.

Lemma string_eqb_eq (a b : string) : String.eqb a b = true <-> a = b.
Proof. apply String.eqb_eq. Qed.

Lemma values_of_matching (collection : list MetricDocument)
  (time_range : TimeRange) (metrics : list string) (mt : string) :
  values_of String.eqb mt
    (map (fun d => (doc_metric_type d, doc_value d))
         (filter (matches time_range metrics) collection))
  = matching_values collection time_range metrics mt.
Proof.
  unfold values_of, matching_values.
  induction collection as [|d docs IH]; simpl; [reflexivity|].
  destruct (matches time_range metrics d); simpl.
  - destruct (String.eqb mt (doc_metric_type d)); simpl; now rewrite IH.
  - exact IH.
Qed.



Lemma fold_Rmax (vs : list R) (v : R) :
  In (fold_left Rmax vs v) (v :: vs)
  /\ forall x, In x (v :: vs) -> x <= fold_left Rmax vs v.
Proof.
  revert v. induction vs as [|w vs IH]; intros v; simpl.
  - split; [now left|]. intros x [<-|[]]. lra.
  - destruct (IH (Rmax v w)) as [Hin Hge]. split.
    + destruct Hin as [E|Hin]; [|now right; right].
      rewrite <- E. unfold Rmax. destruct (Rle_dec v w); auto.
    + intros x [E|[E|Hx]].
      * subst x. apply Rle_trans with (Rmax v w); [apply Rmax_l|].
        apply Hge. now left.
      * subst x. apply Rle_trans with (Rmax v w); [apply Rmax_r|].
        apply Hge. now left.
      * apply Hge. now right.
Qed.

Lemma fold_Rmin (vs : list R) (v : R) :
  In (fold_left Rmin vs v) (v :: vs)
  /\ forall x, In x (v :: vs) -> fold_left Rmin vs v <= x.
Proof.
  revert v. induction vs as [|w vs IH]; intros v; simpl.
  - split; [now left|]. intros x [<-|[]]. lra.
  - destruct (IH (Rmin v w)) as [Hin Hge]. split.
    + destruct Hin as [E|Hin]; [|now right; right].
      rewrite <- E. unfold Rmin. destruct (Rle_dec v w); auto.
    + intros x [E|[E|Hx]].
      * subst x. apply Rle_trans with (Rmin v w); [|apply Rmin_l].
        apply Hge. now left.
      * subst x. apply Rle_trans with (Rmin v w); [|apply Rmin_r].
        apply Hge. now left.
      * apply Hge. now right.
Qed.

Lemma max_value_spec (vs : list R) :
  vs <> [] -> In (max_value vs) vs /\ forall x, In x vs -> x <= max_value vs.
Proof. destruct vs as [|v vs]; [congruence|]. intros _. apply fold_Rmax. Qed.

Lemma min_value_spec (vs : list R) :
  vs <> [] -> In (min_value vs) vs /\ forall x, In x vs -> min_value vs <= x.
Proof. destruct vs as [|v vs]; [congruence|]. intros _. apply fold_Rmin. Qed.

(** Rounding to the nearest integer moves a number by at most a half. *)
Lemma rint_error (y : R) : Rabs (IZR (rint y) - y) <= 1 / 2.
Proof.
  unfold rint. pose proof (Zfloor_bound y) as [H1 H2].
  destruct (Rltb (y - IZR (Zfloor y)) (1 / 2)) eqn:E1.
  - apply OrderFacts.Rltb_iff in E1. apply Rabs_le. lra.
  - apply OrderFacts.Rltb_false_iff in E1.
    assert (Hup : Rabs (IZR (Zfloor y + 1) - y) <= 1 / 2).
    { rewrite plus_IZR. apply Rabs_le. lra. }
    destruct (Rltb (1 / 2) (y - IZR (Zfloor y))) eqn:E2; [exact Hup|].
    apply OrderFacts.Rltb_false_iff in E2.
    destruct (Z.even (Zfloor y)); [|exact Hup].
    apply Rabs_le. lra.
Qed.

Lemma round2_error (x : R) :
  exists a, round2 (Fin x) = Fin a /\ Rabs (a - x) <= 1 / 200.
Proof.
  eexists. split; [reflexivity|].
  pose proof (rint_error (x * 100)) as H.
  assert (H' : - (1 / 2) <= IZR (rint (x * 100)) - x * 100 <= 1 / 2).
  { revert H. unfold Rabs. destruct (Rcase_abs _); lra. }
  apply Rabs_le. lra.
Qed.

Lemma rint_nonneg (y : R) : 0 <= y -> (0 <= rint y)%Z.
Proof.
  intros H. pose proof (Zfloor_bound y) as [H1 H2].
  destruct (rint_between 0 (Zfloor y + 1) y) as [Hlo _]; [|exact Hlo].
  rewrite plus_IZR. lra.
Qed.

Lemma round2_nonneg (x : R) :
  0 <= x -> exists s, round2 (Fin x) = Fin s /\ 0 <= s.
Proof.
  intros H. eexists. split; [reflexivity|].
  assert (Hr : (0 <= rint (x * 100))%Z) by (apply rint_nonneg; lra).
  apply IZR_le in Hr. lra.
Qed.

Lemma population_std_nonneg (vs : list R) :
  vs <> [] -> exists s, population_std vs = Fin s /\ 0 <= s.
Proof.
  intros H. destruct vs as [|v vs]; [congruence|].
  eexists. split; [reflexivity|]. apply sqrt_pos.
Qed.

(** X13.  In every entry of the result the minimum and the maximum are
    values of matching documents and bound all of them; the average
    reported is the mean of the values rounded to two decimals, so it is
    within 0.005 of a mean that lies between minimum and maximum (the
    rounded figure itself may fall outside); the standard deviation is a
    number and is not negative. *)
Theorem X13_entry_figures_are_consistent
  (collection : list MetricDocument) (time_range : TimeRange)
  (metrics_to_include : list string) (mt : string) (e : PerformanceEntry) :
  In (mt, e) (get_fleet_performance collection time_range
                metrics_to_include) ->
  exists lo hi a s,
    minimum e = Fin lo /\ maximum e = Fin hi
    /\ average e = Fin a /\ standard_deviation e = Fin s
    /\ In lo (matching_values collection time_range metrics_to_include mt)
    /\ In hi (matching_values collection time_range metrics_to_include mt)
    /\ (forall v,
          In v (matching_values collection time_range metrics_to_include mt) ->
          lo <= v <= hi)
    /\ lo <= avg_value (matching_values collection time_range
                          metrics_to_include mt) <= hi
    /\ Rabs (a - avg_value (matching_values collection time_range
                              metrics_to_include mt)) <= 1 / 200
    /\ 0 <= s.
Proof.
  intros H.
  unfold get_fleet_performance, group_by_metric_type in H.
  apply in_map_iff in H. destruct H as [[k vs] [E H]].
  simpl in E. inversion E; subst. clear E.
  destruct (collect_partition String.eqb String.ltb string_eqb_eq
              (map (fun d => (doc_metric_type d, doc_value d))
                   (filter (matches time_range metrics_to_include) collection)))
    as [_ Hin].
  apply Hin in H. destruct H as [-> Hne]. rewrite values_of_matching in *.
  set (vs := matching_values collection time_range metrics_to_include mt) in *.
  destruct (max_value_spec vs Hne) as [Hmax Hge].
  destruct (min_value_spec vs Hne) as [Hmin Hle].
  destruct (round2_error (avg_value vs)) as [a [Ea Ha]].
  cbn [entry_of minimum maximum average standard_deviation].
  unfold Fleet.fleet_performance_standard_deviation, Fleet.stdDevPop.
  rewrite np_std_fin by exact Hne.
  destruct (population_std_nonneg vs Hne) as [s0 [Es0 Hs0]]. rewrite Es0.
  destruct (round2_nonneg s0 Hs0) as [s [Es Hs]].
  exists (min_value vs), (max_value vs), a, s.
  repeat (split; [first [reflexivity | assumption]|]).
  split; [intros v Hv; split; [now apply Hle|now apply Hge]|].
  split; [|split; [exact Ha|exact Hs]].
  apply BoundFacts.mean_bounds; [exact Hne|].
  apply Forall_forall. intros v Hv. split; [now apply Hle|now apply Hge].
Qed.

Lemma X13_entry_figures_are_consistent_witness :
  exists lo hi a s,
    minimum (entry_of [1; 3]) = Fin lo /\ maximum (entry_of [1; 3]) = Fin hi
    /\ average (entry_of [1; 3]) = Fin a
    /\ standard_deviation (entry_of [1; 3]) = Fin s
    /\ In lo (matching_values three_readings first_five ["speed"%string]
                "speed")
    /\ In hi (matching_values three_readings first_five ["speed"%string]
                "speed")
    /\ (forall v,
          In v (matching_values three_readings first_five ["speed"%string]
                  "speed") ->
          lo <= v <= hi)
    /\ lo <= avg_value (matching_values three_readings first_five
                          ["speed"%string] "speed") <= hi
    /\ Rabs (a - avg_value (matching_values three_readings first_five
                              ["speed"%string] "speed")) <= 1 / 200
    /\ 0 <= s.
Proof.
  apply (X13_entry_figures_are_consistent three_readings first_five
           ["speed"%string] "speed" (entry_of [1; 3])).
  left. reflexivity.
Defined.

End PerformanceFacts.

(** ** The endpoints *)

Module ControllerFacts.
Import Controller ServiceReference Kinematics Reference Reference2.
Import KinematicsFacts.
Import RowFacts KinematicsMore Examples.

Section EndpointFacts.

Context {Response Frame Report : Type}.
Variable str : exn -> string.
Variable fromisoformat : option string -> option Z.
Variable get_fleet_performance :
  time_range_arg -> list string ->
  outcome (list (string * Performance.PerformanceEntry)).
Variable get_metrics_by_vehicle :
  string -> time_range_arg -> list string -> outcome Frame.
Variable location_rows : Frame -> string + list LocationSample.
Variable delivery_rows : Frame -> string + list Efficiency.DeliveryRecord.
Variable frame_of_performance :
  list (string * Performance.PerformanceEntry) -> Fleet.FleetFrame.
Variable generate_performance_report :
  list (string * Performance.PerformanceEntry) -> string -> result Report.
Variable fleet_response :
  Z -> Z -> list (string * Performance.PerformanceEntry) ->
  Fleet.FleetMetrics -> outcome Response.
Variable vehicle_response :
  string -> Z -> Z -> list DerivedSample -> outcome Response.
Variable delivery_response :
  RawTimeRange -> Efficiency.EfficiencyScore -> Frame -> outcome Response.
Variable report_response :
  string -> ReportParameters -> Report -> nat -> outcome Response.

Lemma handled (r : outcome Response) :
  returns r = false -> fails_with_500 (handle_exceptions str r).
Proof.
  destruct r as [a|e]; [discriminate|]. intros _. eexists. reflexivity.
Qed.

Lemma handled_cases (r : outcome Response) :
  returns (handle_exceptions str r) = true
  \/ status_of (handle_exceptions str r) = Some 500%nat.
Proof. destruct r; [now left|now right]. Qed.

Lemma handled_status (r : outcome Response) :
  returns r = false -> status_of (handle_exceptions str r) = Some 500%nat.
Proof. destruct r; [discriminate|reflexivity]. Qed.

Lemma fleet_body_raises (time_range : RawTimeRange)
  (metrics : option (list string)) :
  returns (fleet_body fromisoformat get_fleet_performance
             frame_of_performance fleet_response time_range metrics) = false.
Proof.
  unfold fleet_body, parse_time_range.
  destruct (fromisoformat (raw_start time_range)); [|reflexivity].
  destruct (fromisoformat (raw_end time_range)); [|reflexivity].
  destruct (get_fleet_performance _ _); reflexivity.
Qed.

(** X14.  The fleet endpoint never returns a response: whatever the time
    range, the metrics asked for and the answer of the analytics model,
    the call fails with status 500.  An unparsable time range is answered
    by 500 as well, and when the model answers, the aggregation is asked
    for the metric type 'performance', which it does not recognize. *)
Theorem X14_fleet_endpoint_never_returns (time_range : RawTimeRange)
  (metrics : option (list string)) :
  fails_with_500
    (get_fleet_analytics str fromisoformat get_fleet_performance
       frame_of_performance fleet_response time_range metrics)
  /\ forall frame,
       Fleet.calculate_fleet_metrics frame "performance" "1D" =
       ValueError Fleet.where_fleet (InvalidMetricType "performance").
Proof.
  split; [|reflexivity].
  unfold get_fleet_analytics. apply handled, fleet_body_raises.
Qed.

Lemma delivery_body_raises (time_range : RawTimeRange)
  (parameters : Efficiency.Parameters) :
  returns (delivery_body get_metrics_by_vehicle delivery_rows
             delivery_response time_range parameters) = false.
Proof.
  unfold delivery_body.
  destruct (negb (has_targets parameters)); [reflexivity|].
  destruct (get_metrics_by_vehicle _ _ _) as [frame|e]; [|reflexivity].
  destruct (delivery_rows frame); reflexivity.
Qed.

(** X15.  The delivery endpoint never returns a response: missing
    targets, a failing query and every batch of deliveries all end in
    status 500, because the efficiency analysis raises for every batch and
    every pair of targets. *)
Theorem X15_delivery_endpoint_never_returns (time_range : RawTimeRange)
  (efficiency_parameters : Efficiency.Parameters) :
  fails_with_500
    (get_delivery_analytics str get_metrics_by_vehicle delivery_rows
       delivery_response time_range efficiency_parameters)
  /\ forall rows parameters,
       is_ok (Efficiency.analyze_delivery_efficiency rows parameters) = false.
Proof.
  split; [|reflexivity].
  unfold get_delivery_analytics. apply handled, delivery_body_raises.
Qed.

(** X16.  No endpoint ever fails with a status other than 500.  The
    rejections the endpoints raise with status 400 (an unparsable time
    range, missing efficiency targets, an unknown report type) are caught
    by the decorator like any other exception, and reach the client with
    status 500. *)
Theorem X16_rejections_are_delivered_as_500 :
  (forall vehicle_id time_range,
     let r := get_vehicle_analytics str fromisoformat get_metrics_by_vehicle
                location_rows vehicle_response vehicle_id time_range in
     (returns r = true \/ status_of r = Some 500%nat)
     /\ (fromisoformat (raw_start time_range) = None
         \/ fromisoformat (raw_end time_range) = None ->
         status_of (vehicle_body fromisoformat get_metrics_by_vehicle
                      location_rows vehicle_response vehicle_id time_range)
         = Some 400%nat
         /\ status_of r = Some 500%nat))
  /\ (forall report_type report_parameters,
        let r := generate_analytics_report str get_fleet_performance
                   generate_performance_report report_response
                   report_type report_parameters in
        (returns r = true \/ status_of r = Some 500%nat)
        /\ (Fleet.is_in report_type valid_report_types = false ->
            status_of (report_body get_fleet_performance
                         generate_performance_report report_response
                         report_type report_parameters) = Some 400%nat
            /\ status_of r = Some 500%nat))
  /\ (forall time_range metrics,
        fromisoformat (raw_start time_range) = None
        \/ fromisoformat (raw_end time_range) = None ->
        status_of (fleet_body fromisoformat get_fleet_performance
                     frame_of_performance fleet_response time_range metrics)
        = Some 400%nat)
  /\ (forall time_range parameters,
        has_targets parameters = false ->
        status_of (delivery_body get_metrics_by_vehicle delivery_rows
                     delivery_response time_range parameters)
        = Some 400%nat).
Proof.
  split; [|split; [|split]].
  - intros vehicle_id time_range r. split; [apply handled_cases|].
    intros H. unfold r, get_vehicle_analytics, vehicle_body, parse_time_range.
    destruct H as [H|H].
    + rewrite H. now split.
    + rewrite H. destruct (fromisoformat (raw_start time_range)); now split.
  - intros report_type report_parameters r. split; [apply handled_cases|].
    intros H. unfold r, generate_analytics_report, report_body.
    rewrite H. now split.
  - intros time_range metrics H. unfold fleet_body, parse_time_range.
    destruct H as [H|H]; rewrite H; [reflexivity|].
    now destruct (fromisoformat (raw_start time_range)).
  - intros time_range parameters H. unfold delivery_body. now rewrite H.
Qed.


End EndpointFacts.

(** An unknown report type, with every outside call answering. *)
Lemma X16_rejections_are_delivered_as_500_witness :
  status_of
    (report_body (Response := unit) (Report := unit)
       (fun _ _ => Returned []) (fun _ _ => Ok tt)
       (fun _ _ _ _ => Returned tt)
       "weekly" {| rp_time_range := None; rp_metrics := None |})
  = Some 400%nat
  /\ status_of
       (generate_analytics_report (Response := unit) (Report := unit)
          (fun _ => EmptyString)
          (fun _ _ => Returned []) (fun _ _ => Ok tt)
          (fun _ _ _ _ => Returned tt)
          "weekly" {| rp_time_range := None; rp_metrics := None |})
     = Some 500%nat.
Proof.
  apply (proj2 (proj1 (proj2
           (X16_rejections_are_delivered_as_500
              (Response := unit) (Frame := unit) (Report := unit)
              (fun _ => EmptyString) (fun _ => None)
              (fun _ _ => Returned []) (fun _ _ _ => Returned tt)
              (fun _ => inr []) (fun _ => inr [])
              (fun _ => three_vehicles) (fun _ _ => Ok tt)
              (fun _ _ _ _ => Returned tt) (fun _ _ _ _ => Returned tt)
              (fun _ _ _ => Returned tt) (fun _ _ _ _ => Returned tt)))
           "weekly"%string {| rp_time_range := None; rp_metrics := None |})).
  reflexivity.
Defined.


End ControllerFacts.

(** ** The efficiency statistics and recommendations *)

Module EfficiencyMore.
Import Efficiency Reference Reference2 FiniteFacts EfficiencyFacts Examples.

Lemma map_all_equal {A B} (f : A -> B) (c : B) (l : list A) :
  Forall (fun a => f a = c) l -> map f l = repeat c (length l).
Proof. induction 1 as [|a l Ha _ IH]; simpl; congruence. Qed.

Lemma pd_mean_ones (n : nat) : pd_mean (repeat (Fin 1) (S n)) = Fin 1.
Proof.
  rewrite map_repeat_fin. unfold pd_mean.
  rewrite dropna_fin. apply np_mean_repeat.
Qed.

Lemma hundred_percent : fmul (Fin 1) (Fin 100) = Fin 100.
Proof. simpl. f_equal. lra. Qed.

Lemma not_below_target (d : R) (target : option float64) :
  d <= 100 -> at_most_100 target ->
  fltb (Fin 100) (default (Fin d) target) = false.
Proof.
  intros Hd H. destruct target as [t|]; simpl.
  - now apply H.
  - now apply Rltb_false.
Qed.

(** X18.  A non-empty batch in which every delivery is on time and is
    driven over exactly the planned distance has an on-time percentage of
    100 and a distance utilization of 100, and earns no recommendation
    under the default targets (95 and 90) or any targets up to 100. *)
Theorem X18_deliveries_as_planned_earn_no_recommendation
  (delivery_data : list DeliveryRecord) (parameters : Parameters) :
  delivery_data <> [] ->
  Forall as_planned delivery_data ->
  at_most_100 (target_on_time parameters) ->
  at_most_100 (target_utilization parameters) ->
  on_time_percentage (delivery_stats delivery_data) = Fin 100
  /\ distance_utilization (route_efficiency_of delivery_data) = Fin 100
  /\ _generate_efficiency_recommendations (delivery_stats delivery_data)
       (route_efficiency_of delivery_data) parameters = [].
Proof.
  intros Hne Hp H1 H2.
  assert (Hon : on_time_percentage (delivery_stats delivery_data) = Fin 100).
  { unfold delivery_stats. cbn [on_time_percentage].
    rewrite (map_all_equal _ (Fin 1)).
    - destruct delivery_data as [|r rs]; [congruence|].
      change (length (r :: rs)) with (S (length rs)).
      rewrite pd_mean_ones. apply hundred_percent.
    - eapply Forall_impl; [|exact Hp]. intros r [Hr _]. now rewrite Hr. }
  assert (Hut : distance_utilization (route_efficiency_of delivery_data)
                = Fin 100).
  { unfold route_efficiency_of. cbn [distance_utilization].
    rewrite (map_all_equal _ (Fin 1)).
    - destruct delivery_data as [|r rs]; [congruence|].
      change (length (r :: rs)) with (S (length rs)).
      rewrite pd_mean_ones. apply hundred_percent.
    - eapply Forall_impl; [|exact Hp].
      intros r [_ [d [Hd [-> ->]]]]. rewrite fdiv_fin by exact Hd.
      f_equal. now field. }
  split; [exact Hon|]. split; [exact Hut|].
  unfold _generate_efficiency_recommendations. rewrite Hon, Hut.
  rewrite !not_below_target by (assumption || lra). reflexivity.
Qed.

Lemma X18_deliveries_as_planned_earn_no_recommendation_witness :
  on_time_percentage (delivery_stats on_plan) = Fin 100
  /\ distance_utilization (route_efficiency_of on_plan) = Fin 100
  /\ _generate_efficiency_recommendations (delivery_stats on_plan)
       (route_efficiency_of on_plan) no_targets = [].
Proof.
  apply (X18_deliveries_as_planned_earn_no_recommendation on_plan no_targets).
  - discriminate.
  - repeat constructor; simpl.
    + apply Rleb_true. lra.
    + exists 1. repeat split. lra.
    + apply Rleb_true. lra.
    + exists 1. repeat split. lra.
  - intros t H. discriminate.
  - intros t H. discriminate.
Defined.

(** X19.  An empty batch has no statistics: the delivery time figures, the
    on-time percentage, the distance per delivery and the distance
    utilization are all NaN and there is no route; as no comparison with
    NaN holds, no recommendation is produced whatever the targets. *)
Theorem X19_empty_batch_has_nan_statistics (parameters : Parameters) :
  delivery_stats [] =
    {| avg_delivery_time := NaN; std_delivery_time := NaN;
       on_time_percentage := NaN |}
  /\ route_efficiency_of [] =
    {| avg_distance_per_delivery := NaN; avg_stops_per_route := [];
       distance_utilization := NaN |}
  /\ _generate_efficiency_recommendations (delivery_stats [])
       (route_efficiency_of []) parameters = [].
Proof.
  assert (Hm : pd_mean [] = NaN).
  { unfold pd_mean, np_mean, np_sum. simpl.
    now rewrite Reqb_true by reflexivity. }
  assert (Hs : delivery_stats [] =
               {| avg_delivery_time := NaN; std_delivery_time := NaN;
                  on_time_percentage := NaN |}).
  { unfold delivery_stats. cbn [map]. rewrite Hm. reflexivity. }
  assert (Hr : route_efficiency_of [] =
               {| avg_distance_per_delivery := NaN; avg_stops_per_route := [];
                  distance_utilization := NaN |}).
  { unfold route_efficiency_of. cbn [map]. rewrite Hm. reflexivity. }
  split; [exact Hs|]. split; [exact Hr|].
  rewrite Hs, Hr. reflexivity.
Qed.

End EfficiencyMore.

(** ** Order of the rows *)

Module OrderInvariants.
Import Anomaly Kinematics Reference Reference2 AnomalyFacts AnomalyMore.
Import KinematicsFacts RowFacts KinematicsMore Examples.





Lemma NoDup_map_injective {A B} (f : A -> B) (l : list A) (a b : A) :
  NoDup (map f l) -> In a l -> In b l -> f a = f b -> a = b.
Proof.
  induction l as [|x l IH]; simpl; intros Hnd Ha Hb E; [contradiction|].
  inversion Hnd as [|? ? Hx Hnd']; subst.
  destruct Ha as [->|Ha], Hb as [->|Hb].
  - reflexivity.
  - exfalso. apply Hx. rewrite E. now apply in_map.
  - exfalso. apply Hx. rewrite <- E. now apply in_map.
  - now apply IH.
Qed.

(** Two sorted arrangements of the same samples with distinct timestamps
    are the same list. *)
Lemma sorted_arrangement_unique (l1 l2 : list LocationSample) :
  StronglySorted (fun a b => (timestamp a <= timestamp b)%Z) l1 ->
  StronglySorted (fun a b => (timestamp a <= timestamp b)%Z) l2 ->
  Permutation l1 l2 -> NoDup (map timestamp l1) -> l1 = l2.
Proof.
  intros H1. revert l2. induction H1 as [|a l1 Hl1 IH Ha]; intros l2 H2 P Hnd.
  - apply Permutation_nil in P. now subst.
  - destruct H2 as [|b l2 Hl2 Hb].
    { apply Permutation_sym, Permutation_nil in P. discriminate. }
    assert (Eab : a = b).
    { assert (Ha2 : In a (b :: l2))
        by (eapply Permutation_in; [exact P|now left]).
      assert (Hb1 : In b (a :: l1))
        by (eapply Permutation_in; [symmetry; exact P|now left]).
      destruct Ha2 as [E|Ha2]; [now symmetry|].
      destruct Hb1 as [E|Hb1]; [exact E|].
      rewrite Forall_forall in Ha, Hb.
      specialize (Ha b Hb1). specialize (Hb a Ha2).
      apply (NoDup_map_injective timestamp (a :: l1)); auto.
      - now left.
      - now right.
      - lia. }
    subst b. f_equal. apply IH; [exact Hl2| |now inversion Hnd].
    now apply Permutation_cons_inv in P.
Qed.

(** X21.  When the timestamps of a batch are all different, the result of
    [process_location_data] does not depend on the order in which the
    samples are handed over. *)
Theorem X21_result_is_independent_of_input_order
  (data data' : list LocationSample) (o : CalcOptions) :
  Permutation data data' ->
  NoDup (map timestamp data) ->
  process_location_data data o = process_location_data data' o.
Proof.
  intros P Hnd.
  assert (E : sort_by_time data = sort_by_time data').
  { apply sorted_arrangement_unique; try apply sort_by_time_sorted.
    - rewrite sort_by_time_perm, P. symmetry. apply sort_by_time_perm.
    - eapply Permutation_NoDup; [|exact Hnd].
      apply Permutation_map. symmetry. apply sort_by_time_perm. }
  unfold process_location_data. now rewrite E.
Qed.

Lemma X21_result_is_independent_of_input_order_witness :
  process_location_data one_hour_north (options None None)
  = process_location_data
      [fix_ "a" 3600000000000 1 0; fix_ "a" 0 0 0] (options None None).
Proof.
  apply (X21_result_is_independent_of_input_order one_hour_north
           [fix_ "a" 3600000000000 1 0; fix_ "a" 0 0 0] (options None None)).
  - apply perm_swap.
  - repeat constructor; simpl; intuition discriminate.
Defined.

End OrderInvariants.

(** ** A bucket with a single vehicle *)

Module SingleVehicleBucket.
Import Fleet Reference Reference2 GroupByFacts FiniteFacts FleetFacts.
Import FleetMore BoundFacts Examples.

Lemma pd_mean_single (x : float64) : pd_mean [x] = x.
Proof.
  destruct x as [| | |a]; unfold pd_mean, np_mean, np_sum; simpl.
  - now rewrite Reqb_true by reflexivity.
  - now rewrite Rltb_false by lra.
  - now rewrite Rltb_false by lra.
  - rewrite Reqb_false by lra. f_equal. field.
Qed.

Lemma pd_median_single (x : float64) : pd_median [x] = x.
Proof. now destruct x. Qed.

Lemma pd_min_single (x : float64) : pd_min [x] = x.
Proof. now destruct x. Qed.

Lemma pd_max_single (x : float64) : pd_max [x] = x.
Proof. now destruct x. Qed.

Lemma same_key_once {K V} (k : K) (l : list (K * V)) :
  NoDup (map fst l) -> Forall (fun g => fst g = k) l -> (length l <= 1)%nat.
Proof.
  intros Hnd H. destruct l as [|g [|h l]]; simpl; try lia.
  exfalso. inversion Hnd as [|? ? Hnotin _]; subst.
  inversion H as [|? ? Hg H']; subst. inversion H' as [|? ? Hh _]; subst.
  apply Hnotin. left. congruence.
Qed.

Lemma NoDup_filter_keys {K V} (f : K * V -> bool) (l : list (K * V)) :
  NoDup (map fst l) -> NoDup (map fst (filter f l)).
Proof.
  induction l as [|g l IH]; simpl; intros H; [constructor|].
  inversion H as [|? ? Hnotin Hnd]; subst.
  destruct (f g); simpl; [|now apply IH].
  constructor; [|now apply IH].
  intros Hin. apply Hnotin. apply in_map_iff in Hin.
  destruct Hin as [h [E Hh]]. apply filter_In in Hh.
  apply in_map_iff. exists h. now split.
Qed.

(** The vehicle groups of a bucket in which one vehicle reports. *)
Lemma single_vehicle_groups (fd : FleetFrame) (ap : string)
  (column : list float64) (b : Z) (v : string) :
  vehicle_groups b (grouped fd ap column) <> [] ->
  (forall k x, In (k, x) (keyed_rows fd ap column) -> fst k = b -> snd k = v) ->
  vehicle_groups b (grouped fd ap column)
  = [bucket_values b (keyed_rows fd ap column)].
Proof.
  intros Hne Hv.
  destruct (grouped_partitions fd ap column) as [Hnd Hp].
  unfold vehicle_groups in *.
  set (sel := filter (fun g => (b =? fst (fst g))%Z) (grouped fd ap column))
    in *.
  assert (Hkeys : Forall (fun g => fst g = (b, v)) sel).
  { apply Forall_forall. intros [[b' v'] vs] Hin.
    apply filter_In in Hin. destruct Hin as [Hin Hb].
    simpl in Hb. apply Z.eqb_eq in Hb. subst b'.
    apply Hp in Hin. destruct Hin as [-> Hvs].
    apply values_of_nonempty in Hvs. apply in_map_iff in Hvs.
    destruct Hvs as [[k x] [Ek Hk]]. simpl in Ek. subst k.
    simpl. f_equal. apply (Hv _ _ Hk). reflexivity. }
  pose proof (same_key_once (b, v) sel (NoDup_filter_keys _ _ Hnd) Hkeys)
    as Hlen.
  destruct sel as [|[k vs] [|h rest]] eqn:E;
    [now contradiction Hne| |simpl in Hlen; lia].
  simpl. f_equal.
  assert (Hin : In (k, vs) (grouped fd ap column)).
  { assert (H : In (k, vs) sel) by (rewrite E; now left).
    unfold sel in H. now apply filter_In in H. }
  inversion Hkeys as [|? ? Hk _]; subst. simpl in Hk. subst k.
  apply Hp in Hin. destruct Hin as [-> _].
  unfold values_of, bucket_values. f_equal.
  apply filter_ext_in. intros [[b' v'] x] Hx.
  unfold key_eqb. simpl.
  destruct (b =? b')%Z eqn:Eb; [|reflexivity]. simpl.
  apply Z.eqb_eq in Eb. subst b'.
  pose proof (Hv _ _ Hx eq_refl) as Ev. simpl in Ev. subst v'.
  apply String.eqb_refl.
Qed.

(** X22.  For a bucket in which a single vehicle reports the two levels of
    the aggregation collapse: the statistics reported are the mean, the
    median, the sample standard deviation, the minimum and the maximum of
    the rows of the bucket, and its vehicle count is 1. *)
Theorem X22_single_vehicle_bucket_reports_its_own_statistics
  (fd : FleetFrame) (mt ap : string) (column : list float64)
  (m : FleetMetrics) (b : Z) (v : string) :
  calculate_fleet_metrics fd mt ap = Ok m ->
  get_column mt (f_columns fd) = Some column ->
  In b (buckets (mean (statistics m))) ->
  (forall k x, In (k, x) (keyed_rows fd ap column) -> fst k = b -> snd k = v) ->
  let vals := bucket_values b (keyed_rows fd ap column) in
  In (b, pd_mean vals) (mean (statistics m))
  /\ In (b, pd_median vals) (median (statistics m))
  /\ In (b, pd_std vals) (std (statistics m))
  /\ In (b, pd_min vals) (min (statistics m))
  /\ In (b, pd_max vals) (max (statistics m))
  /\ In (b, 1%nat) (vehicle_count (statistics m)).
Proof.
  intros Hok Hc Hb Hv vals.
  destruct (calculate_fleet_metrics_inv _ _ _ _ Hok) as [column' [Hc' Hs]].
  rewrite Hc in Hc'. inversion Hc'. subst column'. rewrite Hs in *. clear Hs.
  cbn [mean median std min max compute_statistics] in Hb |- *.
  apply reported_bucket in Hb.
  pose proof (single_vehicle_groups fd ap column b v Hb Hv) as Hg.
  fold vals in Hg.
  repeat split.
  - apply two_level_rolled_up. split; [exact Hb|].
    rewrite Hg. simpl. now rewrite pd_mean_single.
  - apply two_level_rolled_up. split; [exact Hb|].
    rewrite Hg. simpl. now rewrite pd_median_single.
  - apply two_level_rolled_up. split; [exact Hb|].
    rewrite Hg. simpl. now rewrite pd_mean_single.
  - apply two_level_rolled_up. split; [exact Hb|].
    rewrite Hg. simpl. now rewrite pd_min_single.
  - apply two_level_rolled_up. split; [exact Hb|].
    rewrite Hg. simpl. now rewrite pd_max_single.
  - apply vehicle_count_In. split; [exact Hb|]. now rewrite Hg.
Qed.

Lemma X22_single_vehicle_bucket_reports_its_own_statistics_witness :
  let m := {| aggregation_period := "1D"%string;
              metric_type := "vehicle_speed"%string;
              statistics :=
                compute_statistics
                  (grouped one_vehicle "1D" [Fin 0; Fin 3; Fin 6]) |} in
  let vals :=
    bucket_values 0 (keyed_rows one_vehicle "1D" [Fin 0; Fin 3; Fin 6]) in
  In (0%Z, pd_mean vals) (mean (statistics m))
  /\ In (0%Z, pd_median vals) (median (statistics m))
  /\ In (0%Z, pd_std vals) (std (statistics m))
  /\ In (0%Z, pd_min vals) (min (statistics m))
  /\ In (0%Z, pd_max vals) (max (statistics m))
  /\ In (0%Z, 1%nat) (vehicle_count (statistics m)).
Proof.
  apply (X22_single_vehicle_bucket_reports_its_own_statistics one_vehicle
           "vehicle_speed" "1D" [Fin 0; Fin 3; Fin 6] _ 0%Z "a"%string).
  - reflexivity.
  - reflexivity.
  - cbn [statistics mean compute_statistics]. rewrite two_level_buckets.
    left. reflexivity.
  - intros k x H _. simpl in H.
    destruct H as [H|[H|[H|[]]]]; inversion H; reflexivity.
Defined.

End SingleVehicleBucket.

(** ** The three-sigma rule on small samples *)

Module SmallSamples.
Import Anomaly Kinematics Reference Reference2 FiniteFacts ZscoreFacts.
Import AnomalyFacts AnomalyMore KinematicsFacts RowFacts KinematicsMore.
Import OrderFacts Examples.

Lemma Rsum_app (a b : list R) : Rsum (a ++ b) = Rsum a + Rsum b.
Proof. induction a as [|x a IH]; simpl; [lra|]. rewrite IH. lra. Qed.

Lemma Rsum_deviations (mu : R) (l : list R) :
  Rsum (map (fun x => x - mu) l) = Rsum l - INR (length l) * mu.
Proof.
  induction l as [|x l IH]; [simpl; lra|].
  change (length (x :: l)) with (S (length l)). rewrite S_INR.
  simpl. rewrite IH. lra.
Qed.

Lemma Rsum_sq_from (a : R) (ds : list R) :
  Rsum (map (fun d => (a - d) * (a - d)) ds)
  = INR (length ds) * (a * a) - 2 * a * Rsum ds
    + Rsum (map (fun d => d * d) ds).
Proof.
  induction ds as [|d ds IH]; [simpl; lra|].
  change (length (d :: ds)) with (S (length ds)). rewrite S_INR.
  simpl. rewrite IH. ring.
Qed.

Lemma Rsum_sq_from_nonneg (a : R) (ds : list R) :
  0 <= Rsum (map (fun d => (a - d) * (a - d)) ds).
Proof.
  induction ds as [|d ds IH]; simpl; [lra|].
  pose proof (Rle_0_sqr (a - d)) as H. unfold Rsqr in H. lra.
Qed.

(** The square of a sum is at most the number of terms times the sum of
    the squares. *)
Lemma square_of_sum (ds : list R) :
  Rsum ds * Rsum ds <= INR (length ds) * Rsum (map (fun d => d * d) ds).
Proof.
  induction ds as [|a ds IH]; [simpl; lra|].
  change (length (a :: ds)) with (S (length ds)). rewrite S_INR.
  pose proof (Rsum_sq_from_nonneg a ds) as H.
  rewrite Rsum_sq_from in H. simpl.
  set (S := Rsum ds) in *. set (Q := Rsum (map (fun d => d * d) ds)) in *.
  set (n := INR (length ds)) in *.
  replace ((a + S) * (a + S)) with (a * a + 2 * a * S + S * S) by ring.
  replace ((n + 1) * (a * a + Q)) with (n * (a * a) + n * Q + a * a + Q)
    by ring.
  lra.
Qed.

(** No value lies further from the mean than [sqrt (n - 1)] population
    standard deviations. *)
Lemma deviation_bound (l : list R) (x : R) :
  In x l ->
  INR (length l)
  * ((x - Rsum l / INR (length l)) * (x - Rsum l / INR (length l)))
  <= (INR (length l) - 1) * sum_sq_dev l.
Proof.
  intros Hin. unfold sum_sq_dev.
  set (mu := Rsum l / INR (length l)).
  assert (Hn : 0 < INR (length l)).
  { destruct l; [contradiction|apply INR_length_pos]. }
  assert (H0 : Rsum (map (fun y => y - mu) l) = 0).
  { rewrite Rsum_deviations. unfold mu. field. lra. }
  apply in_split in Hin. destruct Hin as [l1 [l2 E]].
  set (rest := l1 ++ l2).
  assert (Hlen : INR (length l) = INR (length rest) + 1).
  { rewrite E. unfold rest. rewrite !length_app. simpl.
    rewrite <- S_INR. f_equal. lia. }
  assert (Hsum : Rsum (map (fun y => y - mu) rest) = - (x - mu)).
  { rewrite E in H0. rewrite map_app, Rsum_app in H0. simpl in H0.
    unfold rest. rewrite map_app, Rsum_app. lra. }
  assert (Hsq : Rsum (map (fun y => (y - mu) * (y - mu)) l)
                = (x - mu) * (x - mu)
                  + Rsum (map (fun y => (y - mu) * (y - mu)) rest)).
  { rewrite E. unfold rest. rewrite !map_app, !Rsum_app. simpl. lra. }
  pose proof (square_of_sum (map (fun y => y - mu) rest)) as Hcs.
  rewrite Hsum, length_map, map_map in Hcs.
  rewrite Hsq, Hlen.
  set (d := x - mu) in *.
  set (Q := Rsum (map (fun y => (y - mu) * (y - mu)) rest)) in *.
  set (m := INR (length rest)) in *.
  replace (- d * - d) with (d * d) in Hcs by ring.
  replace ((m + 1) * (d * d)) with (m * (d * d) + d * d) by ring.
  replace ((m + 1 - 1) * (d * d + Q)) with (m * (d * d) + m * Q) by ring.
  lra.
Qed.

(** The z-scores of a column of numbers that is not constant. *)
Lemma zscore_of_numbers (xs : list R) :
  isconst (map Fin xs) = false ->
  exists zs,
    zscore (map Fin xs) = map Fin zs
    /\ Forall (fun z => z * z <= INR (length xs) - 1) zs.
Proof.
  intros Hc. destruct xs as [|x0 xs]; [discriminate|].
  destruct (not_isconst_differs _ _ Hc) as [y [Hy Hne]].
  set (l := x0 :: xs) in *.
  assert (Hl : l <> []) by discriminate.
  assert (Hn : 0 < INR (length l)) by apply INR_length_pos.
  set (mu := Rsum l / INR (length l)).
  assert (Hpos : 0 < sum_sq_dev l).
  { unfold sum_sq_dev. fold mu.
    destruct (Req_dec_T x0 mu) as [E|E].
    - apply (Rsum_sq_pos mu y); [now right|congruence].
    - apply (Rsum_sq_pos mu x0); [now left|exact E]. }
  set (sigma := sqrt (sum_sq_dev l / INR (length l))).
  assert (Hvar : 0 < sum_sq_dev l / INR (length l)).
  { apply Rmult_lt_0_compat; [exact Hpos|now apply Rinv_0_lt_compat]. }
  assert (Hsigma : 0 < sigma) by now apply sqrt_lt_R0.
  assert (Hsq : sigma * sigma = sum_sq_dev l / INR (length l)).
  { apply sqrt_sqrt. lra. }
  exists (map (fun x => (x - mu) / sigma) l). split.
  - unfold zscore. rewrite Hc.
    rewrite (np_mean_fin l Hl), (np_std_fin l Hl).
    unfold population_std. fold l. cbv beta iota. fold mu. fold sigma.
    change (match l with [] => NaN | _ :: _ => Fin sigma end) with (Fin sigma).
    rewrite !map_map. apply map_ext. intros x.
    cbn [fsub fadd fneg]. rewrite fdiv_fin by lra. reflexivity.
  - apply Forall_map, Forall_forall. intros x Hx.
    pose proof (deviation_bound l x Hx) as Hb. fold mu in Hb.
    set (d := x - mu) in *.
    apply (Rmult_le_reg_r (sigma * sigma)).
    { now apply Rmult_lt_0_compat. }
    replace (d / sigma * (d / sigma) * (sigma * sigma)) with (d * d)
      by (field; lra).
    rewrite Hsq.
    apply (Rmult_le_reg_r (INR (length l))); [exact Hn|].
    replace ((INR (length l) - 1) * (sum_sq_dev l / INR (length l))
             * INR (length l))
      with ((INR (length l) - 1) * sum_sq_dev l) by (field; lra).
    lra.
Qed.

Lemma square_below (z b : R) : z * z <= b -> b < 9 -> Rabs z < 3.
Proof.
  intros H Hb. unfold Rabs. destruct (Rcase_abs z); nra.
Qed.


Lemma numbers_list (l : list float64) :
  Forall is_number l -> exists xs, l = map Fin xs.
Proof.
  induction 1 as [|x l [r ->] _ [xs ->]]; [now exists []|].
  now exists (r :: xs).
Qed.

Lemma isconst_numbers (xs : list R) :
  isconst (map Fin xs) = true ->
  exists x, map Fin xs = repeat x (length (map Fin xs)).
Proof.
  destruct xs as [|x0 xs]; [exists NaN; reflexivity|].
  intros H. exists (Fin x0). simpl in H.
  apply andb_true_iff in H. destruct H as [_ H].
  simpl. f_equal.
  induction xs as [|x xs IH]; [reflexivity|].
  simpl in H. apply andb_true_iff in H. destruct H as [Hx H].
  unfold Reqb in Hx. destruct (Req_dec_T x0 x) as [<-|]; [|discriminate].
  simpl. f_equal. now apply IH.
Qed.

Lemma INR_le_9 (n : nat) : (n <= 9)%nat -> INR n - 1 < 9.
Proof. intros H. apply le_INR in H. simpl in H. lra. Qed.


Lemma select_every {A} (mask : list bool) (l : list A) :
  Forall (fun b => b = true) mask -> length mask = length l ->
  select mask l = l.
Proof.
  intros H. revert l. induction H as [|b mask -> _ IH]; intros [|x l] Hl;
    simpl in *; try discriminate; [reflexivity|].
  f_equal. apply IH. lia.
Qed.

Lemma nonneg_numbers (l : list float64) :
  Forall nonneg l -> Forall is_number l.
Proof.
  intros H. eapply Forall_impl; [|exact H]. intros x [r [-> _]]. now exists r.
Qed.

(** X23.  A batch of at most nine samples is never thinned by the outlier
    filter: among [n] numbers none lies [sqrt (n - 1)] standard deviations
    or more from the mean, which for [n <= 9] is below the cutoff 3.  So on
    such a batch, with coordinates that are numbers and speeds that are
    not all equal, the call with outlier removal returns what the call
    without it returns. *)
Theorem X23_small_batches_are_never_thinned
  (data : list LocationSample) (o : CalcOptions)
  (threshold : option float64) (out : list DerivedSample) :
  (length data <= 9)%nat ->
  Forall finite_position data ->
  process_location_data data (unfiltered threshold) = Ok out ->
  (forall x, map d_speed out <> repeat x (length out)) ->
  process_location_data data o = Ok out.
Proof.
  intros Hlen Hf Hoff Hvar.
  assert (Hid : identified out)
    by (apply (unfiltered_identified data (unfiltered threshold));
        [reflexivity|exact Hoff]).
  destruct (output_columns _ _ _ Hoff Hid)
    as [ds [Hd [_ [Hl [_ [_ [Hs _]]]]]]].
  rewrite <- Hoff, (unfiltered_returns _ _ _ Hd).
  apply process_location_data_returns; [exact Hd|].
  unfold filter_outliers. destruct (outliers_requested o); [|reflexivity].
  assert (Hds : length ds = length (sort_by_time data)).
  { rewrite sort_by_time_length.
    pose proof (distances_column_length _ _ Hd) as H.
    now rewrite sort_by_time_length in H. }
  assert (Hlen_s : length (map d_speed out) = length data)
    by now rewrite length_map.
  apply select_every.
  - unfold outlier_mask. rewrite (working_frame_speed _ _ Hds), <- Hs.
    assert (Hnum : Forall is_number (map d_speed out)).
    { rewrite Hs. apply nonneg_numbers, speed_column_nonneg.
      apply (distances_column_nonneg (sort_by_time data)); [|exact Hd].
      eapply Permutation_Forall; [symmetry; apply sort_by_time_perm|exact Hf]. }
    destruct (numbers_list _ Hnum) as [ss Ess]. rewrite Ess in *.
    destruct (isconst (map Fin ss)) eqn:Hc.
    { exfalso. destruct (isconst_numbers ss Hc) as [x Hx].
      apply (Hvar x). rewrite Hx at 1. f_equal.
      now rewrite <- Ess, length_map. }
    destruct (zscore_of_numbers ss Hc) as [zs [-> Hzs]].
    rewrite map_map. apply Forall_map.
    eapply Forall_impl; [|exact Hzs]. intros z Hz. simpl.
    apply Rltb_true. apply (square_below z _ Hz).
    apply INR_le_9. rewrite length_map in Hlen_s. lia.
  - unfold outlier_mask.
    rewrite length_map, zscore_length, length_map. reflexivity.
Qed.

Lemma X23_small_batches_are_never_thinned_witness :
  exists out,
    process_location_data one_hour_north (options None None) = Ok out.
Proof.
  destruct (KinematicsExamples.one_hour_north_processed None) as [a Ha].
  eexists.
  apply (X23_small_batches_are_never_thinned one_hour_north
           (options None None) None).
  - simpl. lia.
  - repeat constructor; unfold finite_position; simpl; eauto.
  - apply (removal_keeps_result _ _ None _ Ha).
    repeat constructor; discriminate.
  - intros x H. simpl in H.
    assert (E : Fin 0 = Fin km_per_degree) by congruence.
    injection E as E. unfold km_per_degree in E. lra.
Defined.




End SmallSamples.

(** ** Indicators and recommendations of the performance report *)

Module IndicatorFacts.
Import Indicators ServiceReference Reference2 FiniteFacts BoundFacts.
Import OrderFacts.





End IndicatorFacts.

(** ** Units and positions *)

Module UnitFacts.
Import Anomaly Reference Reference2 FiniteFacts ZscoreFacts AnomalyFacts.
Import AnomalyMore SmallSamples Examples.

Section Affine.
Variables a b : R.
Hypothesis a_pos : 0 < a.

Lemma rescale_numbers (xs : list R) :
  rescale a b (map Fin xs) = map Fin (map (fun x => a * x + b) xs).
Proof. unfold rescale. rewrite !map_map. reflexivity. Qed.

Lemma Rsum_affine (xs : list R) :
  Rsum (map (fun x => a * x + b) xs) = a * Rsum xs + INR (length xs) * b.
Proof.
  induction xs as [|x xs IH]; [simpl; lra|].
  change (length (x :: xs)) with (S (length xs)). rewrite S_INR.
  simpl. rewrite IH. lra.
Qed.

Lemma Rsum_scaled (c : R) (f : R -> R) (xs : list R) :
  Rsum (map (fun x => c * f x) xs) = c * Rsum (map f xs).
Proof. induction xs as [|x xs IH]; simpl; [lra|]. rewrite IH. lra. Qed.

Lemma mean_affine (xs : list R) :
  xs <> [] ->
  Rsum (map (fun x => a * x + b) xs) / INR (length (map (fun x => a * x + b) xs))
  = a * (Rsum xs / INR (length xs)) + b.
Proof.
  intros H. rewrite Rsum_affine, length_map.
  assert (0 < INR (length xs))
    by (destruct xs; [congruence|apply INR_length_pos]).
  field. lra.
Qed.

Lemma sum_sq_dev_affine (xs : list R) :
  xs <> [] ->
  sum_sq_dev (map (fun x => a * x + b) xs) = a * a * sum_sq_dev xs.
Proof.
  intros H. unfold sum_sq_dev. rewrite (mean_affine xs H).
  rewrite map_map, <- Rsum_scaled. f_equal. apply map_ext.
  intros x. ring.
Qed.

Lemma isconst_affine (xs : list R) :
  isconst (map Fin (map (fun x => a * x + b) xs)) = isconst (map Fin xs).
Proof.
  destruct xs as [|x0 xs]; [reflexivity|]. simpl.
  rewrite !Reqb_true by reflexivity. simpl.
  induction xs as [|x xs IH]; [reflexivity|]. simpl. rewrite IH. f_equal.
  unfold Reqb. destruct (Req_dec_T x0 x) as [E|E].
  - subst. now destruct (Req_dec_T (a * x + b) (a * x + b)).
  - destruct (Req_dec_T (a * x0 + b) (a * x + b)) as [E'|E']; [|reflexivity].
    exfalso. apply E. nra.
Qed.

Lemma zscore_explicit (xs : list R) :
  isconst (map Fin xs) = false ->
  0 < sum_sq_dev xs
  /\ zscore (map Fin xs) =
     map (fun x => Fin ((x - Rsum xs / INR (length xs))
                        / sqrt (sum_sq_dev xs / INR (length xs)))) xs.
Proof.
  intros Hc. destruct xs as [|x0 xs]; [discriminate|].
  destruct (not_isconst_differs _ _ Hc) as [y [Hy Hne]].
  set (l := x0 :: xs) in *.
  assert (Hl : l <> []) by discriminate.
  assert (Hn : 0 < INR (length l)) by apply INR_length_pos.
  set (mu := Rsum l / INR (length l)).
  assert (Hpos : 0 < sum_sq_dev l).
  { unfold sum_sq_dev. fold mu.
    destruct (Req_dec_T x0 mu) as [E|E].
    - apply (Rsum_sq_pos mu y); [now right|congruence].
    - apply (Rsum_sq_pos mu x0); [now left|exact E]. }
  split; [exact Hpos|].
  set (sigma := sqrt (sum_sq_dev l / INR (length l))).
  assert (Hsigma : 0 < sigma).
  { apply sqrt_lt_R0. apply Rmult_lt_0_compat; [exact Hpos|].
    now apply Rinv_0_lt_compat. }
  unfold zscore. rewrite Hc.
  rewrite (np_mean_fin l Hl), (np_std_fin l Hl).
  unfold population_std. fold l. cbv beta iota. fold mu. fold sigma.
  change (match l with [] => NaN | _ :: _ => Fin sigma end) with (Fin sigma).
  rewrite map_map. apply map_ext. intros x.
  cbn [fsub fadd fneg]. rewrite fdiv_fin by lra. reflexivity.
Qed.

(** The z-scores of a column of numbers do not depend on its unit. *)
Lemma zscore_affine (xs : list R) :
  zscore (map Fin (map (fun x => a * x + b) xs)) = zscore (map Fin xs).
Proof.
  destruct (isconst (map Fin xs)) eqn:Hc.
  - unfold zscore. rewrite isconst_affine, Hc.
    now rewrite !map_const_repeat, !length_map.
  - assert (Hc' : isconst (map Fin (map (fun x => a * x + b) xs)) = false)
      by now rewrite isconst_affine.
    assert (Hne : xs <> []) by (intros ->; discriminate).
    destruct (zscore_explicit _ Hc') as [_ ->].
    destruct (zscore_explicit _ Hc) as [Hpos ->].
    assert (Hn : 0 < INR (length xs))
      by (destruct xs; [congruence|apply INR_length_pos]).
    rewrite (mean_affine xs Hne), (sum_sq_dev_affine xs Hne), length_map.
    rewrite map_map. apply map_ext. intros x. f_equal.
    set (v := sum_sq_dev xs / INR (length xs)).
    assert (Hv : 0 < v).
    { apply Rmult_lt_0_compat; [exact Hpos|now apply Rinv_0_lt_compat]. }
    replace (a * a * sum_sq_dev xs / INR (length xs)) with (a * a * v)
      by (unfold v; field; lra).
    rewrite sqrt_mult by nra. rewrite sqrt_square by lra.
    assert (Hs : 0 < sqrt v) by now apply sqrt_lt_R0.
    field. lra.
Qed.

End Affine.

Lemma z_scores_same_up_to_units (n n' : nat)
  (cols cols' : list (string * list float64)) :
  same_up_to_units cols cols' ->
  z_scores {| n_rows := n'; numeric_cols := cols' |}
  = z_scores {| n_rows := n; numeric_cols := cols |}.
Proof.
  unfold z_scores. cbn [numeric_cols].
  induction 1 as [|c c' cols cols' [Hname [Hnum [a [b [Ha Hs]]]]] _ IH];
    [reflexivity|].
  cbn [map]. rewrite IH, Hname, Hs. do 3 f_equal.
  destruct (numbers_list _ Hnum) as [xs ->].
  rewrite rescale_numbers. now apply zscore_affine.
Qed.

(** X26.  Anomaly detection does not depend on the units of the columns:
    when every numeric column of a table of numbers is rescaled by a
    positive factor and moved by an offset of its own, the same rows are
    returned, with the same confidence scores and the same categories
    (scores taken in exact arithmetic). *)
Theorem X26_detection_is_independent_of_units (n : nat)
  (cols cols' : list (string * list float64)) (t : float64) :
  same_up_to_units cols cols' ->
  verdicts (detect_anomalies {| n_rows := n; numeric_cols := cols' |} t)
  = verdicts (detect_anomalies {| n_rows := n; numeric_cols := cols |} t).
Proof.
  intros H. unfold detect_anomalies.
  rewrite (z_scores_same_up_to_units n n cols cols' H).
  cbn [n_rows].
  destruct (z_scores {| n_rows := n; numeric_cols := cols |}) as [|z zs];
    [destruct n|]; cbn [verdicts]; try reflexivity;
    destruct (filter _ _); cbn [verdicts]; rewrite !map_map; reflexivity.
Qed.

Lemma X26_detection_is_independent_of_units_witness :
  verdicts (detect_anomalies
              {| n_rows := 2;
                 numeric_cols := [("speed"%string,
                                   rescale 2 1 [Fin 0; Fin 2])] |}
              (Fin (1 / 2)))
  = verdicts (detect_anomalies two_speeds (Fin (1 / 2))).
Proof.
  apply (X26_detection_is_independent_of_units 2
           [("speed"%string, [Fin 0; Fin 2])]
           [("speed"%string, rescale 2 1 [Fin 0; Fin 2])] (Fin (1 / 2))).
  repeat constructor.
  - eexists; reflexivity.
  - eexists; reflexivity.
  - exists 2, 1. split; [lra|reflexivity].
Defined.

End UnitFacts.

Module PositionFacts.
Import Kinematics Reference2 KinematicsFacts RowFacts KinematicsMore.
Import FiniteFacts Examples.

Section Moved.
Variables dlat dlon : R.

Lemma moved_insert (x : LocationSample) (l : list LocationSample) :
  insert_by_time (moved dlat dlon x) (map (moved dlat dlon) l)
  = map (moved dlat dlon) (insert_by_time x l).
Proof.
  induction l as [|y l IH]; simpl; [reflexivity|].
  destruct (timestamp x <=? timestamp y)%Z; simpl; [reflexivity|].
  now rewrite IH.
Qed.

Lemma moved_sort (l : list LocationSample) :
  sort_by_time (map (moved dlat dlon) l)
  = map (moved dlat dlon) (sort_by_time l).
Proof.
  induction l as [|x l IH]; simpl; [reflexivity|].
  rewrite IH. apply moved_insert.
Qed.

Lemma moved_time_diff (rows : list LocationSample) :
  time_diff_column (map (moved dlat dlon) rows) = time_diff_column rows.
Proof. unfold time_diff_column. now rewrite map_map. Qed.

Lemma moved_mask (p : option string) (rows : list LocationSample) :
  same_as_previous p (map (moved dlat dlon) rows) = same_as_previous p rows.
Proof.
  revert p. induction rows as [|r rows IH]; intros p; simpl; [reflexivity|].
  now rewrite IH.
Qed.

Lemma moved_step (x y : LocationSample) :
  finite_position x -> finite_position y ->
  step_distance (moved dlat dlon x) (moved dlat dlon y) = step_distance x y.
Proof.
  intros [la [lo [Ha Ho]]] [lb [lob [Hb Hob]]].
  unfold step_distance, moved. cbn [latitude longitude].
  rewrite Ha, Ho, Hb, Hob. cbn [fadd fsub fneg fmul].
  replace (lb + dlat + - (la + dlat)) with (lb + - la) by lra.
  replace (lob + dlon + - (lo + dlon)) with (lob + - lo) by lra.
  reflexivity.
Qed.

Lemma moved_distances (rows : list LocationSample) :
  Forall finite_position rows ->
  consecutive_distances (map (moved dlat dlon) rows)
  = consecutive_distances rows.
Proof.
  induction rows as [|x rows IH]; intros H; [reflexivity|].
  inversion H as [|? ? Hx Hrows]; subst.
  destruct rows as [|y rows]; [reflexivity|].
  inversion Hrows as [|? ? Hy _]; subst.
  change (step_distance (moved dlat dlon x) (moved dlat dlon y)
          :: consecutive_distances (map (moved dlat dlon) (y :: rows))
          = step_distance x y :: consecutive_distances (y :: rows)).
  rewrite (IH Hrows), moved_step by assumption. reflexivity.
Qed.

Lemma moved_distances_column (rows : list LocationSample) :
  Forall finite_position rows ->
  distances_column (map (moved dlat dlon) rows) = distances_column rows.
Proof.
  intros H. unfold distances_column.
  now rewrite length_map, moved_mask, moved_distances.
Qed.

(** The row of the working frame that belongs to a moved sample. *)
Lemma moved_rows (rows : list LocationSample) (tds ss : list float64) :
  make_rows (map (moved dlat dlon) rows) tds ss
  = map (fun r => {| sample := moved dlat dlon (sample r);
                     time_diff := time_diff r; speed := speed r |})
        (make_rows rows tds ss).
Proof.
  revert tds ss. induction rows as [|r rows IH]; intros [|t tds] [|s ss];
    simpl; try reflexivity. now rewrite IH.
Qed.

Lemma select_map {A B} (g : A -> B) (mask : list bool) (l : list A) :
  select mask (map g l) = map g (select mask l).
Proof.
  revert l. induction mask as [|[] mask IH]; intros [|x l]; simpl;
    try reflexivity; now rewrite IH.
Qed.

Lemma make_output_moved (frame : list Row) (ds accs : list float64) :
  make_output
    (map (fun r => {| sample := moved dlat dlon (sample r);
                      time_diff := time_diff r; speed := speed r |}) frame)
    ds accs
  = make_output frame ds accs.
Proof.
  revert ds accs. induction frame as [|r frame IH]; intros [|d ds] [|x accs];
    simpl; try reflexivity. now rewrite IH.
Qed.

(** X27.  The result depends on the displacements only, not on where the
    batch lies: moving every sample of a batch of numeric positions by the
    same offsets in latitude and longitude leaves the result of
    [process_location_data] unchanged (in exact arithmetic); a degree
    counts 111.32 km in both directions at every latitude. *)
Theorem X27_result_is_independent_of_position
  (data : list LocationSample) (o : CalcOptions) :
  Forall finite_position data ->
  process_location_data (map (moved dlat dlon) data) o
  = process_location_data data o.
Proof.
  intros Hf. unfold process_location_data.
  assert (Hs : Forall finite_position (sort_by_time data)).
  { eapply Permutation_Forall; [symmetry; apply sort_by_time_perm|exact Hf]. }
  rewrite moved_sort, (moved_distances_column _ Hs).
  destruct (distances_column (sort_by_time data)) as [e|ds]; [reflexivity|].
  unfold working_frame. rewrite moved_time_diff, moved_rows.
  set (frame := make_rows (sort_by_time data)
                  (time_diff_column (sort_by_time data))
                  (speed_column (time_diff_column (sort_by_time data)) ds)).
  set (g := fun r => {| sample := moved dlat dlon (sample r);
                        time_diff := time_diff r; speed := speed r |}).
  assert (Hk : filter_outliers o (map g frame)
               = map g (filter_outliers o frame)).
  { unfold filter_outliers. destruct (outliers_requested o); [|reflexivity].
    rewrite map_map. cbn [speed g]. apply select_map. }
  assert (Ha : acceleration_column (map g (filter_outliers o frame))
               = acceleration_column (filter_outliers o frame)).
  { unfold acceleration_column. now rewrite !map_map. }
  cbv zeta. rewrite Hk, Ha, length_map, make_output_moved.
  now destruct (filter_outliers o frame).
Qed.

End Moved.

Lemma X27_result_is_independent_of_position_witness :
  process_location_data (map (moved 10 20) two_lone_vehicles)
    (options (Some false) None)
  = process_location_data two_lone_vehicles (options (Some false) None).
Proof.
  apply (X27_result_is_independent_of_position 10 20 two_lone_vehicles
           (options (Some false) None)).
  repeat constructor; unfold finite_position; simpl; eauto.
Defined.

End PositionFacts.
